(** * dotti: recommendation engine, Windsurf serializer and artifact analyzers

    A shallow embedding of the decision logic of the repository
    ([src/recommender], [src/adapters/windsurf-adapter], [src/validator],
    [src/fixer], [src/pruner], [src/utils/frontmatter], [src/utils/tokens])
    together with the properties its specification states about it.

    JavaScript strings are sequences of UTF-16 code units; they are modelled
    as lists of code units ([N]), so [length], [slice], [trim], the [\s]
    class and [Buffer.byteLength] keep their JavaScript meaning. *)

From Stdlib Require Import List NArith ZArith QArith Bool Arith Lia String Ascii.
From Stdlib Require Import Sorting.Sorted Sorting.Permutation.
Import ListNotations.
Close Scope Q_scope.

Set Implicit Arguments.

(* ================================================================= *)
(** ** JavaScript strings *)

Module JS.

Definition char := N.
Definition jsstring := list char.

(** An ASCII literal of the source, as code units. *)
Definition lit (s : string) : jsstring :=
  map N_of_ascii (list_ascii_of_string s).
Arguments lit s%_string.

Definition chr (a : ascii) : char := N_of_ascii a.
Arguments chr a%_char.

Definition LF : char := 10%N.
Definition CR : char := 13%N.

Fixpoint eqb (s t : jsstring) : bool :=
  match s, t with
  | [], [] => true
  | c :: s', d :: t' => N.eqb c d && eqb s' t'
  | _, _ => false
  end.

(** A value is truthy when it is a non-empty string. *)
Definition truthy (s : jsstring) : bool :=
  match s with [] => false | _ => true end.

(** [a || b] on strings. *)
Definition orElse (a b : jsstring) : jsstring := if truthy a then a else b.

(** [o || b] where [o] may be [undefined]. *)
Definition optOr (o : option jsstring) (b : jsstring) : jsstring :=
  match o with Some a => orElse a b | None => b end.

(** [!o] where [o] may be [undefined]. *)
Definition falsy (o : option jsstring) : bool :=
  match o with Some a => negb (truthy a) | None => true end.

(** ECMAScript LineTerminator: LF, CR, U+2028, U+2029. *)
Definition isLineTerminator (c : char) : bool :=
  (N.eqb c 10 || N.eqb c 13 || N.eqb c 8232 || N.eqb c 8233)%N.

(** ECMAScript WhiteSpace + LineTerminator: the class [\s] of regular
    expressions and the characters removed by [String.prototype.trim]. *)
Definition isSpace (c : char) : bool :=
  (N.eqb c 9 || N.eqb c 10 || N.eqb c 11 || N.eqb c 12 || N.eqb c 13
   || N.eqb c 32 || N.eqb c 160 || N.eqb c 5760
   || (N.leb 8192 c && N.leb c 8202)
   || N.eqb c 8232 || N.eqb c 8233 || N.eqb c 8239 || N.eqb c 8287
   || N.eqb c 12288 || N.eqb c 65279)%N.

Fixpoint dropWhile (p : char -> bool) (s : jsstring) : jsstring :=
  match s with
  | [] => []
  | c :: s' => if p c then dropWhile p s' else s
  end.

Definition trimStart (s : jsstring) : jsstring := dropWhile isSpace s.
Definition trimEnd (s : jsstring) : jsstring := rev (dropWhile isSpace (rev s)).
Definition trim (s : jsstring) : jsstring := trimEnd (trimStart s).

Fixpoint startsWith (s p : jsstring) : bool :=
  match p, s with
  | [], _ => true
  | d :: p', c :: s' => N.eqb c d && startsWith s' p'
  | _ :: _, [] => false
  end.

Definition endsWith (s p : jsstring) : bool := startsWith (rev s) (rev p).

(** [s.includes(p)] *)
Fixpoint includes (s p : jsstring) : bool :=
  startsWith s p ||
  match s with
  | [] => false
  | _ :: s' => includes s' p
  end.

(** [s.indexOf(c)] for a one-character needle; [None] stands for -1. *)
Fixpoint indexOf (c : char) (s : jsstring) : option nat :=
  match s with
  | [] => None
  | d :: s' => if N.eqb d c then Some 0
               else option_map S (indexOf c s')
  end.

(** [s.length], where the number may be large. *)
Definition len (s : jsstring) : N := N.of_nat (List.length s).

(** [s.slice(0, n)] and [s.slice(n)] for [0 <= n]. *)
Definition sliceTo (n : nat) (s : jsstring) : jsstring := firstn n s.
Definition sliceFrom (n : nat) (s : jsstring) : jsstring := skipn n s.

(** [xs.join(sep)] *)
Fixpoint join (sep : jsstring) (xs : list jsstring) : jsstring :=
  match xs with
  | [] => []
  | [x] => x
  | x :: xs' => x ++ sep ++ join sep xs'
  end.

(** [s.split(sep)] for a separator that is one code unit out of a class:
    [split(",")] and [split(/[,;]/)]. The result is never empty. *)
Fixpoint splitOn (p : char -> bool) (s : jsstring) : list jsstring :=
  match s with
  | [] => [[]]
  | c :: s' =>
      if p c then [] :: splitOn p s'
      else match splitOn p s' with
           | l :: ls => (c :: l) :: ls
           | [] => [[c]]
           end
  end.

(** [s.split(/\r?\n/)]: a CR directly before a LF belongs to the separator,
    any other CR stays in its line. *)
Fixpoint splitLines (s : jsstring) : list jsstring :=
  match s with
  | [] => [[]]
  | c :: s' =>
      if N.eqb c LF then [] :: splitLines s'
      else
        match s' with
        | d :: s'' =>
            if N.eqb c CR && N.eqb d LF then [] :: splitLines s''
            else match splitLines s' with
                 | l :: ls => (c :: l) :: ls
                 | [] => [[c]]
                 end
        | [] => [[c]]
        end
  end.

(** [xs.includes(x)] on an array of strings. *)
Definition mem (x : jsstring) (xs : list jsstring) : bool :=
  existsb (eqb x) xs.

(** [xs.filter(Boolean)] on an array of strings. *)
Definition filterTruthy (xs : list jsstring) : list jsstring :=
  filter truthy xs.

(** [s.replace(/\\/g, "/")] *)
Definition slashes (s : jsstring) : jsstring :=
  map (fun c => if N.eqb c 92 then 47%N else c) s.

(** [s.replace(/\s/g, "")] *)
Definition stripSpace (s : jsstring) : jsstring :=
  filter (fun c => negb (isSpace c)) s.

(** Decimal rendering of a non-negative integer, as [`${n}`] does. *)
Fixpoint ofUint (d : Decimal.uint) : jsstring :=
  match d with
  | Decimal.Nil => []
  | Decimal.D0 d' => 48%N :: ofUint d'
  | Decimal.D1 d' => 49%N :: ofUint d'
  | Decimal.D2 d' => 50%N :: ofUint d'
  | Decimal.D3 d' => 51%N :: ofUint d'
  | Decimal.D4 d' => 52%N :: ofUint d'
  | Decimal.D5 d' => 53%N :: ofUint d'
  | Decimal.D6 d' => 54%N :: ofUint d'
  | Decimal.D7 d' => 55%N :: ofUint d'
  | Decimal.D8 d' => 56%N :: ofUint d'
  | Decimal.D9 d' => 57%N :: ofUint d'
  end.

Definition ofN (n : N) : jsstring := ofUint (N.to_uint n).
Definition ofNat (n : nat) : jsstring := ofN (N.of_nat n).

(** [Buffer.byteLength(s, "utf-8")]: a code unit below U+0080 takes one
    byte, below U+0800 two; a high surrogate followed by a low surrogate
    takes four bytes for the pair; every other code unit (a lone surrogate
    is written as U+FFFD) takes three. *)
Definition isHigh (c : char) : bool := (N.leb 55296 c && N.leb c 56319)%N.
Definition isLow (c : char) : bool := (N.leb 56320 c && N.leb c 57343)%N.

Fixpoint byteLength (s : jsstring) : nat :=
  match s with
  | [] => 0
  | c :: s' =>
      if N.ltb c 128 then 1 + byteLength s'
      else if N.ltb c 2048 then 2 + byteLength s'
      else
        match s' with
        | d :: s'' =>
            if isHigh c && isLow d then 4 + byteLength s''
            else 3 + byteLength s'
        | [] => 3
        end
  end.

(** The ASCII part of [String.prototype.toLowerCase]. *)
Definition asciiLower (s : jsstring) : jsstring :=
  map (fun c => if (N.leb 65 c && N.leb c 90)%N then (c + 32)%N else c) s.

End JS.

Import JS.

(* ================================================================= *)
(** ** Regular expressions

    A backtracking matcher in continuation-passing style for the fragment
    of ECMAScript regular expressions the sources use: character classes,
    the assertions [^] and [$] (with or without the [m] flag), sequence,
    alternation, greedy [?], greedy and lazy repetition of a character
    class, and capturing groups (never nested in the sources, so captures
    are collected in the order the groups close). Alternatives are tried
    left to right, a greedy quantifier tries the longest repetition first
    and a lazy one the shortest, as the specification of the language
    prescribes. *)

Module Regex.

Inductive re : Type :=
| Cls (p : char -> bool)
| Bol (multiline : bool)
| Eol (multiline : bool)
| Eps
| Seq (r1 r2 : re)
| Alt (r1 r2 : re)
| Opt (r : re)
| Star (p : char -> bool)
| StarLazy (p : char -> bool)
| Grp (r : re).

Definition atBol (multiline : bool) (prev : option char) : bool :=
  match prev with
  | None => true
  | Some c => multiline && isLineTerminator c
  end.

Definition atEol (multiline : bool) (s : jsstring) : bool :=
  match s with
  | [] => true
  | c :: _ => multiline && isLineTerminator c
  end.

Definition orTry {A} (a b : option A) : option A :=
  match a with Some x => Some x | None => b end.

Section Matcher.
Variable A : Type.

(** A continuation receives the code unit before the current position,
    the rest of the input and the captures so far. *)
Definition cont := option char -> jsstring -> list jsstring -> option A.

Fixpoint starGreedy (p : char -> bool) (k : cont)
    (prev : option char) (s : jsstring) (caps : list jsstring) : option A :=
  match s with
  | c :: s' =>
      if p c then orTry (starGreedy p k (Some c) s' caps) (k prev s caps)
      else k prev s caps
  | [] => k prev s caps
  end.

Fixpoint starLazy (p : char -> bool) (k : cont)
    (prev : option char) (s : jsstring) (caps : list jsstring) : option A :=
  orTry (k prev s caps)
    match s with
    | c :: s' => if p c then starLazy p k (Some c) s' caps else None
    | [] => None
    end.

Fixpoint rmatch (r : re) (prev : option char) (s : jsstring)
    (caps : list jsstring) (k : cont) : option A :=
  match r with
  | Cls p =>
      match s with
      | c :: s' => if p c then k (Some c) s' caps else None
      | [] => None
      end
  | Bol m => if atBol m prev then k prev s caps else None
  | Eol m => if atEol m s then k prev s caps else None
  | Eps => k prev s caps
  | Seq r1 r2 =>
      rmatch r1 prev s caps (fun prev' s' caps' => rmatch r2 prev' s' caps' k)
  | Alt r1 r2 =>
      orTry (rmatch r1 prev s caps k) (rmatch r2 prev s caps k)
  | Opt r1 =>
      orTry (rmatch r1 prev s caps k) (k prev s caps)
  | Star p => starGreedy p k prev s caps
  | StarLazy p => starLazy p k prev s caps
  | Grp r1 =>
      rmatch r1 prev s caps
        (fun prev' s' caps' =>
           k prev' s' (caps' ++ [firstn (List.length s - List.length s') s]))
  end.

End Matcher.

(** The result of [RegExp.prototype.exec]: where the match starts, the
    captures, the code unit before the end of the match and the input
    after the match. *)
Record result : Type := mkResult {
  index : nat;
  groups : list jsstring;
  lastChar : option char;
  after : jsstring
}.

(** The leftmost match at or after the current position. *)
Fixpoint execFrom (r : re) (idx : nat) (prev : option char) (s : jsstring)
    : option result :=
  orTry
    (rmatch r prev s [] (fun prev' s' caps => Some (mkResult idx caps prev' s')))
    match s with
    | [] => None
    | c :: s' => execFrom r (S idx) (Some c) s'
    end.

(** [s.match(r)] for a pattern without the [g] flag. *)
Definition exec (r : re) (s : jsstring) : option result :=
  execFrom r 0 None s.

(** [match[i]] for [i >= 1]. *)
Definition group (i : nat) (m : result) : jsstring := nth (pred i) (groups m) [].

(** [[...s.matchAll(r)]] for a pattern with the [g] flag whose matches are
    never empty: the search resumes where the last match ended. Every round
    consumes at least one code unit, so [S (length s)] rounds exhaust the
    input. *)
Fixpoint matchAllFuel (fuel : nat) (r : re) (prev : option char)
    (s : jsstring) : list result :=
  match fuel with
  | O => []
  | S f =>
      match execFrom r 0 prev s with
      | None => []
      | Some m => m :: matchAllFuel f r (lastChar m) (after m)
      end
  end.

Definition matchAll (r : re) (s : jsstring) : list result :=
  matchAllFuel (S (List.length s)) r None s.

(** Pattern builders. *)
Definition isChr (a : ascii) : char -> bool := fun c => N.eqb c (N_of_ascii a).
Arguments isChr a%_char.

Definition anyChar : char -> bool := fun _ => true.              (* [\s\S] *)
Definition dot : char -> bool := fun c => negb (isLineTerminator c). (* . *)

(** An ASCII letter under the [i] flag (without [u]): canonicalization
    never maps a code unit above 127 to an ASCII one, so the letter matches
    exactly its two ASCII cases. *)
Definition isCI (a : ascii) : char -> bool :=
  fun c => N.eqb (if (N.leb 65 c && N.leb c 90)%N then (c + 32)%N else c)
                 (N_of_ascii a).
Arguments isCI a%_char.

Fixpoint seqOf (rs : list re) : re :=
  match rs with
  | [] => Eps
  | [r] => r
  | r :: rs' => Seq r (seqOf rs')
  end.

Definition word (f : ascii -> char -> bool) (s : string) : re :=
  seqOf (map (fun a => Cls (f a)) (list_ascii_of_string s)).
Arguments word f s%_string.

Definition plus (p : char -> bool) : re := Seq (Cls p) (Star p).

End Regex.

Import Regex.

(* ================================================================= *)
(** ** Frontmatter ([src/utils/frontmatter.ts], and the identical local
    copy in [src/validator/index.ts]) *)

Module Frontmatter.

(** [Record<string, string>] filled by assignment and read by key: an
    association list where an assignment replaces an earlier one. The keys
    read by the sources ("name", "description", "globs", "applyTo",
    "alwaysApply") are not properties of [Object.prototype]. *)
Definition fieldMap := list (jsstring * jsstring).

Fixpoint setField (k v : jsstring) (m : fieldMap) : fieldMap :=
  match m with
  | [] => [(k, v)]
  | (k', v') :: m' =>
      if JS.eqb k' k then (k, v) :: m' else (k', v') :: setField k v m'
  end.

Fixpoint getField (m : fieldMap) (k : jsstring) : option jsstring :=
  match m with
  | [] => None
  | (k', v') :: m' => if JS.eqb k' k then Some v' else getField m' k
  end.

Record FrontmatterResult : Type := mkFrontmatter {
  found : bool;
  fields : fieldMap;
  body : jsstring
}.

(** The pattern of [parseFrontmatter], token by token:
    [^  ---  \r?  \n  ( [\s\S]*? )  \r?  \n  ---  \r?  \n?  ( [\s\S]* )  $] *)
Definition frontmatterRe : re :=
  seqOf [ Bol false; word isChr "---"; Opt (Cls (N.eqb CR)); Cls (N.eqb LF);
          Grp (StarLazy anyChar);
          Opt (Cls (N.eqb CR)); Cls (N.eqb LF); word isChr "---";
          Opt (Cls (N.eqb CR)); Opt (Cls (N.eqb LF));
          Grp (Star anyChar); Eol false ].

Definition parseLine (fields : fieldMap) (line : jsstring) : fieldMap :=
  match indexOf (chr ":") line with
  | Some colonIdx =>
      if 0 <? colonIdx then
        let key := trim (sliceTo colonIdx line) in
        let value := trim (sliceFrom (colonIdx + 1) line) in
        setField key value fields
      else fields
  | None => fields
  end.

Definition parseFrontmatter (content : jsstring) : FrontmatterResult :=
  match exec frontmatterRe content with
  | None => mkFrontmatter false [] content
  | Some m =>
      let fields := fold_left parseLine (splitLines (group 1 m)) [] in
      mkFrontmatter true fields (group 2 m)
  end.

(** [content.split(/\r?\n/)[0]]: the first line of the content. *)
Definition firstLine (content : jsstring) : jsstring :=
  hd [] (splitLines content).

End Frontmatter.

Import Frontmatter.


(* ================================================================= *)
(** ** Shared types ([src/types/index.ts]) *)

Module Types.

Inductive ToolTarget : Type :=
| claude | cursor | codex | copilot | windsurf | gemini | amp.

Definition ToolTarget_eqb (a b : ToolTarget) : bool :=
  match a, b with
  | claude, claude | cursor, cursor | codex, codex | copilot, copilot
  | windsurf, windsurf | gemini, gemini | amp, amp => true
  | _, _ => false
  end.

Record ExistingConfig : Type := mkConfig {
  tool : ToolTarget;
  filePath : jsstring;
  sizeBytes : N;
  content : option jsstring;
  isValid : bool;
  issues : list jsstring
}.

(** [config.content ?? ""] *)
Definition contentOf (config : ExistingConfig) : jsstring :=
  match content config with Some c => c | None => [] end.

Definition DQ : char := 34%N.        (* the double quote *)
Definition EMDASH : char := 8212%N.  (* U+2014 *)

End Types.

Import Types.

(* ================================================================= *)
(** ** Glob patterns of an artifact ([extractGlobPatterns], the same text
    in [src/validator/index.ts] and [src/pruner/index.ts]) and the
    filesystem collaborators *)

Module Globs.

(** The pattern of [applyTo.replace], token by token:
    [^  "  ( .* )  "  $] *)
Definition quotedRe : re :=
  seqOf [ Bol false; Cls (N.eqb DQ); Grp (Star dot); Cls (N.eqb DQ); Eol false ].

(** [s.replace(quotedRe, "$1")] *)
Definition unquote (s : jsstring) : jsstring :=
  match exec quotedRe s with
  | Some m => firstn (index m) s ++ group 1 m ++ after m
  | None => s
  end.

Definition isComma : char -> bool := fun c => N.eqb c (chr ",").

Definition extractGlobPatterns (config : ExistingConfig) : list jsstring :=
  let content := contentOf config in
  let fm := parseFrontmatter content in
  if negb (found fm) then []
  else
    let patterns := [] in
    let patterns :=
      match getField (fields fm) (lit "globs") with
      | Some globs =>
          if truthy globs then patterns ++ map trim (splitOn isComma globs)
          else patterns
      | None => patterns
      end in
    let patterns :=
      match getField (fields fm) (lit "applyTo") with
      | Some field =>
          if truthy field then
            let applyTo := unquote field in
            patterns ++ map trim (splitOn isComma applyTo)
          else patterns
      | None => patterns
      end in
    filterTruthy patterns.

(** [pattern === "**/*" || pattern === "**"] *)
Definition isUniversal (pattern : jsstring) : bool :=
  JS.eqb pattern (lit "**/*") || JS.eqb pattern (lit "**").

End Globs.

Import Globs.

(* ================================================================= *)
(** ** Validator: glob liveness ([src/validator/index.ts]) *)

Module Validator.

Inductive Severity : Type := error | warning.

Record ValidationIssue : Type := mkIssue {
  tool : ToolTarget;
  file : jsstring;
  severity : Severity;
  message : jsstring;
  fix_ : option jsstring  (* the field [fix] *)
}.

(** *** Per-tool format validators *)

Definition validateClaudeConfig (config : ExistingConfig) : list ValidationIssue :=
  let issues := [] in
  let content := contentOf config in
  let normalized := slashes (filePath config) in
  if includes normalized (lit ".claude/agents/") then
    let fm := parseFrontmatter content in
    if negb (found fm) then
      issues ++ [mkIssue claude (filePath config) error
                   (lit "Claude agent file missing YAML frontmatter (---)")
                   (Some (lit "Add frontmatter with `name` and `description` fields"))]
    else
      let issues :=
        if falsy (getField (fields fm) (lit "name")) then
          issues ++ [mkIssue claude (filePath config) error
                       (lit "Claude agent frontmatter missing `name` field")
                       (Some (lit "Add `name: Your Agent Name` to frontmatter"))]
        else issues in
      if falsy (getField (fields fm) (lit "description")) then
        issues ++ [mkIssue claude (filePath config) warning
                     (lit "Claude agent frontmatter missing `description` field")
                     (Some (lit "Add `description: What this agent does` to frontmatter"))]
      else issues
  else issues.

(** [fm.fields["alwaysApply"] !== "true"] *)
Definition notTrue (o : option jsstring) : bool :=
  match o with Some v => negb (JS.eqb v (lit "true")) | None => true end.

Definition validateCursorConfig (config : ExistingConfig) : list ValidationIssue :=
  let issues := [] in
  let content := contentOf config in
  if endsWith (filePath config) (lit ".mdc") then
    let fm := parseFrontmatter content in
    if negb (found fm) then
      issues ++ [mkIssue cursor (filePath config) error
                   (lit "Cursor .mdc file missing YAML frontmatter (---)")
                   (Some (lit "Add frontmatter with `description`, `globs`, and `alwaysApply` fields"))]
    else
      let issues :=
        if falsy (getField (fields fm) (lit "description")) then
          issues ++ [mkIssue cursor (filePath config) warning
                       (lit "Cursor .mdc frontmatter missing `description` field")
                       (Some (lit "Add `description: What this rule does`"))]
        else issues in
      if falsy (getField (fields fm) (lit "globs"))
         && notTrue (getField (fields fm) (lit "alwaysApply")) then
        issues ++ [mkIssue cursor (filePath config) warning
                     (lit "Cursor .mdc frontmatter missing `globs` field and `alwaysApply` is not true")
                     (Some (lit "Add `globs: **/*.ts` or set `alwaysApply: true`"))]
      else issues
  else issues.

(** *** Glob liveness *)

Section GlobLiveness.

(** [path.isAbsolute], [path.join] and [glob(p, { nodir: true, dot: true })]
    of the platform; [glob] answers [None] when it throws. The project tree
    does not change during one analysis, so [glob] is a function. *)
Variable isAbsolute : jsstring -> bool.
Variable pathJoin : jsstring -> jsstring -> jsstring.
Variable glob : jsstring -> option (list jsstring).

(** [pattern.includes("..") || path.isAbsolute(pattern)] *)
Definition isUnsafe (pattern : jsstring) : bool :=
  includes pattern (lit "..") || isAbsolute pattern.

Definition traversalIssue (config : ExistingConfig) (pattern : jsstring) :=
  mkIssue (Types.tool config) (filePath config) error
    (lit "Glob pattern " ++ [DQ] ++ pattern ++ [DQ]
       ++ lit " contains path traversal or absolute path")
    (Some (lit "Use relative patterns within the project (e.g., src/**/*.ts)")).

Definition deadIssue (config : ExistingConfig) (pattern : jsstring) :=
  mkIssue (Types.tool config) (filePath config) warning
    (lit "Glob pattern " ++ [DQ] ++ pattern ++ [DQ]
       ++ lit " matches 0 files in the project")
    (Some (lit "Update the pattern to match actual project files, or remove if no longer needed")).

Definition invalidIssue (config : ExistingConfig) (pattern : jsstring) :=
  mkIssue (Types.tool config) (filePath config) warning
    (lit "Invalid glob pattern: " ++ [DQ] ++ pattern ++ [DQ])
    (Some (lit "Fix the glob syntax")).

(** The state of the loop of [validateGlobPatterns]: the issues pushed so
    far and the patterns handed to [glob] so far. *)
Definition globState : Type := (list ValidationIssue * list jsstring)%type.

(** One iteration of the loop over the patterns. *)
Definition checkPattern (config : ExistingConfig) (projectRoot : jsstring)
    (st : globState) (pattern : jsstring) : globState :=
  let (issues, resolved) := st in
  if isUniversal pattern then st
  else if isUnsafe pattern then
    (issues ++ [traversalIssue config pattern], resolved)
  else
    let fullPattern := slashes (pathJoin projectRoot pattern) in
    match glob fullPattern with
    | Some matches =>
        if Nat.eqb (List.length matches) 0
        then (issues ++ [deadIssue config pattern], resolved ++ [fullPattern])
        else (issues, resolved ++ [fullPattern])
    | None =>
        (issues ++ [invalidIssue config pattern], resolved ++ [fullPattern])
    end.

Definition validateGlobPatternsTraced (config : ExistingConfig)
    (projectRoot : jsstring) : globState :=
  fold_left (checkPattern config projectRoot) (extractGlobPatterns config) ([], []).

Definition validateGlobPatterns (config : ExistingConfig)
    (projectRoot : jsstring) : list ValidationIssue :=
  fst (validateGlobPatternsTraced config projectRoot).

End GlobLiveness.

End Validator.

(* ================================================================= *)
(** ** Prune analyzer ([src/pruner/index.ts]) *)

Module Pruner.

Inductive Reason : Type := dead_globs | empty_content.

Record PruneTarget : Type := mkTarget {
  tool : ToolTarget;
  file : jsstring;
  reason : Reason;
  message : jsstring;
  sizeBytes : N
}.

(** [body.replace(/\s/g, "")] of the body after the frontmatter. *)
Definition meaningful (config : ExistingConfig) : jsstring :=
  let content := contentOf config in
  let fm := parseFrontmatter content in
  let body := if found fm then body fm else content in
  stripSpace body.

Definition checkEmptyContent (config : ExistingConfig) : option PruneTarget :=
  let meaningful := meaningful config in
  if List.length meaningful <? 10 then
    Some (mkTarget (Types.tool config) (filePath config) empty_content
            (lit "Config has " ++ ofNat (List.length meaningful)
               ++ lit " chars of content (effectively empty)")
            (Types.sizeBytes config))
  else None.

Section DeadGlobs.

Variable isAbsolute : jsstring -> bool.
Variable pathJoin : jsstring -> jsstring -> jsstring.
Variable glob : jsstring -> option (list jsstring).

(** One iteration of the counting loop of [checkDeadGlobs]: the matches
    counted so far and the patterns handed to [glob] so far. *)
Definition countPattern (projectRoot : jsstring)
    (st : nat * list jsstring) (pattern : jsstring) : nat * list jsstring :=
  let (totalMatches, resolved) := st in
  if includes pattern (lit "..") || isAbsolute pattern then st
  else
    let fullPattern := slashes (pathJoin projectRoot pattern) in
    match glob fullPattern with
    | Some matches => (totalMatches + List.length matches, resolved ++ [fullPattern])
    | None => (totalMatches, resolved ++ [fullPattern])
    end.

(** The result of [checkDeadGlobs] and the patterns it handed to [glob]. *)
Definition checkDeadGlobs (config : ExistingConfig) (projectRoot : jsstring)
    : option PruneTarget * list jsstring :=
  let patterns := extractGlobPatterns config in
  if Nat.eqb (List.length patterns) 0 then (None, [])
  else
    let specificPatterns := filter (fun p => negb (isUniversal p)) patterns in
    if Nat.eqb (List.length specificPatterns) 0 then (None, [])
    else
      let (totalMatches, resolved) :=
        fold_left (countPattern projectRoot) specificPatterns (0, []) in
      if Nat.eqb totalMatches 0 then
        (Some (mkTarget (Types.tool config) (filePath config) dead_globs
                 (lit "All glob patterns match 0 files: "
                    ++ join (lit ", ") specificPatterns)
                 (Types.sizeBytes config)),
         resolved)
      else (None, resolved).

(** One iteration of the loop of [findPruneTargets]: the targets pushed
    for one config and the patterns handed to [glob] for it. *)
Definition pruneConfig (projectRoot : jsstring) (config : ExistingConfig)
    : list PruneTarget * list jsstring :=
  match checkEmptyContent config with
  | Some emptyResult => ([emptyResult], [])
  | None =>
      match checkDeadGlobs config projectRoot with
      | (Some deadGlobResult, resolved) => ([deadGlobResult], resolved)
      | (None, resolved) => ([], resolved)
      end
  end.

Record PruneResult : Type := mkPruneResult {
  configsScanned : nat;
  pruneTargets : list PruneTarget
}.

(** [findPruneTargets] over the configs that [scanExistingConfigs] found. *)
Definition findPruneTargets (configs : list ExistingConfig)
    (projectRoot : jsstring) : PruneResult :=
  mkPruneResult (List.length configs)
    (fold_left (fun acc config => acc ++ fst (pruneConfig projectRoot config))
               configs []).

End DeadGlobs.

End Pruner.


(* ================================================================= *)
(** ** Conflict analyzer ([src/fixer/index.ts]) *)

Module Fixer.

Record ParsedAgent : Type := mkAgent {
  tool : ToolTarget;
  file : jsstring;
  name : jsstring;
  description : jsstring;
  triggers : list jsstring
}.

Inductive IssueType : Type := overlap | vague | duplicate.
Inductive Severity : Type := error | warning.

Record FixIssue : Type := mkFixIssue {
  type : IssueType;
  severity : Severity;
  agents : list jsstring;
  message : jsstring;
  suggestion : option jsstring
}.

(** *** Agent extraction *)

Definition isAgentFile (config : ExistingConfig) : bool :=
  let p := slashes (filePath config) in
  includes p (lit ".claude/agents/")
  || endsWith p (lit ".agent.md")
  || (JS.eqb p (lit "AGENTS.md")
      && (ToolTarget_eqb (Types.tool config) codex
          || ToolTarget_eqb (Types.tool config) amp
          || ToolTarget_eqb (Types.tool config) cursor)).

(** The pattern of [extractNameFromHeading], with the [m] flag:
    [^  #  \s+  ( .+ )  $] *)
Definition headingRe : re :=
  seqOf [ Bol true; Cls (isChr "#"); plus isSpace; Grp (plus dot); Eol true ].

(** [match?.[1]?.trim() || ""] *)
Definition extractNameFromHeading (content : jsstring) : jsstring :=
  match exec headingRe content with
  | Some m => orElse (trim (group 1 m)) []
  | None => []
  end.

Definition isParagraph (trimmed : jsstring) : bool :=
  truthy trimmed
  && negb (startsWith trimmed (lit "#"))
  && negb (startsWith trimmed (lit "-"))
  && negb (startsWith trimmed (lit "*")).

Definition extractFirstParagraph (body : jsstring) : jsstring :=
  match find isParagraph (map trim (splitLines body)) with
  | Some trimmed => trimmed
  | None => []
  end.

(** The pattern of [extractTriggersFromBody], with the [g] flag:
    [\*\*  ( [^*]+ )  \*\*] *)
Definition boldRe : re :=
  seqOf [ Cls (isChr "*"); Cls (isChr "*");
          Grp (plus (fun c => negb (isChr "*" c)));
          Cls (isChr "*"); Cls (isChr "*") ].

(** The pattern of [extractTriggers], with the [i] flag:
    [(?: trigger s? | when to activate )  [:\s]*  ( .+ )] *)
Definition triggersRe : re :=
  seqOf [ Alt (Seq (word isCI "trigger") (Opt (Cls (isCI "s"))))
              (word isCI "when to activate");
          Star (fun c => isChr ":" c || isSpace c);
          Grp (plus dot) ].

Section Lowercase.

(** [String.prototype.toLowerCase] of the platform. *)
Variable toLowerCase : jsstring -> jsstring.

Definition extractTriggersFromBody (body : jsstring) : list jsstring :=
  let boldWords := map (fun m => trim (toLowerCase (group 1 m))) (matchAll boldRe body) in
  filter (fun w => (2 <? List.length w) && (List.length w <? 30)) boldWords.

Definition extractTriggers (content : jsstring) : list jsstring :=
  match exec triggersRe content with
  | Some triggersMatch =>
      filterTruthy
        (map (fun t => toLowerCase (trim t))
             (splitOn (fun c => isChr "," c || isChr ";" c) (group 1 triggersMatch)))
  | None => extractTriggersFromBody content
  end.

(** [null] is [None]. *)
Definition parseAgentFromFile (config : ExistingConfig) : option ParsedAgent :=
  let content := contentOf config in
  let fm := parseFrontmatter content in
  let name :=
    optOr (getField (fields fm) (lit "name"))
          (orElse (extractNameFromHeading content) (filePath config)) in
  let description :=
    optOr (getField (fields fm) (lit "description"))
          (extractFirstParagraph (body fm)) in
  let triggers := extractTriggers content in
  if negb (truthy name) && negb (truthy description) then None
  else Some (mkAgent (Types.tool config) (filePath config) name description triggers).

End Lowercase.

(** *** Detection rules *)

(** The elements of [new Set(xs)], in insertion order: every value once,
    at the place of its first occurrence. *)
Fixpoint distinct {A : Type} (eqb : A -> A -> bool) (xs : list A) : list A :=
  match xs with
  | [] => []
  | x :: xs' => x :: filter (fun y => negb (eqb y x)) (distinct eqb xs')
  end.

Definition setOf (xs : list jsstring) : list jsstring := distinct JS.eqb xs.

(** [new Set(xs).size] *)
Definition setSize (xs : list jsstring) : nat := List.length (setOf xs).

(** [shared.length / minSize > 0.5], a division of two array lengths: both
    are below 2^32, so the quotient of the doubles is above one half exactly
    when the quotient of the integers is. *)
Definition ratioAboveHalf (shared minSize : nat) : bool :=
  negb (Qle_bool (Z.of_nat shared # Pos.of_nat minSize)%Q (1 # 2)%Q).

Definition overlapIssue (a b : ParsedAgent) (shared : list jsstring) : FixIssue :=
  mkFixIssue overlap warning [file a; file b]
    ([DQ] ++ name a ++ [DQ] ++ lit " and " ++ [DQ] ++ name b ++ [DQ]
       ++ lit " share " ++ ofNat (List.length shared)
       ++ lit " trigger words: " ++ join (lit ", ") shared)
    (Some (lit "Differentiate triggers so each agent has a unique activation pattern")).

(** The triggers of [a] that [setB] has: [a.triggers.filter(t => setB.has(t))]. *)
Definition sharedTriggers (a b : ParsedAgent) : list jsstring :=
  filter (fun t => mem t (setOf (triggers b))) (triggers a).

(** The body of the inner loop, for the records at [i] and [j > i]. *)
Definition overlapPair (a b : ParsedAgent) : list FixIssue :=
  if Nat.eqb (List.length (triggers a)) 0 || Nat.eqb (List.length (triggers b)) 0
  then []
  else
    let shared := sharedTriggers a b in
    let minSize := Nat.min (setSize (triggers a)) (setSize (triggers b)) in
    if (0 <? minSize) && ratioAboveHalf (List.length shared) minSize
    then [overlapIssue a b shared]
    else [].

(** The two nested loops: [i] over the records, [j] over the later ones. *)
Fixpoint detectOverlaps (agents : list ParsedAgent) : list FixIssue :=
  match agents with
  | [] => []
  | a :: later => flat_map (overlapPair a) later ++ detectOverlaps later
  end.

Section Duplicates.

Variable toLowerCase : jsstring -> jsstring.

(** [Map<string, ParsedAgent[]>]: the keys keep the order of their first
    insertion, and [set] on a present key replaces its value in place. *)
Definition nameMap := list (jsstring * list ParsedAgent).

Fixpoint mapGet (m : nameMap) (key : jsstring) : option (list ParsedAgent) :=
  match m with
  | [] => None
  | (k, v) :: m' => if JS.eqb k key then Some v else mapGet m' key
  end.

Fixpoint mapSet (m : nameMap) (key : jsstring) (v : list ParsedAgent) : nameMap :=
  match m with
  | [] => [(key, v)]
  | (k, v') :: m' =>
      if JS.eqb k key then (k, v) :: m' else (k, v') :: mapSet m' key v
  end.

(** One iteration of the grouping loop. *)
Definition addAgent (byName : nameMap) (agent : ParsedAgent) : nameMap :=
  let key := toLowerCase (name agent) in
  let existing := match mapGet byName key with Some g => g | None => [] end in
  mapSet byName key (existing ++ [agent]).

Definition groupByName (agents : list ParsedAgent) : nameMap :=
  fold_left addAgent agents [].

(** The tools of a group as a [Set]. *)
Definition toolSet (ts : list ToolTarget) : list ToolTarget :=
  distinct ToolTarget_eqb ts.

Definition duplicateIssue (group : list ParsedAgent) (tools : nat) : FixIssue :=
  mkFixIssue duplicate warning (map file group)
    (lit "Agent " ++ [DQ] ++ match group with a :: _ => name a | [] => [] end ++ [DQ]
       ++ lit " exists in " ++ ofNat tools ++ lit " tools with different descriptions")
    (Some (lit "Align descriptions across tools for consistent routing, or rename to differentiate")).

(** The body of the loop over the groups. *)
Definition checkGroup (group : list ParsedAgent) : list FixIssue :=
  if List.length group <=? 1 then []
  else
    let tools := toolSet (map tool group) in
    if List.length tools <=? 1 then []
    else
      let descriptions := setOf (map description group) in
      if 1 <? List.length descriptions
      then [duplicateIssue group (List.length tools)]
      else [].

Definition detectDuplicates (agents : list ParsedAgent) : list FixIssue :=
  flat_map (fun entry => checkGroup (snd entry)) (groupByName agents).

End Duplicates.

End Fixer.

(* ================================================================= *)
(** ** The snapshot of a scan and the recommendations
    ([src/types/index.ts]) *)

Module LanguageInfo.
Record t : Type := mk {
  name : jsstring;
  version : option jsstring;
  fileCount : N;
  extensions : list jsstring
}.
End LanguageInfo.

Module FrameworkInfo.
Record t : Type := mk {
  name : jsstring;
  version : option jsstring;
  confidence : Z;
  detectedBy : jsstring
}.
End FrameworkInfo.

Module BuildToolInfo.
Record t : Type := mk {
  name : jsstring;
  version : option jsstring;
  configFile : option jsstring
}.
End BuildToolInfo.

Module TestingInfo.
Inductive kind : Type := unit | e2e | integration | component.
Record t : Type := mk {
  name : jsstring;
  type : kind;
  configFile : option jsstring
}.
End TestingInfo.

Module DatabaseInfo.
Record t : Type := mk {
  name : jsstring;
  orm : option jsstring;
  configFile : option jsstring
}.
End DatabaseInfo.

Module DeploymentInfo.
Record t : Type := mk {
  name : jsstring;
  configFile : option jsstring
}.
End DeploymentInfo.

Module StylingInfo.
Record t : Type := mk {
  name : jsstring;
  version : option jsstring
}.
End StylingInfo.

Module LintingInfo.
Record t : Type := mk {
  name : jsstring;
  configFile : option jsstring
}.
End LintingInfo.

Module Scan.

Inductive PackageManager : Type :=
| npm | yarn | pnpm | bun | pip | cargo | unknown.

Record TechStack : Type := mkTechStack {
  languages : list LanguageInfo.t;
  frameworks : list FrameworkInfo.t;
  buildTools : list BuildToolInfo.t;
  testing : list TestingInfo.t;
  database : list DatabaseInfo.t;
  deployment : list DeploymentInfo.t;
  styling : list StylingInfo.t;
  linting : list LintingInfo.t;
  packageManager : PackageManager
}.

Record FileTreeAnalysis : Type := mkFileTree {
  totalFiles : N;
  totalDirs : N;
  filesByExtension : list (jsstring * N);
  topLevelDirs : list jsstring;
  hasMonorepo : bool;
  monorepoPackages : option (list jsstring);
  significantPaths : list jsstring
}.

Record ScanResult : Type := mkScan {
  projectName : jsstring;
  projectRoot : jsstring;
  techStack : TechStack;
  fileTree : FileTreeAnalysis;
  existingConfigs : list ExistingConfig;
  scanDuration : N
}.

End Scan.

Import Scan.

Module AgentCategory.
Inductive t : Type :=
| review | testing | database | security | ui | api | devops | docs | perf
| general.
End AgentCategory.

Module AgentRecommendation.
Record t : Type := mk {
  id : jsstring;
  name : jsstring;
  description : jsstring;
  confidence : Z;
  reason : jsstring;
  triggers : list jsstring;
  capabilities : list jsstring;
  relevantFiles : list jsstring;
  estimatedTokens : nat;
  category : AgentCategory.t
}.
End AgentRecommendation.

Inductive Priority : Type := high | medium | low.

Definition Priority_eqb (a b : Priority) : bool :=
  match a, b with
  | high, high | medium, medium | low, low => true
  | _, _ => false
  end.

Module RuleRecommendation.
Record t : Type := mk {
  id : jsstring;
  title : jsstring;
  content : jsstring;
  priority : Priority;
  reason : jsstring;
  appliesTo : list jsstring;
  category : jsstring
}.
End RuleRecommendation.

Module SkippedAgent.
Record t : Type := mk {
  id : jsstring;
  name : jsstring;
  reason : jsstring
}.
End SkippedAgent.

Record RecommendationResult : Type := mkRecommendationResult {
  agents : list AgentRecommendation.t;
  rules : list RuleRecommendation.t;
  skippedAgents : list SkippedAgent.t;
  totalTokensSaved : Z;
  recommendationDuration : N
}.

(* ================================================================= *)
(** ** Token estimation ([src/utils/tokens.ts]) *)

Definition CHARS_PER_TOKEN : nat := 4.

(** [Math.ceil(text.length / CHARS_PER_TOKEN)] *)
Definition estimateTokens (text : jsstring) : nat :=
  (List.length text + (CHARS_PER_TOKEN - 1)) / CHARS_PER_TOKEN.

(* ================================================================= *)
(** ** Functions that may throw *)

Module Result.

(** The outcome of a call: a value, or the value thrown. *)
Inductive t (A : Type) : Type :=
| Ok (a : A)
| Throw (e : jsstring).
Arguments Ok {A} a.
Arguments Throw {A} e.

Definition bind {A B} (m : t A) (f : A -> t B) : t B :=
  match m with
  | Ok a => f a
  | Throw e => Throw e
  end.

End Result.

Import Result.

Notation "x <- m ;; k" := (Result.bind m (fun x => k))
  (at level 61, m at next level, right associativity).

(* ================================================================= *)
(** ** Agent recommender ([src/recommender/agent-recommender.ts]) *)

Module AgentDetails.
(** What [generate] returns: an [AgentRecommendation] without [id], [name],
    [confidence], [category] and [estimatedTokens]. *)
Record t : Type := mk {
  description : jsstring;
  reason : jsstring;
  triggers : list jsstring;
  capabilities : list jsstring;
  relevantFiles : list jsstring
}.
End AgentDetails.

Module AgentTemplate.
Record t : Type := mk {
  id : jsstring;
  name : jsstring;
  category : AgentCategory.t;
  shouldRecommend : ScanResult -> Result.t Z;
  generate : ScanResult -> Result.t AgentDetails.t
}.
End AgentTemplate.

Module Recommender.

Definition frameworkNames (scan : ScanResult) : list jsstring :=
  map FrameworkInfo.name (frameworks (techStack scan)).

(** [frameworks.some((f) => names.includes(f.name))] *)
Definition someFramework (scan : ScanResult) (names : list jsstring) : bool :=
  existsb (fun f => mem (FrameworkInfo.name f) names) (frameworks (techStack scan)).

(** [frameworks.find((f) => names.includes(f.name))?.name || fallback] *)
Definition findFrameworkName (scan : ScanResult) (names : list jsstring)
    (fallback : jsstring) : jsstring :=
  match find (fun f => mem (FrameworkInfo.name f) names) (frameworks (techStack scan)) with
  | Some f => orElse (FrameworkInfo.name f) fallback
  | None => fallback
  end.

Definition codeReviewer : AgentTemplate.t :=
  AgentTemplate.mk (lit "code-reviewer") (lit "Code Reviewer") AgentCategory.review
    (fun _ => Ok 90%Z)
    (fun scan =>
       let langs := join (lit ", ") (map LanguageInfo.name (languages (techStack scan))) in
       let frameworks := join (lit ", ") (frameworkNames scan) in
       Ok (AgentDetails.mk
         (lit "Review code for " ++ langs ++ lit " best practices"
            ++ (if truthy frameworks then lit ", " ++ frameworks ++ lit " patterns" else [])
            ++ lit ", and common bugs. Focus on readability, maintainability, and type safety.")
         (lit "Core languages: " ++ langs ++ lit ". Code review catches bugs before they ship.")
         [lit "review"; lit "check code"; lit "PR review"; lit "code quality"; lit "refactor"]
         [lit "Identify anti-patterns and code smells";
          lit "Suggest performance improvements";
          lit "Check type safety and error handling";
          lit "Enforce consistent coding style"]
         (flat_map (fun l => map (fun e => lit "**/*" ++ e) (LanguageInfo.extensions l))
                   (languages (techStack scan))))).

Definition testWriter : AgentTemplate.t :=
  AgentTemplate.mk (lit "test-writer") (lit "Test Writer") AgentCategory.testing
    (fun scan =>
       if 0 <? List.length (testing (techStack scan)) then Ok 88%Z
       else if 0 <? List.length (frameworks (techStack scan)) then Ok 70%Z
       else Ok 50%Z)
    (fun scan =>
       let testTools := map TestingInfo.name (testing (techStack scan)) in
       let testFramework :=
         if 0 <? List.length testTools then join (lit " + ") testTools
         else lit "your testing framework" in
       Ok (AgentDetails.mk
         (lit "Write and update tests using " ++ testFramework
            ++ lit ". Generate unit tests, integration tests, and test fixtures following existing test patterns.")
         (lit "Testing tools detected: "
            ++ orElse (join (lit ", ") testTools) (lit "none (recommendation for quality)"))
         [lit "write test"; lit "add tests"; lit "test coverage"; lit "unit test";
          lit "integration test"; lit "fix test"]
         [lit "Generate " ++ join (lit "/") testTools ++ lit " test files";
          lit "Create test fixtures and mocks";
          lit "Improve test coverage for uncovered code";
          lit "Fix failing tests"]
         [lit "**/*.test.*"; lit "**/*.spec.*"; lit "**/__tests__/**"; lit "**/tests/**"])).

Definition dbExpert : AgentTemplate.t :=
  AgentTemplate.mk (lit "db-expert") (lit "Database Expert") AgentCategory.database
    (fun scan =>
       if 0 <? List.length (database (techStack scan)) then Ok 85%Z
       else if mem (lit "Database migrations") (significantPaths (fileTree scan)) then Ok 80%Z
       else Ok 0%Z)
    (fun scan =>
       let dbs := map DatabaseInfo.name (database (techStack scan)) in
       Ok (AgentDetails.mk
         (lit "Manage database schema, migrations, and queries using " ++ join (lit ", ") dbs
            ++ lit ". Optimize queries, handle migrations safely, and maintain data integrity.")
         (lit "Database tools detected: " ++ join (lit ", ") dbs)
         [lit "migration"; lit "schema"; lit "query"; lit "database"; lit "db"; lit "seed"; lit "index"]
         [lit "Create and modify " ++ join (lit "/") dbs ++ lit " schemas";
          lit "Generate safe migrations";
          lit "Optimize slow queries";
          lit "Create seed data and fixtures"]
         [lit "**/prisma/**"; lit "**/drizzle/**"; lit "**/migrations/**"; lit "**/seeds/**"; lit "**/*.sql"])).

Definition securityAuditor : AgentTemplate.t :=
  AgentTemplate.mk (lit "security-auditor") (lit "Security Auditor") AgentCategory.security
    (fun scan =>
       let hasApi := someFramework scan
         [lit "Express"; lit "Fastify"; lit "Hono"; lit "Next.js"; lit "Nuxt"; lit "Remix"; lit "Astro"] in
       if hasApi then Ok 78%Z else Ok 45%Z)
    (fun scan =>
       let frameworks := frameworkNames scan in
       Ok (AgentDetails.mk
         (lit "Audit code for security vulnerabilities specific to " ++ join (lit ", ") frameworks
            ++ lit ". Check for XSS, CSRF, injection attacks, auth bypass, insecure dependencies, and exposed secrets.")
         (lit "Web framework detected: " ++ join (lit ", ") frameworks ++ lit ". Security review is critical.")
         [lit "security"; lit "vulnerability"; lit "XSS"; lit "CSRF"; lit "injection"; lit "auth"; lit "CVE"; lit "secrets"]
         [lit "Scan for OWASP Top 10 vulnerabilities";
          lit "Check authentication and authorization flows";
          lit "Detect hardcoded secrets and API keys";
          lit "Review dependency security advisories"]
         [lit "**/*.ts"; lit "**/*.js"; lit "**/.env*"; lit "**/auth/**"; lit "**/api/**"])).

Definition componentDesigner : AgentTemplate.t :=
  AgentTemplate.mk (lit "component-designer") (lit "Component Designer") AgentCategory.ui
    (fun scan =>
       let hasFrontend := someFramework scan
         [lit "React"; lit "Vue"; lit "Svelte"; lit "Angular"; lit "Next.js"; lit "Nuxt";
          lit "SvelteKit"; lit "Remix"; lit "Astro"] in
       let hasStyling := 0 <? List.length (styling (techStack scan)) in
       if hasFrontend && hasStyling then Ok 82%Z
       else if hasFrontend then Ok 68%Z
       else Ok 0%Z)
    (fun scan =>
       let framework fallback :=
         findFrameworkName scan [lit "React"; lit "Vue"; lit "Svelte"; lit "Angular"] fallback in
       let styling := map StylingInfo.name (styling (techStack scan)) in
       Ok (AgentDetails.mk
         (lit "Design and build " ++ framework (lit "UI") ++ lit " components using "
            ++ orElse (join (lit " + ") styling) (lit "CSS")
            ++ lit ". Create accessible, responsive, and reusable components following project conventions.")
         (lit "Frontend: " ++ framework (lit "detected") ++ lit ", Styling: "
            ++ orElse (join (lit ", ") styling) (lit "detected"))
         [lit "component"; lit "UI"; lit "design"; lit "layout"; lit "responsive"; lit "accessible"; lit "style"]
         [lit "Build " ++ framework (lit "UI") ++ lit " components";
          lit "Style with " ++ orElse (join (lit "/") styling) (lit "CSS");
          lit "Ensure WCAG accessibility compliance";
          lit "Create responsive layouts"]
         [lit "**/*.tsx"; lit "**/*.jsx"; lit "**/*.vue"; lit "**/*.svelte"; lit "**/*.css"])).

Definition apiDeveloper : AgentTemplate.t :=
  AgentTemplate.mk (lit "api-developer") (lit "API Developer") AgentCategory.api
    (fun scan =>
       let hasBackend := someFramework scan
         [lit "Express"; lit "Fastify"; lit "Hono"; lit "Next.js"; lit "Nuxt"; lit "Remix"] in
       if hasBackend then Ok 80%Z else Ok 0%Z)
    (fun scan =>
       let backend fallback :=
         findFrameworkName scan [lit "Express"; lit "Fastify"; lit "Hono"; lit "Next.js"] fallback in
       Ok (AgentDetails.mk
         (lit "Build and maintain API endpoints using " ++ backend (lit "your framework")
            ++ lit ". Design RESTful or GraphQL APIs with proper validation, error handling, and documentation.")
         (lit "Backend framework: " ++ backend (lit "detected"))
         [lit "API"; lit "endpoint"; lit "route"; lit "handler"; lit "REST"; lit "GraphQL"; lit "middleware"]
         [lit "Design API endpoints with proper HTTP methods";
          lit "Implement request validation and error handling";
          lit "Generate API documentation";
          lit "Create middleware and guards"]
         [lit "**/api/**"; lit "**/routes/**"; lit "**/handlers/**"; lit "**/middleware/**"])).

Definition devopsHelper : AgentTemplate.t :=
  AgentTemplate.mk (lit "devops-helper") (lit "DevOps Helper") AgentCategory.devops
    (fun scan =>
       if 0 <? List.length (deployment (techStack scan)) then Ok 72%Z else Ok 0%Z)
    (fun scan =>
       let tools := map DeploymentInfo.name (deployment (techStack scan)) in
       Ok (AgentDetails.mk
         (lit "Manage CI/CD pipelines, Docker configurations, and deployment using "
            ++ join (lit ", ") tools
            ++ lit ". Optimize build times, configure environments, and handle infrastructure as code.")
         (lit "Deployment tools: " ++ join (lit ", ") tools)
         [lit "deploy"; lit "CI/CD"; lit "pipeline"; lit "Docker"; lit "build"; lit "release"; lit "environment"]
         [lit "Configure " ++ join (lit "/") tools ++ lit " pipelines";
          lit "Optimize Docker builds";
          lit "Manage environment variables";
          lit "Set up deployment workflows"]
         [lit ".github/workflows/**"; lit "**/Dockerfile*"; lit "**/docker-compose*";
          lit "**/terraform/**"; lit "**/*.yaml"])).

Definition perfOptimizer : AgentTemplate.t :=
  AgentTemplate.mk (lit "perf-optimizer") (lit "Performance Optimizer") AgentCategory.perf
    (fun scan =>
       let hasFrontend := someFramework scan
         [lit "React"; lit "Next.js"; lit "Vue"; lit "Nuxt"; lit "Svelte"; lit "SvelteKit"] in
       if hasFrontend && (50 <? totalFiles (fileTree scan))%N then Ok 65%Z else Ok 0%Z)
    (fun scan =>
       let framework fallback :=
         match frameworks (techStack scan) with
         | f :: _ => orElse (FrameworkInfo.name f) fallback
         | [] => fallback
         end in
       Ok (AgentDetails.mk
         (lit "Optimize performance for " ++ framework (lit "your app")
            ++ lit ". Analyze bundle size, identify render bottlenecks, optimize images, and improve Core Web Vitals.")
         (framework (lit "Frontend") ++ lit " app with " ++ ofN (totalFiles (fileTree scan))
            ++ lit " files " ++ [EMDASH] ++ lit " performance matters at scale.")
         [lit "performance"; lit "slow"; lit "optimize"; lit "bundle"; lit "lazy load"; lit "cache"; lit "Core Web Vitals"]
         [lit "Identify and fix render bottlenecks";
          lit "Optimize bundle size and code splitting";
          lit "Improve Core Web Vitals scores";
          lit "Set up caching strategies"]
         [lit "**/*.tsx"; lit "**/*.jsx"; lit "**/next.config.*"; lit "**/vite.config.*"])).

Definition docsWriter : AgentTemplate.t :=
  AgentTemplate.mk (lit "docs-writer") (lit "Documentation Writer") AgentCategory.docs
    (fun scan =>
       if (30 <? totalFiles (fileTree scan))%N then Ok 55%Z else Ok 30%Z)
    (fun scan =>
       Ok (AgentDetails.mk
         (lit "Write and maintain project documentation including README, API docs, guides, and inline code comments. Follow the project's existing documentation style.")
         (lit "Project has " ++ ofN (totalFiles (fileTree scan))
            ++ lit " files " ++ [EMDASH] ++ lit " documentation helps onboarding.")
         [lit "document"; lit "README"; lit "docs"; lit "comment"; lit "explain"; lit "guide"; lit "API docs"]
         [lit "Generate comprehensive README files";
          lit "Write API documentation";
          lit "Add JSDoc/TSDoc comments to code";
          lit "Create onboarding guides"]
         [lit "**/*.md"; lit "**/docs/**"; lit "README*"])).

Definition AGENT_TEMPLATES : list AgentTemplate.t :=
  [ codeReviewer; testWriter; dbExpert; securityAuditor; componentDesigner;
    apiDeveloper; devopsHelper; perfOptimizer; docsWriter ].

(** The recommendation pushed for a template that passed the threshold. *)
Definition recommendation (template : AgentTemplate.t) (confidence : Z)
    (details : AgentDetails.t) : AgentRecommendation.t :=
  AgentRecommendation.mk
    (AgentTemplate.id template)
    (AgentTemplate.name template)
    (AgentDetails.description details)
    confidence
    (AgentDetails.reason details)
    (AgentDetails.triggers details)
    (AgentDetails.capabilities details)
    (AgentDetails.relevantFiles details)
    (estimateTokens (AgentDetails.description details
                       ++ join (lit " ") (AgentDetails.capabilities details)))
    (AgentTemplate.category template).

(** The loop over the templates, with the array built so far. A call that
    throws ends the loop: the function has no handler. *)
Fixpoint collect (scan : ScanResult) (templates : list AgentTemplate.t)
    (recommendations : list AgentRecommendation.t)
    : Result.t (list AgentRecommendation.t) :=
  match templates with
  | [] => Ok recommendations
  | template :: rest =>
      confidence <- AgentTemplate.shouldRecommend template scan ;;
      if (confidence <? 40)%Z then collect scan rest recommendations
      else
        details <- AgentTemplate.generate template scan ;;
        collect scan rest
          (recommendations ++ [recommendation template confidence details])
  end.

(** The comparator [(a, b) => b.confidence - a.confidence]. *)
Definition byConfidence (a b : AgentRecommendation.t) : Z :=
  (AgentRecommendation.confidence b - AgentRecommendation.confidence a)%Z.

(** [Array.prototype.sort] with a comparator is a stable sort (ECMAScript
    2019): for a consistent comparator its result is the one of this
    insertion sort, which puts an element before the first later element
    that does not have to precede it. *)
Fixpoint insertSorted {A} (cmp : A -> A -> Z) (x : A) (l : list A) : list A :=
  match l with
  | [] => [x]
  | y :: l' => if (cmp x y <=? 0)%Z then x :: l else y :: insertSorted cmp x l'
  end.

Fixpoint sortBy {A} (cmp : A -> A -> Z) (l : list A) : list A :=
  match l with
  | [] => []
  | x :: l' => insertSorted cmp x (sortBy cmp l')
  end.

(** [recommendAgents] over a catalog of templates. *)
Definition recommendAgentsFrom (templates : list AgentTemplate.t)
    (scan : ScanResult) : Result.t (list AgentRecommendation.t) :=
  recommendations <- collect scan templates [] ;;
  Ok (sortBy byConfidence recommendations).

Definition recommendAgents (scan : ScanResult)
    : Result.t (list AgentRecommendation.t) :=
  recommendAgentsFrom AGENT_TEMPLATES scan.

End Recommender.

(* ================================================================= *)
(** ** Windsurf adapter ([src/adapters/windsurf-adapter.ts]) *)

Module Windsurf.

Record GeneratedFile : Type := mkFile {
  path : jsstring;
  content : jsstring;
  description : jsstring;
  sizeBytes : nat
}.

Inductive SizeUnit : Type := tokens | chars | bytes.

Record AdapterOutput : Type := mkOutput {
  tool : ToolTarget;
  files : list GeneratedFile;
  totalSize : N;
  sizeUnit : SizeUnit;
  warnings : list jsstring
}.

Definition WINDSURF_CHAR_LIMIT : N := 6000.

Definition generateWindsurfRules (scan : ScanResult) (rec : RecommendationResult)
    : GeneratedFile :=
  let lines := [lit "# " ++ projectName scan; []] in
  let techs :=
    map FrameworkInfo.name (frameworks (techStack scan))
    ++ map LanguageInfo.name (firstn 2 (languages (techStack scan))) in
  let lines := lines ++ [lit "Stack: " ++ join (lit ", ") techs; []] in
  let highPriority :=
    filter (fun r => Priority_eqb (RuleRecommendation.priority r) high) (rules rec) in
  let lines :=
    lines ++ flat_map (fun rule => [RuleRecommendation.content rule; []]) highPriority in
  let lines :=
    if 0 <? List.length (agents rec) then
      lines ++ [lit "## Roles"]
        ++ map (fun agent =>
                  lit "- **" ++ AgentRecommendation.name agent ++ lit "**: "
                    ++ sliceTo 120 (AgentRecommendation.description agent))
               (firstn 5 (agents rec))
    else lines in
  let content := join [LF] lines in
  mkFile (lit ".windsurfrules") content
    (lit "Project rules for Windsurf (Cascade)")
    (byteLength content).

(** The marker appended to truncated content. *)
Definition TRUNCATION_MARKER : jsstring :=
  [LF; LF] ++ lit "<!-- Truncated by dotti to fit 6k char limit -->".

Definition limitWarning (length : N) : jsstring :=
  lit "Content is " ++ ofN length ++ lit " chars " ++ [EMDASH]
    ++ lit " exceeds Windsurf's " ++ ofN WINDSURF_CHAR_LIMIT ++ lit " char limit. "
    ++ lit "Truncating to fit. Consider using fewer rules.".

(** The size-enforcement step of [generate]: the file as it is after the
    [if], and the warnings pushed by it. *)
Definition enforceLimit (rulesFile : GeneratedFile) : GeneratedFile * list jsstring :=
  if (WINDSURF_CHAR_LIMIT <? len (content rulesFile))%N then
    let truncated :=
      sliceTo (N.to_nat (WINDSURF_CHAR_LIMIT - 50)) (content rulesFile)
        ++ TRUNCATION_MARKER in
    (mkFile (path rulesFile) truncated (description rulesFile) (byteLength truncated),
     [limitWarning (len (content rulesFile))])
  else (rulesFile, []).

(** [files] holds the very object that the enforcement step rewrites. *)
Definition generate (scan : ScanResult) (recommendations : RecommendationResult)
    : AdapterOutput :=
  let rulesFile := generateWindsurfRules scan recommendations in
  let (rulesFile, warnings) := enforceLimit rulesFile in
  mkOutput windsurf [rulesFile] (len (content rulesFile)) chars warnings.

End Windsurf.

(* ================================================================= *)
(** ** Rule recommender ([src/recommender/rule-recommender.ts]) *)

Module RuleDetails.
(** What [generate] returns for a rule. *)
Record t : Type := mk {
  content : jsstring;
  appliesTo : list jsstring
}.
End RuleDetails.

Module RuleTemplate.
Record t : Type := mk {
  id : jsstring;
  title : jsstring;
  category : jsstring;
  priority : Priority;
  shouldRecommend : ScanResult -> bool;
  generate : ScanResult -> RuleDetails.t
}.
End RuleTemplate.

Module RuleRecommender.

Import Recommender.

(** A line of the sources that holds one em dash. *)
Definition dashed (before after : jsstring) : jsstring :=
  before ++ [EMDASH] ++ after.

Definition typescriptStrict : RuleTemplate.t :=
  RuleTemplate.mk (lit "typescript-strict") (lit "TypeScript Strict Mode Conventions")
    (lit "language") high
    (fun scan =>
       existsb (fun l => JS.eqb (LanguageInfo.name l) (lit "TypeScript"))
               (languages (techStack scan)))
    (fun _ =>
       RuleDetails.mk
         (join [LF]
            [ lit "## TypeScript Conventions";
              lit "- Use strict TypeScript (`strict: true` in tsconfig)";
              lit "- Prefer `interface` over `type` for object shapes that may be extended";
              dashed (lit "- Use `unknown` instead of `any` ")
                     (lit " narrow types with type guards");
              lit "- Always define return types for exported functions";
              lit "- Use `readonly` for properties that shouldn't be mutated";
              lit "- Prefer `const` assertions for literal types";
              lit "- Use discriminated unions for state management";
              dashed (lit "- Never use `@ts-ignore` ")
                     (lit " use `@ts-expect-error` with explanation") ])
         [lit "**/*.ts"; lit "**/*.tsx"]).

Definition reactPatterns : RuleTemplate.t :=
  RuleTemplate.mk (lit "react-patterns") (lit "React Component Patterns")
    (lit "framework") high
    (fun scan =>
       existsb (fun f => JS.eqb (FrameworkInfo.name f) (lit "React")
                         || JS.eqb (FrameworkInfo.name f) (lit "Next.js"))
               (frameworks (techStack scan)))
    (fun scan =>
       let hasNextjs :=
         existsb (fun f => JS.eqb (FrameworkInfo.name f) (lit "Next.js"))
                 (frameworks (techStack scan)) in
       let lines :=
         [ lit "## React Component Patterns";
           lit "- Use functional components with hooks (no class components)";
           lit "- Extract custom hooks for reusable stateful logic";
           lit "- Co-locate component, tests, and styles in the same directory";
           lit "- Use `React.memo()` only when profiling shows re-render issues";
           dashed (lit "- Prefer composition over prop drilling ")
                  (lit " use context sparingly");
           lit "- Name event handlers as `handleAction` (e.g., `handleSubmit`, `handleClick`)";
           dashed (lit "- Keep components under 200 lines ")
                  (lit " extract sub-components if larger") ] in
       let lines :=
         if hasNextjs then
           lines ++
             [ lit "- Use Server Components by default, add 'use client' only when needed";
               lit "- Prefer server actions for mutations";
               lit "- Use Next.js Image component for all images";
               lit "- Implement loading.tsx and error.tsx for each route segment" ]
         else lines in
       RuleDetails.mk (join [LF] lines) [lit "**/*.tsx"; lit "**/*.jsx"]).

Definition testingConventions : RuleTemplate.t :=
  RuleTemplate.mk (lit "testing-conventions") (lit "Testing Conventions")
    (lit "testing") high
    (fun scan => 0 <? List.length (testing (techStack scan)))
    (fun scan =>
       let testFramework :=
         match testing (techStack scan) with
         | t :: _ => orElse (TestingInfo.name t) (lit "test framework")
         | [] => lit "test framework"
         end in
       RuleDetails.mk
         (join [LF]
            [ lit "## Testing Conventions";
              lit "- Write tests using " ++ testFramework;
              lit "- Follow AAA pattern: Arrange, Act, Assert";
              lit "- Name test files as `*.test.ts` (unit) or `*.spec.ts` (integration)";
              dashed (lit "- Each test should test ONE behavior ")
                     (lit " keep tests focused");
              lit "- Use descriptive test names: `it('should reject invalid email format')`";
              lit "- Mock external services, never hit real APIs in tests";
              lit "- Aim for >80% coverage on business logic, don't test implementation details";
              lit "- Create shared test fixtures in `tests/fixtures/` directory" ])
         [lit "**/*.test.*"; lit "**/*.spec.*"; lit "**/__tests__/**"]).

Definition gitConventions : RuleTemplate.t :=
  RuleTemplate.mk (lit "git-conventions") (lit "Git & PR Conventions")
    (lit "workflow") medium
    (fun _ => true)
    (fun _ =>
       RuleDetails.mk
         (join [LF]
            [ lit "## Git Conventions";
              lit "- Use conventional commits: `feat:`, `fix:`, `chore:`, `docs:`, `refactor:`, `test:`";
              dashed (lit "- Keep commits atomic ")
                     (lit " one logical change per commit");
              lit "- Write meaningful commit messages that explain WHY, not just WHAT";
              dashed (lit "- Create feature branches from `main` ")
                     (lit " never commit directly to `main`");
              lit "- Keep PRs focused and under 400 lines when possible" ])
         [lit "**/*"]).

Definition errorHandling : RuleTemplate.t :=
  RuleTemplate.mk (lit "error-handling") (lit "Error Handling Patterns")
    (lit "quality") medium
    (fun scan =>
       someFramework scan
         [lit "Express"; lit "Fastify"; lit "Hono"; lit "Next.js"; lit "Nuxt"; lit "Remix"])
    (fun _ =>
       RuleDetails.mk
         (join [LF]
            [ lit "## Error Handling";
              lit "- Use typed error classes for different error categories";
              dashed (lit "- Always handle promise rejections ")
                     (lit " no unhandled promises");
              lit "- Return meaningful error messages to API consumers";
              lit "- Log errors with context (request ID, user ID, stack trace)";
              dashed (lit "- Never expose internal errors to users ")
                     (lit " map to safe error responses");
              lit "- Use try/catch at API boundaries, not around every function" ])
         [lit "**/*.ts"; lit "**/*.js"]).

Definition prismaConventions : RuleTemplate.t :=
  RuleTemplate.mk (lit "prisma-conventions") (lit "Prisma Workflow")
    (lit "database") high
    (fun scan =>
       existsb (fun d => JS.eqb (DatabaseInfo.name d) (lit "Prisma"))
               (database (techStack scan)))
    (fun _ =>
       RuleDetails.mk
         (join [LF]
            [ lit "## Prisma Conventions";
              lit "- Run `npx prisma generate` after any schema change";
              lit "- Use `npx prisma migrate dev` for development migrations";
              lit "- Never edit migration files after they've been applied";
              lit "- Use `@map` and `@@map` to keep DB column names snake_case";
              lit "- Define indexes for frequently queried fields";
              lit "- Use Prisma Client extensions for reusable query logic";
              lit "- Always use transactions for multi-step mutations" ])
         [lit "**/prisma/**"; lit "**/*.prisma"]).

Definition tailwindConventions : RuleTemplate.t :=
  RuleTemplate.mk (lit "tailwind-conventions") (lit "Tailwind CSS Patterns")
    (lit "styling") medium
    (fun scan =>
       existsb (fun s => JS.eqb (StylingInfo.name s) (lit "Tailwind CSS"))
               (styling (techStack scan)))
    (fun scan =>
       let hasShadcn :=
         existsb (fun s => JS.eqb (StylingInfo.name s) (lit "shadcn/ui"))
                 (styling (techStack scan)) in
       let lines :=
         [ lit "## Tailwind CSS Conventions";
           dashed (lit "- Use Tailwind utility classes ")
                  (lit " avoid custom CSS unless absolutely necessary");
           lit "- Extract repeated class combinations into components, not @apply";
           lit "- Use `cn()` utility for conditional class merging";
           lit "- Follow mobile-first responsive design (sm:, md:, lg:)";
           lit "- Use design tokens via tailwind.config for colors and spacing" ] in
       let lines :=
         if hasShadcn then
           lines ++
             [ dashed (lit "- Use shadcn/ui components as the base ")
                      (lit " customize via variants");
               lit "- Follow shadcn/ui patterns for new components";
               lit "- Install new shadcn components with `npx shadcn-ui add <component>`" ]
         else lines in
       RuleDetails.mk (join [LF] lines) [lit "**/*.tsx"; lit "**/*.jsx"; lit "**/*.css"]).

Definition projectStructure : RuleTemplate.t :=
  RuleTemplate.mk (lit "project-structure") (lit "Project Structure")
    (lit "architecture") medium
    (fun scan => (20 <? totalFiles (fileTree scan))%N)
    (fun scan =>
       let dirs :=
         filter (fun d => negb (mem d [lit "node_modules"; lit ".git"; lit "dist";
                                       lit "build"; lit ".next"]))
                (topLevelDirs (fileTree scan)) in
       RuleDetails.mk
         (join [LF]
            (filterTruthy
               [ lit "## Project Structure";
                 lit "Top-level directories: " ++ join (lit ", ") dirs;
                 [];
                 lit "- Keep related files together (co-location over separation by type)";
                 lit "- Use barrel exports (index.ts) for clean imports";
                 lit "- Shared utilities go in `src/lib/` or `src/utils/`";
                 lit "- Business logic goes in `src/services/` or domain directories";
                 lit "- This is a "
                   ++ (if hasMonorepo (fileTree scan) then lit "monorepo"
                       else lit "single-package")
                   ++ lit " project";
                 if hasMonorepo (fileTree scan) then
                   lit "- Monorepo packages: "
                     ++ orElse
                          (match monorepoPackages (fileTree scan) with
                           | Some packages => join (lit ", ") packages
                           | None => []
                           end)
                          (lit "detected")
                 else [] ]))
         [lit "**/*"]).

Definition RULE_TEMPLATES : list RuleTemplate.t :=
  [ typescriptStrict; reactPatterns; testingConventions; gitConventions;
    errorHandling; prismaConventions; tailwindConventions; projectStructure ].

(** The recommendation pushed for a template whose predicate holds. *)
Definition ruleOf (scan : ScanResult) (template : RuleTemplate.t)
    : RuleRecommendation.t :=
  let details := RuleTemplate.generate template scan in
  RuleRecommendation.mk
    (RuleTemplate.id template)
    (RuleTemplate.title template)
    (RuleDetails.content details)
    (RuleTemplate.priority template)
    (lit "Detected: " ++ RuleTemplate.category template)
    (RuleDetails.appliesTo details)
    (RuleTemplate.category template).

(** The loop of [recommendRules] over a catalog. *)
Definition recommendRulesFrom (templates : list RuleTemplate.t) (scan : ScanResult)
    : list RuleRecommendation.t :=
  fold_left
    (fun recommendations template =>
       if negb (RuleTemplate.shouldRecommend template scan) then recommendations
       else recommendations ++ [ruleOf scan template])
    templates [].

Definition recommendRules (scan : ScanResult) : list RuleRecommendation.t :=
  recommendRulesFrom RULE_TEMPLATES scan.

End RuleRecommender.

(* ================================================================= *)
(** ** Claude adapter ([src/adapters/claude-adapter.ts]) *)

Module ClaudeAdapter.

Import Windsurf.

(** [`${t.type}`] *)
Definition kindName (k : TestingInfo.kind) : jsstring :=
  match k with
  | TestingInfo.unit => lit "unit"
  | TestingInfo.e2e => lit "e2e"
  | TestingInfo.integration => lit "integration"
  | TestingInfo.component => lit "component"
  end.

(** [`${x.name}${x.version ? ` ${x.version}` : ""}`] *)
Definition versioned (name : jsstring) (version : option jsstring) : jsstring :=
  name ++ match version with
          | Some v => if truthy v then lit " " ++ v else []
          | None => []
          end.

Definition generateClaudeMd (scan : ScanResult) (rec : RecommendationResult)
    : GeneratedFile :=
  let lines := [lit "# " ++ projectName scan; []] in
  let lines := lines ++ [lit "## Tech Stack"] in
  let lines :=
    lines ++ map (fun lang =>
                    lit "- **" ++ LanguageInfo.name lang ++ lit "** ("
                      ++ ofN (LanguageInfo.fileCount lang) ++ lit " files)")
                 (firstn 3 (languages (techStack scan))) in
  let lines :=
    lines ++ map (fun fw => lit "- " ++ versioned (FrameworkInfo.name fw) (FrameworkInfo.version fw))
                 (frameworks (techStack scan)) in
  let lines :=
    lines ++ map (fun bt => lit "- " ++ versioned (BuildToolInfo.name bt) (BuildToolInfo.version bt))
                 (buildTools (techStack scan)) in
  let lines :=
    lines ++ map (fun t => lit "- " ++ TestingInfo.name t ++ lit " ("
                             ++ kindName (TestingInfo.type t) ++ lit " testing)")
                 (testing (techStack scan)) in
  let lines :=
    lines ++ map (fun db => lit "- " ++ DatabaseInfo.name db) (database (techStack scan)) in
  let lines :=
    lines ++ map (fun s => lit "- " ++ StylingInfo.name s) (styling (techStack scan)) in
  let lines := lines ++ [[]] in
  let lines :=
    if 0 <? List.length (rules rec) then
      lines ++ flat_map (fun rule => [RuleRecommendation.content rule; []]) (rules rec)
    else lines in
  let lines :=
    if hasMonorepo (fileTree scan) then
      lines ++ [ lit "## Monorepo Structure";
                 lit "This is a monorepo with packages: "
                   ++ orElse (match monorepoPackages (fileTree scan) with
                              | Some packages => join (lit ", ") packages
                              | None => []
                              end)
                             (lit "multiple");
                 [] ]
    else lines in
  let content := join [LF] lines in
  mkFile (lit "CLAUDE.md") content
    (lit "Project context and coding conventions for Claude Code")
    (byteLength content).

Definition generateAgentFile (agent : AgentRecommendation.t) : GeneratedFile :=
  let lines :=
    [ lit "---";
      lit "name: " ++ AgentRecommendation.name agent;
      lit "description: " ++ AgentRecommendation.description agent;
      lit "---";
      [];
      lit "# " ++ AgentRecommendation.name agent;
      [];
      AgentRecommendation.description agent;
      [];
      lit "## Capabilities" ] in
  let lines :=
    lines ++ map (fun cap => lit "- " ++ cap) (AgentRecommendation.capabilities agent) in
  let lines := lines ++ [[]] in
  let lines :=
    lines ++ [ lit "## When to activate";
               lit "Activate this agent when the user mentions: "
                 ++ join (lit ", ") (AgentRecommendation.triggers agent);
               [] ] in
  let lines :=
    if 0 <? List.length (AgentRecommendation.relevantFiles agent) then
      lines ++ [ lit "## Relevant files";
                 lit "Focus on: " ++ join (lit ", ") (AgentRecommendation.relevantFiles agent) ]
    else lines in
  let content := join [LF] lines in
  let fileName := AgentRecommendation.id agent ++ lit ".md" in
  mkFile (lit ".claude/agents/" ++ fileName) content
    (AgentRecommendation.name agent ++ lit " agent for Claude Code")
    (byteLength content).

Definition generate (scan : ScanResult) (recommendations : RecommendationResult)
    : AdapterOutput :=
  let files := [generateClaudeMd scan recommendations] in
  let files := files ++ map generateAgentFile (agents recommendations) in
  let totalSize := fold_left (fun sum f => sum + sizeBytes f) files 0 in
  mkOutput claude files (N.of_nat totalSize) tokens [].

End ClaudeAdapter.

(* ================================================================= *)
(** ** Cursor adapter ([src/adapters/cursor-adapter.ts]) *)

Module CursorAdapter.

Import Windsurf.

Definition generateMdcFile (rule : RuleRecommendation.t) : GeneratedFile :=
  let lines :=
    [ lit "---";
      lit "description: " ++ RuleRecommendation.title rule;
      lit "globs: " ++ join (lit ", ") (RuleRecommendation.appliesTo rule);
      lit "alwaysApply: "
        ++ (if Priority_eqb (RuleRecommendation.priority rule) high
            then lit "true" else lit "false");
      lit "---";
      [];
      RuleRecommendation.content rule ] in
  let content := join [LF] lines in
  let fileName := RuleRecommendation.id rule ++ lit ".mdc" in
  mkFile (lit ".cursor/rules/" ++ fileName) content
    (RuleRecommendation.title rule ++ lit " rule for Cursor")
    (byteLength content).

Definition generateAgentsMd (scan : ScanResult) (rec : RecommendationResult)
    : GeneratedFile :=
  let lines :=
    [ lit "# " ++ projectName scan ++ lit " " ++ [EMDASH] ++ lit " Agent Instructions"; [] ] in
  let lines :=
    lines ++ flat_map
               (fun agent =>
                  [ lit "## " ++ AgentRecommendation.name agent;
                    AgentRecommendation.description agent;
                    [];
                    lit "**Triggers:** " ++ join (lit ", ") (AgentRecommendation.triggers agent);
                    [] ])
               (agents rec) in
  let content := join [LF] lines in
  mkFile (lit "AGENTS.md") content (lit "Agent instructions for Cursor")
    (byteLength content).

Definition generate (scan : ScanResult) (recommendations : RecommendationResult)
    : AdapterOutput :=
  let files := map generateMdcFile (rules recommendations) in
  let files :=
    if 0 <? List.length (agents recommendations)
    then files ++ [generateAgentsMd scan recommendations]
    else files in
  let totalSize := fold_left (fun sum f => (sum + len (content f))%N) files 0%N in
  mkOutput cursor files totalSize chars [].

End CursorAdapter.

(* ================================================================= *)
(** ** Copilot adapter ([src/adapters/copilot-adapter.ts]) *)

Module CopilotAdapter.

Import Windsurf.

Definition generateMainInstructions (scan : ScanResult) (rec : RecommendationResult)
    : GeneratedFile :=
  let lines :=
    [ lit "# Copilot Instructions " ++ [EMDASH] ++ lit " " ++ projectName scan; [] ] in
  let techs :=
    map FrameworkInfo.name (frameworks (techStack scan))
    ++ map LanguageInfo.name (firstn 3 (languages (techStack scan))) in
  let lines := lines ++ [lit "This project uses: " ++ join (lit ", ") techs; []] in
  let lines :=
    lines ++ flat_map (fun rule => [RuleRecommendation.content rule; []])
               (filter (fun r => Priority_eqb (RuleRecommendation.priority r) high)
                       (rules rec)) in
  let content := join [LF] lines in
  mkFile (lit ".github/copilot-instructions.md") content
    (lit "Repo-wide instructions for GitHub Copilot")
    (byteLength content).

Definition generateInstructionFile (rule : RuleRecommendation.t) : GeneratedFile :=
  let lines :=
    [ lit "---";
      lit "applyTo: " ++ [DQ] ++ join (lit ", ") (RuleRecommendation.appliesTo rule) ++ [DQ];
      lit "---";
      [];
      RuleRecommendation.content rule ] in
  let content := join [LF] lines in
  mkFile (lit ".github/instructions/" ++ RuleRecommendation.id rule ++ lit ".instructions.md")
    content
    (RuleRecommendation.title rule ++ lit " instructions for Copilot")
    (byteLength content).

Definition generateAgentFile (agent : AgentRecommendation.t) : GeneratedFile :=
  let lines :=
    [ lit "---";
      lit "name: " ++ AgentRecommendation.name agent;
      lit "description: " ++ AgentRecommendation.description agent;
      lit "---";
      [];
      lit "# " ++ AgentRecommendation.name agent;
      [];
      AgentRecommendation.description agent;
      [];
      lit "## Capabilities" ] in
  let lines :=
    lines ++ map (fun cap => lit "- " ++ cap) (AgentRecommendation.capabilities agent) in
  let content := join [LF] lines in
  mkFile (lit ".github/agents/" ++ AgentRecommendation.id agent ++ lit ".agent.md")
    content
    (AgentRecommendation.name agent ++ lit " agent for GitHub Copilot")
    (byteLength content).

(** [rule.appliesTo.length > 0 && rule.appliesTo[0] !== "**/*"] *)
Definition hasOwnContext (rule : RuleRecommendation.t) : bool :=
  match RuleRecommendation.appliesTo rule with
  | first :: _ => negb (JS.eqb first (lit "**/*"))
  | [] => false
  end.

Definition generate (scan : ScanResult) (recommendations : RecommendationResult)
    : AdapterOutput :=
  let files := [generateMainInstructions scan recommendations] in
  let files :=
    files ++ map generateInstructionFile (filter hasOwnContext (rules recommendations)) in
  let files :=
    files ++ map generateAgentFile (firstn 5 (agents recommendations)) in
  let totalSize := fold_left (fun sum f => (sum + len (content f))%N) files 0%N in
  let warnings :=
    if (30000 <? totalSize)%N
    then [lit "Total instruction size exceeds Copilot 30k char limit per file."]
    else [] in
  mkOutput copilot files totalSize chars warnings.

End CopilotAdapter.

(* ================================================================= *)
(** ** [String.prototype.split] with a pattern *)

Module RegexSplit.

(** The number of code units a match at the current position takes. *)
Definition matchLength (r : re) (prev : option char) (s : jsstring) : option nat :=
  rmatch r prev s [] (fun _ s' _ => Some (List.length s - List.length s')).

(** The pieces of [s.split(r)] for a pattern without capturing groups, with
    the piece under construction (reversed) and the number of code units of
    the last separator still to pass. A match is tried at every position
    that is not inside a separator and not at the end; an empty match
    closes the piece unless the piece is empty. *)
Fixpoint splitFrom (r : re) (prev : option char) (s : jsstring)
    (piece : jsstring) (skip : nat) : list jsstring :=
  match s with
  | [] => [rev piece]
  | c :: s' =>
      match skip with
      | S n => splitFrom r (Some c) s' piece n
      | O =>
          match matchLength r prev s with
          | Some (S n) => rev piece :: splitFrom r (Some c) s' [] n
          | Some O =>
              match piece with
              | [] => splitFrom r (Some c) s' [c] 0
              | _ => rev piece :: splitFrom r (Some c) s' [c] 0
              end
          | None => splitFrom r (Some c) s' (c :: piece) 0
          end
      end
  end.

Definition split (r : re) (s : jsstring) : list jsstring :=
  splitFrom r None s [] 0.

End RegexSplit.

(* ================================================================= *)
(** ** Conflict analyzer, continued ([src/fixer/index.ts]) *)

Module Analyzer.

Import Fixer.

(** The pattern of the section split of [parseAgentsFromAgentsMd], with
    the [m] flag: [^  #{2,3}  \s+] *)
Definition sectionRe : re :=
  seqOf [ Bol true; Cls (isChr "#"); Cls (isChr "#"); Opt (Cls (isChr "#"));
          plus isSpace ].

Definition STRUCTURAL_HEADINGS : list jsstring :=
  [lit "project overview"; lit "tech stack"; lit "rules"; lit "conventions"].

Definition ACTION_VERBS : list jsstring :=
  [ lit "review"; lit "write"; lit "create"; lit "build"; lit "test"; lit "fix";
    lit "optimize"; lit "design"; lit "manage"; lit "audit"; lit "deploy";
    lit "generate"; lit "analyze"; lit "check"; lit "implement"; lit "refactor";
    lit "debug"; lit "document"; lit "maintain" ].

Section Lowercase.

Variable toLowerCase : jsstring -> jsstring.

(** The body of the loop over the sections: the record of a section, or
    nothing when the loop continues. *)
Definition parseSection (config : ExistingConfig) (section : jsstring)
    : list ParsedAgent :=
  let lines := splitLines section in
  let name := orElse (trim (hd [] lines)) [] in
  if negb (truthy name) then []
  else
    let lowerName := toLowerCase name in
    if existsb (fun s => includes lowerName s) STRUCTURAL_HEADINGS then []
    else
      let body := trim (join [LF] (tl lines)) in
      let description := extractFirstParagraph body in
      let triggers := extractTriggersFromBody toLowerCase body in
      [mkAgent (Types.tool config) (filePath config) name description triggers].

Definition parseAgentsFromAgentsMd (config : ExistingConfig) : list ParsedAgent :=
  let content := contentOf config in
  let sections := tl (RegexSplit.split sectionRe content) in
  flat_map (parseSection config) sections.

Definition shortIssue (agent : ParsedAgent) : FixIssue :=
  mkFixIssue vague warning [file agent]
    ([DQ] ++ name agent ++ [DQ] ++ lit " has a very short description ("
       ++ ofNat (List.length (description agent)) ++ lit " chars)")
    (Some (lit "Expand to 50+ chars describing what the agent does, when to use it, and which technologies it covers")).

Definition verblessIssue (agent : ParsedAgent) : FixIssue :=
  mkFixIssue vague warning [file agent]
    ([DQ] ++ name agent ++ [DQ] ++ lit " description lacks action verbs "
       ++ [EMDASH] ++ lit " may cause poor routing")
    (Some (lit "Start with a verb: " ++ [DQ] ++ lit "Review code for..." ++ [DQ]
             ++ lit ", " ++ [DQ] ++ lit "Write tests using..." ++ [DQ]
             ++ lit ", " ++ [DQ] ++ lit "Build and maintain..." ++ [DQ])).

(** The body of the loop of [detectVagueDescriptions]. *)
Definition checkDescription (agent : ParsedAgent) : list FixIssue :=
  let desc := description agent in
  if List.length desc <? 30 then [shortIssue agent]
  else
    let lowerDesc := toLowerCase desc in
    let hasActionVerb := existsb (fun v => includes lowerDesc v) ACTION_VERBS in
    if negb hasActionVerb then [verblessIssue agent] else [].

Definition detectVagueDescriptions (agents : list ParsedAgent) : list FixIssue :=
  flat_map checkDescription agents.

Record FixResult : Type := mkFixResult {
  agents : list ParsedAgent;
  issues : list FixIssue
}.

(** The body of the loop of [analyzeAgents] over the configs. *)
Definition agentsOf (config : ExistingConfig) : list ParsedAgent :=
  if negb (isAgentFile config) then []
  else if JS.eqb (filePath config) (lit "AGENTS.md")
          || JS.eqb (slashes (filePath config)) (lit "AGENTS.md")
  then parseAgentsFromAgentsMd config
  else match parseAgentFromFile toLowerCase config with
       | Some agent => [agent]
       | None => []
       end.

(** [analyzeAgents] over the configs that [scanExistingConfigs] found. *)
Definition analyzeAgents (configs : list ExistingConfig) : FixResult :=
  let agents := flat_map agentsOf configs in
  mkFixResult agents
    (detectOverlaps agents
       ++ detectVagueDescriptions agents
       ++ detectDuplicates toLowerCase agents).

End Lowercase.

End Analyzer.

(* ================================================================= *)
(** ** Validator, continued ([src/validator/index.ts]) *)

Module Validators.

Import Validator.

(** [TOOL_REGISTRY.codex.maxContextSize], [TOOL_REGISTRY.copilot.maxContextSize]
    and [TOOL_REGISTRY.windsurf.maxContextSize] of [src/types/index.ts]. *)
Definition CODEX_MAX_CONTEXT_SIZE : N := 32768.
Definition COPILOT_MAX_CONTEXT_SIZE : N := 30000.
Definition WINDSURF_MAX_CONTEXT_SIZE : N := 6000.

Definition validateWindsurfConfig (config : ExistingConfig) : list ValidationIssue :=
  let issues := [] in
  let content := contentOf config in
  if JS.eqb (filePath config) (lit ".windsurfrules") then
    let limit := WINDSURF_MAX_CONTEXT_SIZE in
    if (limit <? len content)%N then
      issues ++ [mkIssue windsurf (filePath config) error
                   (lit "File is " ++ ofN (len content) ++ lit " chars " ++ [EMDASH]
                      ++ lit " exceeds Windsurf 6,000 char limit")
                   (Some (lit "Reduce content to fit within 6,000 characters"))]
    else issues
  else issues.

Definition validateGeminiConfig (config : ExistingConfig) : list ValidationIssue :=
  if negb (JS.eqb (filePath config) (lit "GEMINI.md"))
     && endsWith (filePath config) (lit "GEMINI.md")
  then [mkIssue gemini (filePath config) warning
          (lit "Nested GEMINI.md detected " ++ [EMDASH]
             ++ lit " Gemini CLI loads these hierarchically which may cause context duplication")
          None]
  else [].

Section Platform.

(** [(n / 1024).toFixed(1)] and [(n / 1000).toFixed(1)] of the platform. *)
Variable kilobytes : N -> jsstring.
Variable thousands : N -> jsstring.

(** [JSON.parse(content)] followed by the test of [parsed["$schema"]]:
    [None] when one of them throws, else whether the value is truthy. *)
Variable schemaOf : jsstring -> option bool.

Variable isAbsolute : jsstring -> bool.
Variable pathJoin : jsstring -> jsstring -> jsstring.
Variable glob : jsstring -> option (list jsstring).

Definition validateCodexConfig (config : ExistingConfig) : list ValidationIssue :=
  let issues := [] in
  if JS.eqb (filePath config) (lit "AGENTS.md")
     || JS.eqb (filePath config) (lit "AGENTS.override.md")
  then
    let limit := CODEX_MAX_CONTEXT_SIZE in
    if (limit <? Types.sizeBytes config)%N then
      issues ++ [mkIssue codex (filePath config) error
                   (lit "File is " ++ kilobytes (Types.sizeBytes config) ++ lit "KB "
                      ++ [EMDASH] ++ lit " exceeds Codex 32KB limit")
                   (Some (lit "Reduce content or split into subdirectory AGENTS.md files"))]
    else issues
  else issues.

Definition validateCopilotConfig (config : ExistingConfig) : list ValidationIssue :=
  let issues := [] in
  let content := contentOf config in
  let issues :=
    if endsWith (filePath config) (lit ".instructions.md") then
      let fm := parseFrontmatter content in
      if negb (found fm) then
        issues ++ [mkIssue copilot (filePath config) error
                     (lit "Copilot instruction file missing YAML frontmatter")
                     (Some (lit "Add frontmatter with `applyTo: " ++ [DQ] ++ lit "**/*.ts"
                              ++ [DQ] ++ lit "` pattern"))]
      else if falsy (getField (fields fm) (lit "applyTo")) then
        issues ++ [mkIssue copilot (filePath config) warning
                     (lit "Copilot instruction file missing `applyTo` field")
                     (Some (lit "Add `applyTo: " ++ [DQ] ++ lit "**/*.ts" ++ [DQ]
                              ++ lit "` to frontmatter"))]
      else issues
    else issues in
  let issues :=
    if endsWith (filePath config) (lit ".agent.md") then
      let fm := parseFrontmatter content in
      if negb (found fm) then
        issues ++ [mkIssue copilot (filePath config) error
                     (lit "Copilot agent file missing YAML frontmatter")
                     (Some (lit "Add frontmatter with `name` and `description` fields"))]
      else
        let issues :=
          if falsy (getField (fields fm) (lit "name")) then
            issues ++ [mkIssue copilot (filePath config) error
                         (lit "Copilot agent frontmatter missing `name` field") None]
          else issues in
        if falsy (getField (fields fm) (lit "description")) then
          issues ++ [mkIssue copilot (filePath config) warning
                       (lit "Copilot agent frontmatter missing `description` field") None]
        else issues
    else issues in
  let charLimit := COPILOT_MAX_CONTEXT_SIZE in
  if (charLimit <? len content)%N then
    issues ++ [mkIssue copilot (filePath config) error
                 (lit "File is " ++ thousands (len content) ++ lit "k chars " ++ [EMDASH]
                    ++ lit " exceeds Copilot 30k char limit")
                 (Some (lit "Reduce content size or split into multiple instruction files"))]
  else issues.

Definition validateAmpConfig (config : ExistingConfig) : list ValidationIssue :=
  let normalizedPath := slashes (filePath config) in
  if JS.eqb normalizedPath (lit ".amp/settings.json") then
    let content := contentOf config in
    match schemaOf content with
    | Some hasSchema =>
        if negb hasSchema then
          [mkIssue amp (filePath config) warning
             (lit "Amp settings.json missing `$schema` field")
             (Some (lit "Add `" ++ [DQ] ++ lit "$schema" ++ [DQ] ++ lit ": " ++ [DQ]
                      ++ lit "https://amp.dev/schemas/settings.json" ++ [DQ] ++ lit "`"))]
        else []
    | None =>
        [mkIssue amp (filePath config) error
           (lit "Amp settings.json is not valid JSON")
           (Some (lit "Fix JSON syntax errors"))]
    end
  else [].

(** [TOOL_VALIDATORS[config.tool]] applied to the config. *)
Definition toolValidator (config : ExistingConfig) : list ValidationIssue :=
  match Types.tool config with
  | claude => validateClaudeConfig config
  | cursor => validateCursorConfig config
  | codex => validateCodexConfig config
  | copilot => validateCopilotConfig config
  | windsurf => validateWindsurfConfig config
  | gemini => validateGeminiConfig config
  | amp => validateAmpConfig config
  end.

Record ValidationResult : Type := mkValidationResult {
  configsFound : nat;
  configsValid : Z;
  issues : list ValidationIssue;
  warnings : list ValidationIssue
}.

Definition isError (i : ValidationIssue) : bool :=
  match severity i with error => true | warning => false end.

Definition isWarning (i : ValidationIssue) : bool :=
  match severity i with warning => true | error => false end.

(** The issues that one config adds: those of its tool's validator, then
    those of its glob patterns. *)
Definition issuesOf (projectRoot : jsstring) (config : ExistingConfig)
    : list ValidationIssue :=
  toolValidator config
    ++ validateGlobPatterns isAbsolute pathJoin glob config projectRoot.

(** [validateConfigs] over the configs that [scanExistingConfigs] found. *)
Definition validateConfigs (configs : list ExistingConfig) (projectRoot : jsstring)
    : ValidationResult :=
  let allIssues :=
    fold_left (fun all config => all ++ issuesOf projectRoot config) configs [] in
  let errors := filter isError allIssues in
  let warnings := filter isWarning allIssues in
  mkValidationResult
    (List.length configs)
    (Z.of_nat (List.length configs)
       - Z.of_nat (List.length (Fixer.setOf (map file errors))))%Z
    errors
    warnings.

End Platform.

End Validators.
(* ================================================================= *)
(** ** Size limits ([src/utils/tokens.ts]) *)

Module SizeLimit.

Import Windsurf.

(** What [checkSizeLimit] returns; the limit is an integer, as the limits
    of [TOOL_REGISTRY] are. *)
Record SizeCheck : Type := mkSizeCheck {
  fits : bool;
  currentSize : nat;
  maxSize : Z;
  unit : SizeUnit
}.

Definition checkSizeLimit (content : jsstring) (maxSize : Z) (unit : SizeUnit)
    : SizeCheck :=
  let currentSize :=
    match unit with
    | tokens => estimateTokens content
    | chars => List.length content
    | bytes => byteLength content
    end in
  mkSizeCheck (Z.of_nat currentSize <=? maxSize)%Z currentSize maxSize unit.

End SizeLimit.


(* ================================================================= *)
(** * Properties *)

Unset Implicit Arguments.

Module JSFacts.

Lemma eqb_spec (s t : jsstring) : reflect (s = t) (eqb s t).
Proof.
  revert t; induction s as [|c s IH]; intros [|d t]; simpl;
    try (constructor; congruence).
  destruct (N.eqb_spec c d) as [->|Hn]; simpl.
  - destruct (IH t) as [->|Hn]; constructor; congruence.
  - constructor; congruence.
Qed.

Lemma eqb_refl (s : jsstring) : eqb s s = true.
Proof. destruct (eqb_spec s s); congruence. Qed.

Lemma eqb_eq (s t : jsstring) : eqb s t = true <-> s = t.
Proof. destruct (eqb_spec s t); split; congruence. Qed.

Lemma eqb_neq (s t : jsstring) : eqb s t = false <-> s <> t.
Proof. destruct (eqb_spec s t); split; congruence. Qed.

Lemma mem_In (x : jsstring) (xs : list jsstring) : mem x xs = true <-> In x xs.
Proof.
  unfold mem; rewrite existsb_exists; split.
  - intros (y & Hy & He); apply eqb_eq in He; subst; assumption.
  - intros H; exists x; split; [assumption | apply eqb_refl].
Qed.

Lemma ToolTarget_eqb_spec (a b : ToolTarget) : reflect (a = b) (ToolTarget_eqb a b).
Proof. destruct a, b; simpl; constructor; congruence. Qed.

End JSFacts.

Import JSFacts.

(* ================================================================= *)
(** ** The matcher consumes its input *)

Module RegexFacts.

Section Consumes.
Variable A : Type.

Lemma starGreedy_consumes (p : char -> bool) (k : cont A) (x : A) :
  forall s prev caps,
    starGreedy p k prev s caps = Some x ->
    exists prev' s' caps',
      k prev' s' caps' = Some x /\ List.length s' <= List.length s.
Proof.
  induction s as [|c s IH]; intros prev caps; simpl.
  - intros H; exists prev, [], caps; split; [exact H | apply Nat.le_refl].
  - destruct (p c).
    + destruct (starGreedy p k (Some c) s caps) as [y|] eqn:Hs; simpl.
      * intros [= ->]; destruct (IH _ _ Hs) as (prev' & s' & caps' & Hk & Hl).
        exists prev', s', caps'; split; [exact Hk | lia].
      * intros H; exists prev, (c :: s), caps; split; [exact H | apply Nat.le_refl].
    + intros H; exists prev, (c :: s), caps; split; [exact H | apply Nat.le_refl].
Qed.

Lemma starLazy_consumes (p : char -> bool) (k : cont A) (x : A) :
  forall s prev caps,
    starLazy p k prev s caps = Some x ->
    exists prev' s' caps',
      k prev' s' caps' = Some x /\ List.length s' <= List.length s.
Proof.
  induction s as [|c s IH]; intros prev caps; simpl.
  - destruct (k prev [] caps) as [y|] eqn:Hk; simpl; [|discriminate].
    intros [= ->]; exists prev, [], caps; split; [exact Hk | apply Nat.le_refl].
  - destruct (k prev (c :: s) caps) as [y|] eqn:Hk; simpl.
    + intros [= ->]; exists prev, (c :: s), caps; split;
        [exact Hk | apply Nat.le_refl].
    + destruct (p c); [|discriminate].
      intros H; destruct (IH _ _ H) as (prev' & s' & caps' & Hk' & Hl).
      exists prev', s', caps'; split; [exact Hk' | simpl; lia].
Qed.

(** A match hands to its continuation a suffix of its input. *)
Lemma rmatch_consumes (r : re) :
  forall (k : cont A) (x : A) prev s caps,
    rmatch r prev s caps k = Some x ->
    exists prev' s' caps',
      k prev' s' caps' = Some x /\ List.length s' <= List.length s.
Proof.
  induction r as [p|m|m| |r1 IH1 r2 IH2|r1 IH1 r2 IH2|r1 IH1|p|p|r1 IH1];
    intros k x prev s caps; simpl.
  - destruct s as [|c s]; [discriminate|].
    destruct (p c); [|discriminate].
    intros H; exists (Some c), s, caps; split; [exact H | simpl; lia].
  - destruct (atBol m prev); [|discriminate].
    intros H; exists prev, s, caps; split; [exact H | apply Nat.le_refl].
  - destruct (atEol m s); [|discriminate].
    intros H; exists prev, s, caps; split; [exact H | apply Nat.le_refl].
  - intros H; exists prev, s, caps; split; [exact H | apply Nat.le_refl].
  - intros H; destruct (IH1 _ _ _ _ _ H) as (p1 & s1 & c1 & H1 & L1).
    destruct (IH2 _ _ _ _ _ H1) as (p2 & s2 & c2 & H2 & L2).
    exists p2, s2, c2; split; [exact H2 | lia].
  - destruct (rmatch r1 prev s caps k) as [y|] eqn:H1; simpl.
    + intros [= ->]; apply (IH1 _ _ _ _ _ H1).
    + apply IH2.
  - destruct (rmatch r1 prev s caps k) as [y|] eqn:H1; simpl.
    + intros [= ->]; apply (IH1 _ _ _ _ _ H1).
    + intros H; exists prev, s, caps; split; [exact H | apply Nat.le_refl].
  - apply starGreedy_consumes.
  - apply starLazy_consumes.
  - intros H; destruct (IH1 _ _ _ _ _ H) as (p1 & s1 & c1 & H1 & L1).
    exists p1, s1, (c1 ++ [firstn (List.length s - List.length s1) s]).
    split; [exact H1 | exact L1].
Qed.

End Consumes.

(** A match of a pattern that starts with a character is not empty. *)
Lemma execFrom_consumes (p : char -> bool) (r : re) :
  forall s idx prev m,
    execFrom (Seq (Cls p) r) idx prev s = Some m ->
    List.length (after m) < List.length s.
Proof.
  induction s as [|c s IH]; intros idx prev m.
  - simpl; discriminate.
  - cbn [execFrom].
    destruct (rmatch (Seq (Cls p) r) prev (c :: s) []
                (fun prev' s' caps => Some (mkResult idx caps prev' s')))
      as [y|] eqn:Hm; cbn [orTry].
    + intros [= ->]; simpl in Hm.
      destruct (p c); [|discriminate].
      apply rmatch_consumes in Hm.
      destruct Hm as (prev' & s' & caps' & [= <-] & Hl); simpl; lia.
    + intros H; apply IH in H; simpl; lia.
Qed.

(** For such a pattern any fuel above the length of the input gives the
    same matches: [matchAll] does not run short. *)
Lemma matchAllFuel_enough (p : char -> bool) (r : re) :
  forall n s prev fuel1 fuel2,
    List.length s <= n ->
    List.length s < fuel1 -> List.length s < fuel2 ->
    matchAllFuel fuel1 (Seq (Cls p) r) prev s
      = matchAllFuel fuel2 (Seq (Cls p) r) prev s.
Proof.
  induction n as [|n IH]; intros s prev fuel1 fuel2 Hn H1 H2;
    destruct fuel1 as [|f1]; [lia | | lia |];
    destruct fuel2 as [|f2]; try lia; simpl;
    destruct (execFrom (Seq (Cls p) r) 0 prev s) as [m|] eqn:Hm;
    try reflexivity;
    apply execFrom_consumes in Hm.
  - lia.
  - f_equal; apply IH; lia.
Qed.

Lemma matchAll_bold_enough (s : jsstring) (fuel : nat) :
  List.length s < fuel ->
  matchAllFuel fuel Fixer.boldRe None s = matchAll Fixer.boldRe s.
Proof.
  intros H; unfold matchAll.
  apply (matchAllFuel_enough _ _ (List.length s)); lia.
Qed.

End RegexFacts.

(* ================================================================= *)
(** ** The patterns of the sources on sample inputs *)

Module PatternExamples.

Import Fixer.

Example heading_first_level :
  extractNameFromHeading (join [LF] [lit "intro"; lit "#  Code Reviewer  "; lit "## Rules"])
    = lit "Code Reviewer".
Proof. vm_compute; reflexivity. Qed.

Example heading_absent :
  extractNameFromHeading (join [LF] [lit "intro"; lit "## Rules"]) = [].
Proof. vm_compute; reflexivity. Qed.

Example triggers_line :
  extractTriggers asciiLower
    (join [LF] [lit "# Reviewer"; lit "Triggers: Review, PR review; Lint,, "; lit "**bold**"])
    = [lit "review"; lit "pr review"; lit "lint"].
Proof. vm_compute; reflexivity. Qed.

Example triggers_from_bold :
  extractTriggers asciiLower
    (lit "Focus on **Review**, **ab**, ***quality*** and *lint*.")
    = [lit "review"; lit "quality"].
Proof. vm_compute; reflexivity. Qed.

Example first_paragraph :
  extractFirstParagraph (join [LF] [lit ""; lit "# Title"; lit "- item"; lit "  Text here. "; lit "More"])
    = lit "Text here.".
Proof. vm_compute; reflexivity. Qed.

Example unquote_quoted :
  unquote ([DQ] ++ lit "**/*.ts, src/**" ++ [DQ]) = lit "**/*.ts, src/**".
Proof. vm_compute; reflexivity. Qed.

Example unquote_plain : unquote (lit "**/*.ts") = lit "**/*.ts".
Proof. vm_compute; reflexivity. Qed.

End PatternExamples.

(* ================================================================= *)
(** ** Frontmatter *)

Module FrontmatterFacts.

(** The pattern is anchored: it cannot match at a later position. *)
Lemma anchored_later (r : re) (s : jsstring) (idx : nat) (c : char) :
  execFrom (Seq (Bol false) r) idx (Some c) s = None.
Proof.
  revert idx c; induction s as [|d s IH]; intros idx c; simpl.
  - reflexivity.
  - apply IH.
Qed.

Lemma exec_anchored (r : re) (s : jsstring) :
  exec (Seq (Bol false) r) s =
  rmatch r None s [] (fun prev' s' caps => Some (mkResult 0 caps prev' s')).
Proof.
  unfold exec; destruct s as [|c s]; simpl.
  - destruct (rmatch r None [] [] _); reflexivity.
  - rewrite anchored_later.
    destruct (rmatch r None (c :: s) [] _); reflexivity.
Qed.

(** A match of a pattern that starts with [---\r?\n] forces the input to
    start with the delimiter line. *)
Lemma delimiter_open (A : Type) (r : re) (k : cont A) (s : jsstring) (x : A) :
  rmatch (seqOf [word isChr "---"; Opt (Cls (N.eqb CR)); Cls (N.eqb LF); r])
         None s [] k = Some x ->
  exists rest, s = lit "---" ++ [LF] ++ rest \/ s = lit "---" ++ [CR; LF] ++ rest.
Proof.
  unfold isChr; change (N_of_ascii "-") with 45%N.
  destruct s as [|c1 [|c2 [|c3 [|c4 s]]]]; cbn -[N.eqb];
    repeat (match goal with
            | |- context [N.eqb ?a ?b] =>
                destruct (N.eqb_spec a b); try subst; cbn -[N.eqb]
            end);
    try discriminate.
  - destruct s as [|c5 s]; cbn -[N.eqb]; try discriminate.
    destruct (N.eqb_spec LF c5) as [<-|Hlf]; cbn; try discriminate.
    intros _; exists s; right; reflexivity.
  - intros _; exists s; left; reflexivity.
Qed.

Lemma parseFrontmatter_not_found (content : jsstring) :
  firstLine content <> lit "---" ->
  exec frontmatterRe content = None.
Proof.
  intros Hfirst.
  change frontmatterRe with
    (Seq (Bol false)
       (seqOf [ word isChr "---"; Opt (Cls (N.eqb CR)); Cls (N.eqb LF);
                seqOf [ Grp (StarLazy anyChar);
                        Opt (Cls (N.eqb CR)); Cls (N.eqb LF); word isChr "---";
                        Opt (Cls (N.eqb CR)); Opt (Cls (N.eqb LF));
                        Grp (Star anyChar); Eol false ] ])).
  rewrite exec_anchored.
  match goal with |- ?m = None => destruct m as [x|] eqn:Hm end;
    [exfalso | reflexivity].
  apply delimiter_open in Hm.
  destruct Hm as [rest [-> | ->]]; apply Hfirst; reflexivity.
Qed.

(** C9: frontmatter is recognized only at the very start of the content.
    When the first line of the content is not exactly the three-hyphen
    delimiter, [parseFrontmatter] answers [found = false] with no field and
    the entire content as the body; the consumers then treat the file as
    one without frontmatter: no glob pattern is extracted from it, a Claude
    agent file and a Cursor [.mdc] file get the missing-frontmatter error,
    and the prune analyzer measures the whole content. *)
Theorem parseFrontmatter_only_at_start (content : jsstring) :
  firstLine content <> lit "---" ->
  parseFrontmatter content = mkFrontmatter false [] content
  /\ (forall config : ExistingConfig,
        Types.content config = Some content ->
        extractGlobPatterns config = []
        /\ Pruner.meaningful config = stripSpace content
        /\ (includes (slashes (filePath config)) (lit ".claude/agents/") = true ->
            Validator.validateClaudeConfig config =
              [Validator.mkIssue claude (filePath config) Validator.error
                 (lit "Claude agent file missing YAML frontmatter (---)")
                 (Some (lit "Add frontmatter with `name` and `description` fields"))])
        /\ (endsWith (filePath config) (lit ".mdc") = true ->
            Validator.validateCursorConfig config =
              [Validator.mkIssue cursor (filePath config) Validator.error
                 (lit "Cursor .mdc file missing YAML frontmatter (---)")
                 (Some (lit "Add frontmatter with `description`, `globs`, and `alwaysApply` fields"))])).
Proof.
  intros Hfirst.
  assert (Hparse : parseFrontmatter content = mkFrontmatter false [] content).
  { unfold parseFrontmatter; rewrite (parseFrontmatter_not_found content Hfirst);
      reflexivity. }
  split; [exact Hparse|].
  intros config Hc.
  assert (Hcontent : contentOf config = content)
    by (unfold contentOf; rewrite Hc; reflexivity).
  repeat split.
  - unfold extractGlobPatterns; rewrite Hcontent, Hparse; reflexivity.
  - unfold Pruner.meaningful; rewrite Hcontent, Hparse; reflexivity.
  - intros Hp; unfold Validator.validateClaudeConfig.
    rewrite Hp, Hcontent, Hparse; reflexivity.
  - intros Hp; unfold Validator.validateCursorConfig.
    rewrite Hp, Hcontent, Hparse; reflexivity.
Qed.

(** A file whose delimiter comes after one blank line. *)
Definition blankLineFirst : jsstring :=
  join [LF] [ []; lit "---"; lit "name: Code Reviewer"; lit "globs: src/**";
              lit "---"; lit "Review the code." ].

Lemma parseFrontmatter_only_at_start_witness :
  firstLine blankLineFirst <> lit "---"
  /\ parseFrontmatter blankLineFirst = mkFrontmatter false [] blankLineFirst.
Proof.
  assert (H : firstLine blankLineFirst <> lit "---") by (vm_compute; discriminate).
  split; [exact H | exact (proj1 (parseFrontmatter_only_at_start blankLineFirst H))].
Defined.

(** The same file without the blank line has frontmatter. *)
Example parseFrontmatter_at_start :
  parseFrontmatter (skipn 1 blankLineFirst) =
    mkFrontmatter true
      [(lit "name", lit "Code Reviewer"); (lit "globs", lit "src/**")]
      (lit "Review the code.").
Proof. vm_compute; reflexivity. Qed.

End FrontmatterFacts.

(* ================================================================= *)
(** ** The size limit of the Windsurf rules file *)

Module WindsurfFacts.

Import Windsurf.

Lemma marker_length : List.length TRUNCATION_MARKER = 50.
Proof. reflexivity. Qed.

Lemma truncated_length (s : jsstring) :
  (WINDSURF_CHAR_LIMIT < len s)%N ->
  len (sliceTo (N.to_nat (WINDSURF_CHAR_LIMIT - 50)) s ++ TRUNCATION_MARKER)
    = WINDSURF_CHAR_LIMIT.
Proof.
  unfold len, sliceTo, WINDSURF_CHAR_LIMIT; intros H.
  rewrite length_app, length_firstn, marker_length.
  lia.
Qed.

Lemma enforceLimit_within (f : GeneratedFile) :
  (len (content f) <= WINDSURF_CHAR_LIMIT)%N -> enforceLimit f = (f, []).
Proof.
  intros H; unfold enforceLimit.
  destruct (N.ltb_spec WINDSURF_CHAR_LIMIT (len (content f))); [lia | reflexivity].
Qed.

Lemma enforceLimit_over (f : GeneratedFile) :
  (WINDSURF_CHAR_LIMIT < len (content f))%N ->
  enforceLimit f =
    (let truncated :=
       sliceTo (N.to_nat (WINDSURF_CHAR_LIMIT - 50)) (content f) ++ TRUNCATION_MARKER in
     mkFile (path f) truncated (description f) (byteLength truncated),
     [limitWarning (len (content f))]).
Proof.
  intros H; unfold enforceLimit.
  destruct (N.ltb_spec WINDSURF_CHAR_LIMIT (len (content f))); [reflexivity | lia].
Qed.

Lemma enforceLimit_bounded (f : GeneratedFile) :
  (len (content (fst (enforceLimit f))) <= WINDSURF_CHAR_LIMIT)%N.
Proof.
  destruct (N.le_gt_cases (len (content f)) WINDSURF_CHAR_LIMIT) as [H|H].
  - rewrite (enforceLimit_within f H); exact H.
  - rewrite (enforceLimit_over f H); cbn [fst content].
    rewrite (truncated_length (content f) H); apply N.le_refl.
Qed.

(** C2: the size-enforcement step of the Windsurf serializer respects the
    limit and is idempotent. Content of at most 6000 characters is returned
    unchanged and without a warning. Longer content is replaced by its
    first 6000 - 50 characters followed by the fixed marker of 50
    characters, which gives exactly 6000 characters; [sizeBytes] is
    recomputed from the new content and exactly one warning is pushed.
    Applying the step to its own result changes nothing and warns about
    nothing. [generate] returns the enforced file, its length as
    [totalSize] and the warnings of the step. *)
Theorem enforceLimit_idempotent_and_bounded (f : GeneratedFile) :
  ((len (content f) <= 6000)%N -> enforceLimit f = (f, []))
  /\ ((6000 < len (content f))%N ->
      let truncated := firstn (N.to_nat 5950) (content f) ++ TRUNCATION_MARKER in
      enforceLimit f =
        (mkFile (path f) truncated (description f) (byteLength truncated),
         [limitWarning (len (content f))])
      /\ len truncated = 6000%N)
  /\ List.length TRUNCATION_MARKER = 50
  /\ enforceLimit (fst (enforceLimit f)) = (fst (enforceLimit f), [])
  /\ (forall scan rec,
        let out := generate scan rec in
        let enforced := enforceLimit (generateWindsurfRules scan rec) in
        files out = [fst enforced]
        /\ warnings out = snd enforced
        /\ totalSize out = len (content (fst enforced))
        /\ (totalSize out <= 6000)%N).
Proof.
  split; [exact (enforceLimit_within f)|].
  split.
  { intros H; change 5950%N with (WINDSURF_CHAR_LIMIT - 50)%N.
    split; [exact (enforceLimit_over f H) | exact (truncated_length (content f) H)]. }
  split; [exact marker_length|].
  split; [apply enforceLimit_within, enforceLimit_bounded|].
  intros scan rec out enforced; subst out enforced; unfold generate.
  pose proof (enforceLimit_bounded (generateWindsurfRules scan rec)) as Hb.
  destruct (enforceLimit (generateWindsurfRules scan rec)) as [file ws].
  repeat split; exact Hb.
Qed.

(** A rules file of 6001 characters. *)
Definition longRules : GeneratedFile :=
  mkFile (lit ".windsurfrules") (repeat (chr "a") (N.to_nat 6001))
    (lit "Project rules for Windsurf (Cascade)") (N.to_nat 6001).

Lemma enforceLimit_idempotent_and_bounded_witness :
  (6000 < len (content longRules))%N
  /\ len (content (fst (enforceLimit longRules))) = 6000%N
  /\ List.length (snd (enforceLimit longRules)) = 1
  /\ enforceLimit (fst (enforceLimit longRules)) = (fst (enforceLimit longRules), []).
Proof.
  assert (H : (6000 < len (content longRules))%N) by (vm_compute; reflexivity).
  destruct (enforceLimit_idempotent_and_bounded longRules)
    as (_ & Hover & _ & Hidem & _).
  destruct (Hover H) as [Heq Hlen].
  split; [exact H|].
  rewrite Heq in *; cbn [fst snd content List.length].
  split; [exact Hlen|]. split; [reflexivity | exact Hidem].
Defined.

End WindsurfFacts.

(* ================================================================= *)
(** ** The agent recommender *)

Module RecommenderFacts.

Import Recommender.

(** *** The loop over the templates *)

(** What the loop collects from a list of templates when no call throws. *)
Inductive Collected (scan : ScanResult)
    : list AgentTemplate.t -> list AgentRecommendation.t -> Prop :=
| Collected_nil : Collected scan [] []
| Collected_skip t ts rs c :
    AgentTemplate.shouldRecommend t scan = Ok c -> (c < 40)%Z ->
    Collected scan ts rs -> Collected scan (t :: ts) rs
| Collected_take t ts rs c d :
    AgentTemplate.shouldRecommend t scan = Ok c -> (40 <= c)%Z ->
    AgentTemplate.generate t scan = Ok d ->
    Collected scan ts rs ->
    Collected scan (t :: ts) (recommendation t c d :: rs).

Lemma collect_Collected (scan : ScanResult) (ts : list AgentTemplate.t) :
  forall acc recs,
    collect scan ts acc = Ok recs ->
    exists rs, recs = acc ++ rs /\ Collected scan ts rs.
Proof.
  induction ts as [|t ts IH]; intros acc recs; simpl.
  - intros [= <-]; exists []; split; [symmetry; apply app_nil_r | constructor].
  - destruct (AgentTemplate.shouldRecommend t scan) as [c|e] eqn:Hs; simpl;
      [|discriminate].
    destruct (Z.ltb_spec c 40) as [Hlt|Hge].
    + intros H; destruct (IH _ _ H) as (rs & -> & Hrs).
      exists rs; split; [reflexivity | eapply Collected_skip; eassumption].
    + destruct (AgentTemplate.generate t scan) as [d|e] eqn:Hg; simpl;
        [|discriminate].
      intros H; destruct (IH _ _ H) as (rs & -> & Hrs).
      exists (recommendation t c d :: rs); split.
      * rewrite <- app_assoc; reflexivity.
      * eapply Collected_take; eassumption.
Qed.

(** A template whose calls return normally on a snapshot; [generate] is
    called only after a score of at least 40. *)
Definition returnsNormally (scan : ScanResult) (t : AgentTemplate.t) : Prop :=
  exists c, AgentTemplate.shouldRecommend t scan = Ok c
            /\ ((c < 40)%Z \/ exists d, AgentTemplate.generate t scan = Ok d).

Lemma collect_total (scan : ScanResult) (ts : list AgentTemplate.t) :
  Forall (returnsNormally scan) ts ->
  forall acc, exists recs, collect scan ts acc = Ok recs.
Proof.
  induction 1 as [|t ts (c & Hs & Hg) _ IH]; intros acc; simpl.
  - eexists; reflexivity.
  - rewrite Hs; simpl.
    destruct (Z.ltb_spec c 40) as [Hlt|Hge]; [apply IH|].
    destruct Hg as [Hlt | (d & Hg)]; [lia|].
    rewrite Hg; simpl; apply IH.
Qed.


(** No template of the catalog throws. *)
Lemma catalog_returns_normally (scan : ScanResult) :
  Forall (returnsNormally scan) AGENT_TEMPLATES.
Proof.
  unfold AGENT_TEMPLATES, returnsNormally.
  repeat constructor;
    unfold codeReviewer, testWriter, dbExpert, securityAuditor,
      componentDesigner, apiDeveloper, devopsHelper, perfOptimizer, docsWriter;
    cbn [AgentTemplate.shouldRecommend AgentTemplate.generate]; cbv zeta;
    repeat match goal with
           | |- context [if ?b then _ else _] => destruct b
           end;
    (eexists; split; [reflexivity | right; eexists; reflexivity]).
Qed.

Lemma recommendAgents_total (scan : ScanResult) :
  exists rs, collect scan AGENT_TEMPLATES [] = Ok rs
             /\ Collected scan AGENT_TEMPLATES rs
             /\ recommendAgents scan = Ok (sortBy byConfidence rs).
Proof.
  destruct (collect_total scan AGENT_TEMPLATES (catalog_returns_normally scan) [])
    as [recs Hrecs].
  destruct (collect_Collected scan AGENT_TEMPLATES [] recs Hrecs) as (rs & -> & Hc).
  change ([] ++ rs) with rs in Hrecs.
  exists rs; repeat split; try assumption.
  unfold recommendAgents, recommendAgentsFrom; rewrite Hrecs; reflexivity.
Qed.

(** *** What is collected *)

Lemma Collected_confidence (scan : ScanResult) ts rs :
  Collected scan ts rs ->
  Forall (fun r => (40 <= AgentRecommendation.confidence r)%Z) rs.
Proof. induction 1; auto. Qed.

(** Every recommendation comes from a template that scored what the
    recommendation records. *)
Lemma Collected_origin (scan : ScanResult) ts rs :
  Collected scan ts rs ->
  forall r, In r rs ->
    exists t, In t ts
      /\ AgentRecommendation.id r = AgentTemplate.id t
      /\ AgentTemplate.shouldRecommend t scan = Ok (AgentRecommendation.confidence r).
Proof.
  induction 1 as [|t ts rs c _ _ _ IH|t ts rs c d Hs _ _ _ IH]; intros r Hr.
  - destruct Hr.
  - destruct (IH r Hr) as (u & Hu & Hid); exists u; split; [right|]; assumption.
  - destruct Hr as [<-|Hr].
    + exists t; repeat split; [left; reflexivity | exact Hs].
    + destruct (IH r Hr) as (u & Hu & Hid); exists u; split; [right|]; assumption.
Qed.

(** *** The sort *)

Section Sorting.
Context {A : Type} (cmp : A -> A -> Z).

Lemma insertSorted_In (x : A) (l : list A) (y : A) :
  In y (insertSorted cmp x l) <-> y = x \/ In y l.
Proof.
  induction l as [|z l IH]; simpl.
  - intuition congruence.
  - destruct (cmp x z <=? 0)%Z; simpl; [intuition congruence|].
    rewrite IH; intuition congruence.
Qed.

Lemma sortBy_In (l : list A) (y : A) : In y (sortBy cmp l) <-> In y l.
Proof.
  induction l as [|x l IH]; simpl; [reflexivity|].
  rewrite insertSorted_In, IH; intuition congruence.
Qed.

Lemma Forall_sortBy (P : A -> Prop) (l : list A) :
  Forall P l -> Forall P (sortBy cmp l).
Proof.
  rewrite !Forall_forall; intros H y Hy; apply H, sortBy_In, Hy.
Qed.

End Sorting.

(** [a] stands before [b] in [l]. *)
Definition Before {A : Type} (l : list A) (a b : A) : Prop :=
  exists l1 l2 l3, l = l1 ++ a :: l2 ++ b :: l3.

Lemma Before_cons {A : Type} (x : A) (l : list A) (a b : A) :
  Before l a b -> Before (x :: l) a b.
Proof. intros (l1 & l2 & l3 & ->); exists (x :: l1), l2, l3; reflexivity. Qed.

Lemma Before_head {A : Type} (x : A) (l : list A) (b : A) :
  In b l -> Before (x :: l) x b.
Proof.
  intros H; apply in_split in H; destruct H as (l2 & l3 & ->).
  exists [], l2, l3; reflexivity.
Qed.

Lemma StronglySorted_Before {A : Type} (R : A -> A -> Prop) (l : list A) :
  StronglySorted R l -> forall a b, Before l a b -> R a b.
Proof.
  intros Hs a b (l1 & l2 & l3 & ->).
  induction l1 as [|x l1 IH]; simpl in Hs.
  - apply StronglySorted_inv in Hs; destruct Hs as [_ Hall].
    rewrite Forall_forall in Hall; apply Hall.
    apply in_or_app; right; left; reflexivity.
  - apply StronglySorted_inv in Hs; apply IH, Hs.
Qed.

Lemma StronglySorted_impl {A : Type} (R S : A -> A -> Prop) (l : list A) :
  (forall a b, In a l -> In b l -> R a b -> S a b) ->
  StronglySorted R l -> StronglySorted S l.
Proof.
  intros HRS Hs; induction Hs as [|x l Hs IH Hall]; constructor.
  - apply IH; intros a b Ha Hb; apply HRS; right; assumption.
  - rewrite Forall_forall in *; intros y Hy.
    apply HRS; [left; reflexivity | right; assumption | apply Hall, Hy].
Qed.

(** The order the sort establishes: higher confidence first, and among
    equal confidences the order [D] that the input already has. *)
Section Stability.
Variable D : AgentRecommendation.t -> AgentRecommendation.t -> Prop.

Definition ranked (a b : AgentRecommendation.t) : Prop :=
  (AgentRecommendation.confidence b < AgentRecommendation.confidence a)%Z
  \/ (AgentRecommendation.confidence a = AgentRecommendation.confidence b /\ D a b).

Lemma ranked_confidence (l : list AgentRecommendation.t) (y : AgentRecommendation.t) :
  Forall (ranked y) l ->
  Forall (fun z => (AgentRecommendation.confidence z
                    <= AgentRecommendation.confidence y)%Z) l.
Proof.
  apply Forall_impl; intros z [H | [H _]]; lia.
Qed.

Lemma insertSorted_ranked (x : AgentRecommendation.t) (l : list AgentRecommendation.t) :
  StronglySorted ranked l -> Forall (D x) l ->
  StronglySorted ranked (insertSorted byConfidence x l).
Proof.
  induction 1 as [|y l Hs IH Hall]; intros HD; simpl.
  - repeat constructor.
  - apply Forall_cons_iff in HD; destruct HD as [HDy HDl].
    unfold byConfidence at 1.
    destruct (Z.leb_spec (AgentRecommendation.confidence y
                          - AgentRecommendation.confidence x) 0) as [Hle|Hgt].
    + constructor; [constructor; assumption|].
      constructor.
      * unfold ranked; destruct (Z.eq_dec (AgentRecommendation.confidence x)
                                           (AgentRecommendation.confidence y));
          [right; split; assumption | left; lia].
      * pose proof (ranked_confidence l y Hall) as Hc.
        rewrite Forall_forall in *; intros z Hz.
        specialize (Hc z Hz); specialize (HDl z Hz); unfold ranked.
        destruct (Z.eq_dec (AgentRecommendation.confidence x)
                           (AgentRecommendation.confidence z));
          [right; split; assumption | left; lia].
    + constructor; [apply IH, HDl|].
      rewrite Forall_forall in *; intros z Hz.
      apply insertSorted_In in Hz; destruct Hz as [-> | Hz];
        [left; lia | apply Hall, Hz].
Qed.

Lemma sortBy_ranked (l : list AgentRecommendation.t) :
  StronglySorted D l -> StronglySorted ranked (sortBy byConfidence l).
Proof.
  induction 1 as [|x l Hs IH Hall]; simpl; [constructor|].
  apply insertSorted_ranked; [exact IH|].
  apply Forall_sortBy, Hall.
Qed.

End Stability.

(** *** Declaration order *)

(** The template named [x] is declared before the one named [y]. *)
Definition declaredBefore (x y : jsstring) : Prop :=
  Before (map AgentTemplate.id AGENT_TEMPLATES) x y.

Definition inOrderOf (ts : list AgentTemplate.t) (a b : AgentRecommendation.t) : Prop :=
  Before (map AgentTemplate.id ts) (AgentRecommendation.id a) (AgentRecommendation.id b).

Lemma Collected_ids (scan : ScanResult) ts rs :
  Collected scan ts rs ->
  forall r, In r rs -> In (AgentRecommendation.id r) (map AgentTemplate.id ts).
Proof.
  intros Hc r Hr; destruct (Collected_origin scan ts rs Hc r Hr) as (t & Ht & -> & _).
  apply in_map, Ht.
Qed.

Lemma Collected_in_order (scan : ScanResult) ts rs :
  Collected scan ts rs -> StronglySorted (inOrderOf ts) rs.
Proof.
  induction 1 as [|t ts rs c _ _ _ IH|t ts rs c d _ _ _ Hc IH].
  - constructor.
  - eapply StronglySorted_impl; [|exact IH].
    intros a b _ _; apply Before_cons.
  - constructor.
    + eapply StronglySorted_impl; [|exact IH].
      intros a b _ _; apply Before_cons.
    + rewrite Forall_forall; intros b Hb.
      apply Before_head, (Collected_ids scan ts rs Hc b Hb).
Qed.

Lemma catalog_ids_distinct : NoDup (map AgentTemplate.id AGENT_TEMPLATES).
Proof.
  repeat constructor; simpl; intros H;
    repeat (destruct H as [H|H]; [discriminate H|]); exact H.
Qed.

Lemma same_id_same_template (ts : list AgentTemplate.t) :
  NoDup (map AgentTemplate.id ts) ->
  forall t u, In t ts -> In u ts -> AgentTemplate.id t = AgentTemplate.id u -> t = u.
Proof.
  induction ts as [|x ts IH]; simpl; intros Hnd t u Ht Hu Hid; [destruct Ht|].
  apply NoDup_cons_iff in Hnd; destruct Hnd as [Hx Hnd].
  destruct Ht as [<-|Ht], Hu as [<-|Hu].
  - reflexivity.
  - exfalso; apply Hx; rewrite Hid; apply in_map, Hu.
  - exfalso; apply Hx; rewrite <- Hid; apply in_map, Ht.
  - apply IH; assumption.
Qed.

(** *** The claims *)

(** C3: every recommendation that [recommendAgents] returns has a
    confidence of at least 40, and a template of the catalog whose
    [shouldRecommend] scores below 40 on the snapshot has no recommendation
    in the output. *)
Theorem recommendAgents_threshold (scan : ScanResult) :
  exists recs,
    recommendAgents scan = Ok recs
    /\ Forall (fun r => (40 <= AgentRecommendation.confidence r)%Z) recs
    /\ (forall t score,
          In t AGENT_TEMPLATES ->
          AgentTemplate.shouldRecommend t scan = Ok score ->
          (score < 40)%Z ->
          ~ In (AgentTemplate.id t) (map AgentRecommendation.id recs)).
Proof.
  destruct (recommendAgents_total scan) as (rs & _ & Hc & Hr).
  exists (sortBy byConfidence rs); split; [exact Hr|]. split.
  - apply Forall_sortBy, (Collected_confidence scan _ _ Hc).
  - intros t score Ht Hs Hlow Hin.
    apply in_map_iff in Hin; destruct Hin as (r & Hid & Hin).
    apply sortBy_In in Hin.
    destruct (Collected_origin scan _ _ Hc r Hin) as (u & Hu & Hidu & Hsu).
    assert (u = t) as ->
      by (apply (same_id_same_template AGENT_TEMPLATES catalog_ids_distinct);
          congruence).
    pose proof (Collected_confidence scan _ _ Hc) as Hall.
    rewrite Forall_forall in Hall; specialize (Hall r Hin).
    rewrite Hs in Hsu; injection Hsu as ->; lia.
Qed.

(** The claimed order, on the confidences of the output. *)
Definition StrictlyDescending (confidences : list Z) : Prop :=
  StronglySorted (fun a b => (b < a)%Z) confidences.

(** The order the sort gives. *)
Definition Descending (confidences : list Z) : Prop :=
  StronglySorted (fun a b => (b <= a)%Z) confidences.

Lemma StronglySorted_map {A B : Type} (f : A -> B) (R : B -> B -> Prop) (l : list A) :
  StronglySorted (fun a b => R (f a) (f b)) l -> StronglySorted R (map f l).
Proof.
  induction 1 as [|x l _ IH Hall]; simpl; constructor; [exact IH|].
  rewrite Forall_forall in *; intros y Hy.
  apply in_map_iff in Hy; destruct Hy as (z & <- & Hz); apply Hall, Hz.
Qed.

(** C8, as the code has it: the list that [recommendAgents] returns is
    sorted by descending confidence, equal confidences allowed, and two
    recommendations of equal confidence stand in the order in which their
    templates are declared in the catalog. *)
Theorem recommendAgents_sorted_stable (scan : ScanResult) :
  exists recs,
    recommendAgents scan = Ok recs
    /\ Descending (map AgentRecommendation.confidence recs)
    /\ (forall a b,
          Before recs a b ->
          AgentRecommendation.confidence a = AgentRecommendation.confidence b ->
          declaredBefore (AgentRecommendation.id a) (AgentRecommendation.id b)).
Proof.
  destruct (recommendAgents_total scan) as (rs & _ & Hc & Hr).
  exists (sortBy byConfidence rs); split; [exact Hr|].
  pose proof (sortBy_ranked (inOrderOf AGENT_TEMPLATES) rs
                (Collected_in_order scan _ _ Hc)) as Hranked.
  split.
  - apply StronglySorted_map.
    eapply StronglySorted_impl; [|exact Hranked].
    intros a b _ _ [H | [H _]]; lia.
  - intros a b Hab Heq.
    destruct (StronglySorted_Before _ _ Hranked a b Hab) as [H | [_ H]];
      [lia | exact H].
Qed.

(** An Express project without database tooling whose tree holds database
    migrations: the database expert and the API developer both score 80. *)
Definition tieScan : ScanResult :=
  mkScan (lit "shop") (lit "/srv/shop")
    (mkTechStack []
       [FrameworkInfo.mk (lit "Express") None 90 (lit "package.json")]
       [] [] [] [] [] [] npm)
    (mkFileTree 12 3 [] [lit "src"] false None [lit "Database migrations"])
    [] 5.

(** C8, as stated, fails: on [tieScan] the output has two neighbours of
    confidence 80, so its confidences are not strictly descending. *)
Lemma recommendAgents_not_strictly_descending :
  exists recs,
    recommendAgents tieScan = Ok recs
    /\ map AgentRecommendation.id recs =
         [lit "code-reviewer"; lit "db-expert"; lit "api-developer";
          lit "security-auditor"; lit "test-writer"]
    /\ map AgentRecommendation.confidence recs = [90; 80; 80; 78; 70]%Z
    /\ ~ StrictlyDescending (map AgentRecommendation.confidence recs).
Proof.
  eexists; split; [vm_compute; reflexivity|].
  split; [reflexivity|]. split; [reflexivity|].
  cbn [map AgentRecommendation.confidence]; unfold StrictlyDescending; intros H.
  apply StronglySorted_inv in H; destruct H as [H _].
  apply StronglySorted_inv in H; destruct H as [_ H].
  apply Forall_inv in H; lia.
Qed.

(** *** Failing templates *)






End RecommenderFacts.

(* ================================================================= *)
(** ** The conflict analyzer *)

Module FixerFacts.

Import Fixer.

(** *** Sets *)

Section Distinct.
Context {A : Type} (eqb : A -> A -> bool).
Hypothesis eqb_spec : forall x y, reflect (x = y) (eqb x y).

Lemma distinct_In (l : list A) (z : A) : In z (distinct eqb l) <-> In z l.
Proof.
  induction l as [|x l IH]; simpl; [reflexivity|].
  rewrite filter_In, IH.
  destruct (eqb_spec z x) as [->|Hn]; simpl; intuition congruence.
Qed.

Lemma filter_NoDup (p : A -> bool) (l : list A) : NoDup l -> NoDup (filter p l).
Proof.
  induction 1 as [|x l Hx _ IH]; simpl; [constructor|].
  destruct (p x); [constructor|]; try assumption.
  rewrite filter_In; tauto.
Qed.

Lemma distinct_NoDup (l : list A) : NoDup (distinct eqb l).
Proof.
  induction l as [|x l IH]; simpl; constructor.
  - rewrite filter_In; intros [_ H].
    destruct (eqb_spec x x); [discriminate | congruence].
  - apply filter_NoDup, IH.
Qed.

Lemma distinct_of_NoDup (l : list A) : NoDup l -> distinct eqb l = l.
Proof.
  induction 1 as [|x l Hx _ IH]; simpl; [reflexivity|].
  rewrite IH; f_equal.
  apply forallb_filter_id, forallb_forall; intros y Hy.
  destruct (eqb_spec y x); [congruence | reflexivity].
Qed.

Lemma distinct_snoc (l : list A) (x : A) :
  distinct eqb (l ++ [x]) =
    if existsb (eqb x) l then distinct eqb l else distinct eqb l ++ [x].
Proof.
  induction l as [|y l IH]; simpl; [reflexivity|].
  rewrite IH.
  destruct (eqb_spec x y) as [->|Hn]; simpl.
  - destruct (existsb (eqb y) l); [reflexivity|].
    rewrite filter_app; simpl.
    destruct (eqb_spec y y); [simpl | congruence].
    rewrite app_nil_r; reflexivity.
  - destruct (existsb (eqb x) l); [reflexivity|].
    rewrite filter_app; simpl.
    destruct (eqb_spec x y); [congruence | reflexivity].
Qed.

(** A set has more than one element exactly when the list holds two
    different values. *)
Lemma distinct_several (l : list A) :
  1 < List.length (distinct eqb l) <->
  exists x y, In x l /\ In y l /\ x <> y.
Proof.
  split.
  - destruct l as [|x l]; simpl; [lia|].
    intros H.
    destruct (filter (fun y => negb (eqb y x)) (distinct eqb l)) as [|y r] eqn:Hf;
      [simpl in H; lia|].
    assert (Hy : In y (filter (fun y => negb (eqb y x)) (distinct eqb l)))
      by (rewrite Hf; left; reflexivity).
    rewrite filter_In, distinct_In in Hy; destruct Hy as [Hy Hne].
    exists x, y; repeat split; [left; reflexivity | right; exact Hy |].
    destruct (eqb_spec y x); [discriminate | congruence].
  - intros (x & y & Hx & Hy & Hne).
    destruct l as [|h l]; [destruct Hx|]; simpl.
    assert (Hz : exists z, In z l /\ z <> h).
    { destruct (eqb_spec x h) as [->|Hxh].
      - exists y; split; [destruct Hy; congruence | congruence].
      - exists x; split; [destruct Hx; congruence | assumption]. }
    destruct Hz as (z & Hz & Hzh).
    assert (Hin : In z (filter (fun y => negb (eqb y h)) (distinct eqb l))).
    { rewrite filter_In, distinct_In; split; [exact Hz|].
      destruct (eqb_spec z h); [congruence | reflexivity]. }
    destruct (filter (fun y => negb (eqb y h)) (distinct eqb l));
      [destruct Hin | simpl; lia].
Qed.

End Distinct.

Lemma setOf_mem (l : list jsstring) (t : jsstring) : mem t (setOf l) = mem t l.
Proof.
  apply eq_true_iff_eq; rewrite !mem_In.
  apply (distinct_In JS.eqb eqb_spec).
Qed.

(** *** Trigger overlap *)

(** Every pair of records, the earlier one first, in the order of the loops. *)
Fixpoint pairs {A : Type} (l : list A) : list (A * A) :=
  match l with
  | [] => []
  | a :: later => map (pair a) later ++ pairs later
  end.

Lemma flat_map_map {A B C : Type} (f : B -> list C) (g : A -> B) (l : list A) :
  flat_map f (map g l) = flat_map (fun x => f (g x)) l.
Proof. induction l as [|x l IH]; simpl; [|rewrite IH]; reflexivity. Qed.

(** The loops visit every unordered pair once. *)
Lemma detectOverlaps_pairs (agents : list ParsedAgent) :
  detectOverlaps agents = flat_map (fun ab => overlapPair (fst ab) (snd ab)) (pairs agents).
Proof.
  induction agents as [|a later IH]; simpl; [reflexivity|].
  rewrite flat_map_app, flat_map_map, IH; reflexivity.
Qed.

Lemma overlapPair_at_most_one (a b : ParsedAgent) :
  overlapPair a b = [] \/ overlapPair a b = [overlapIssue a b (sharedTriggers a b)].
Proof.
  unfold overlapPair.
  destruct (_ || _); [left; reflexivity|].
  destruct (_ && _); [right | left]; reflexivity.
Qed.

Lemma ratioAboveHalf_spec (shared minSize : nat) :
  0 < minSize -> ratioAboveHalf shared minSize = (minSize <? 2 * shared).
Proof.
  intros Hm; unfold ratioAboveHalf, Qle_bool; simpl Qnum; simpl Qden.
  assert (Hp : Z.pos (Pos.of_nat minSize) = Z.of_nat minSize).
  { destruct minSize as [|m]; [lia|]. rewrite <- Pos.of_nat_succ. lia. }
  rewrite Hp.
  destruct (Z.leb_spec (Z.of_nat shared * 2) (1 * Z.of_nat minSize));
    destruct (Nat.ltb_spec minSize (2 * shared)); simpl; try reflexivity; lia.
Qed.

(** The shared triggers of the claim: the members of both trigger sets. *)
Definition sharedSet (a b : ParsedAgent) : list jsstring :=
  filter (fun t => mem t (setOf (triggers b))) (setOf (triggers a)).

(** The condition of the claim: both sets are non-empty and the shared
    triggers are more than half of the smaller set. *)
Definition overlapping (a b : ParsedAgent) : bool :=
  negb (Nat.eqb (setSize (triggers a)) 0)
  && negb (Nat.eqb (setSize (triggers b)) 0)
  && (Nat.min (setSize (triggers a)) (setSize (triggers b))
        <? 2 * List.length (sharedSet a b)).

Lemma setSize_zero (l : list jsstring) :
  Nat.eqb (setSize l) 0 = Nat.eqb (List.length l) 0.
Proof. destruct l; reflexivity. Qed.

(** When the earlier record lists no trigger twice, the pair is flagged
    exactly under the condition of the claim. *)
Lemma overlapPair_without_repetition (a b : ParsedAgent) :
  NoDup (triggers a) ->
  overlapPair a b =
    if overlapping a b then [overlapIssue a b (sharedTriggers a b)] else [].
Proof.
  intros Hnd; unfold overlapPair, overlapping, sharedSet.
  rewrite !setSize_zero.
  unfold setOf at 2; rewrite (distinct_of_NoDup JS.eqb eqb_spec _ Hnd).
  fold (sharedTriggers a b).
  destruct (Nat.eqb_spec (List.length (triggers a)) 0) as [Ha|Ha]; simpl;
    [reflexivity|].
  destruct (Nat.eqb_spec (List.length (triggers b)) 0) as [Hb|Hb]; simpl;
    [reflexivity|].
  assert (Hmin : 0 < Nat.min (setSize (triggers a)) (setSize (triggers b))).
  { unfold setSize.
    destruct (triggers a); [simpl in Ha; lia|].
    destruct (triggers b); [simpl in Hb; lia|]. simpl; lia. }
  rewrite (ratioAboveHalf_spec _ _ Hmin).
  apply Nat.ltb_lt in Hmin; rewrite Hmin; reflexivity.
Qed.

(** Two Claude agent files; the first sets the word review in bold twice. *)
Definition reviewerFile : ExistingConfig :=
  mkConfig claude (lit ".claude/agents/reviewer.md") 130
    (Some (join [LF]
       [ lit "---"; lit "name: Code Reviewer";
         lit "description: Review code for quality issues and best practices";
         lit "---"; lit "";
         lit "Do a **review** of every change; a **review** covers **lint** too." ]))
    true [].

Definition writerFile : ExistingConfig :=
  mkConfig claude (lit ".claude/agents/writer.md") 120
    (Some (join [LF]
       [ lit "---"; lit "name: Docs Writer";
         lit "description: Write and maintain the project documentation";
         lit "---"; lit "";
         lit "Ask for a **review** after you write the **docs**." ]))
    true [].

Definition reviewer : ParsedAgent :=
  mkAgent claude (lit ".claude/agents/reviewer.md") (lit "Code Reviewer")
    (lit "Review code for quality issues and best practices")
    [lit "review"; lit "review"; lit "lint"].

Definition writer : ParsedAgent :=
  mkAgent claude (lit ".claude/agents/writer.md") (lit "Docs Writer")
    (lit "Write and maintain the project documentation")
    [lit "review"; lit "docs"].

(** C4, where the code departs from it: [reviewer] and [writer] share one
    trigger out of two sets of size two (one half, not more), yet the pair
    is flagged, because the shared triggers are counted in the trigger list
    of the earlier record, repetitions included, while the smaller size is
    counted in the sets; with the records in the other order the same pair
    is not flagged. *)
Theorem detectOverlaps_counts_repetitions :
  parseAgentFromFile asciiLower reviewerFile = Some reviewer
  /\ parseAgentFromFile asciiLower writerFile = Some writer
  /\ sharedSet reviewer writer = [lit "review"]
  /\ setSize (triggers reviewer) = 2 /\ setSize (triggers writer) = 2
  /\ overlapping reviewer writer = false
  /\ detectOverlaps [reviewer; writer] =
       [overlapIssue reviewer writer [lit "review"; lit "review"]]
  /\ detectOverlaps [writer; reviewer] = [].
Proof. repeat split; vm_compute; reflexivity. Qed.

(** The scenario of the specification: four shared triggers out of two
    sets of five are flagged, one out of five is not. *)
Example detectOverlaps_scenario :
  let a := mkAgent claude (lit "a.md") (lit "A") []
             [lit "review"; lit "code"; lit "quality"; lit "check"; lit "lint"] in
  let b := mkAgent claude (lit "b.md") (lit "B") []
             [lit "review"; lit "code"; lit "quality"; lit "check"; lit "bugs"] in
  let c := mkAgent claude (lit "c.md") (lit "C") []
             [lit "review"; lit "tests"; lit "coverage"; lit "mocks"; lit "fixtures"] in
  List.length (detectOverlaps [a; b]) = 1 /\ detectOverlaps [a; c] = [].
Proof. split; vm_compute; reflexivity. Qed.

(** *** Duplicate identity *)

Section DuplicateFacts.

Variable toLowerCase : jsstring -> jsstring.

(** The key of a record: its name without case. *)
Definition key (a : ParsedAgent) : jsstring := toLowerCase (name a).

(** The records of one name, in their order. *)
Definition sameName (k : jsstring) (agents : list ParsedAgent) : list ParsedAgent :=
  filter (fun a => JS.eqb (key a) k) agents.

(** The names, each once, in the order of their first record. *)
Definition names (agents : list ParsedAgent) : list jsstring :=
  setOf (map key agents).

(** The grouping of the claim. *)
Definition grouped (agents : list ParsedAgent) : nameMap :=
  map (fun k => (k, sameName k agents)) (names agents).

Lemma mapGet_map (f : jsstring -> list ParsedAgent) (ks : list jsstring) (k : jsstring) :
  mapGet (map (fun k' => (k', f k')) ks) k = if mem k ks then Some (f k) else None.
Proof.
  induction ks as [|k' ks IH]; simpl; [reflexivity|].
  destruct (eqb_spec k' k) as [->|Hn].
  - rewrite eqb_refl; reflexivity.
  - destruct (eqb_spec k k'); [congruence | simpl; exact IH].
Qed.

Lemma mapSet_absent (f : jsstring -> list ParsedAgent) (ks : list jsstring)
    (k : jsstring) (v : list ParsedAgent) :
  mem k ks = false ->
  mapSet (map (fun k' => (k', f k')) ks) k v
    = map (fun k' => (k', f k')) ks ++ [(k, v)].
Proof.
  induction ks as [|k' ks IH]; simpl; [reflexivity|].
  destruct (eqb_spec k k') as [->|Hn]; simpl; [discriminate|].
  intros H; destruct (eqb_spec k' k); [congruence|].
  rewrite (IH H); reflexivity.
Qed.

Lemma mapSet_present (f : jsstring -> list ParsedAgent) (ks : list jsstring)
    (k : jsstring) (v : list ParsedAgent) :
  NoDup ks -> mem k ks = true ->
  mapSet (map (fun k' => (k', f k')) ks) k v
    = map (fun k' => (k', if JS.eqb k' k then v else f k')) ks.
Proof.
  induction 1 as [|k' ks Hk' Hnd IH]; simpl; [discriminate|].
  destruct (eqb_spec k' k) as [->|Hn].
  - intros _; f_equal.
    apply map_ext_in; intros k' Hin.
    destruct (eqb_spec k' k); [congruence | reflexivity].
  - destruct (eqb_spec k k'); [congruence|]; simpl.
    intros H; rewrite (IH H); reflexivity.
Qed.

Lemma names_snoc (l : list ParsedAgent) (a : ParsedAgent) :
  names (l ++ [a]) =
    if mem (key a) (names l) then names l else names l ++ [key a].
Proof.
  unfold names; rewrite map_app; simpl.
  unfold setOf at 1; rewrite (distinct_snoc JS.eqb eqb_spec).
  rewrite setOf_mem; reflexivity.
Qed.

Lemma sameName_snoc (k : jsstring) (l : list ParsedAgent) (a : ParsedAgent) :
  sameName k (l ++ [a]) = sameName k l ++ (if JS.eqb (key a) k then [a] else []).
Proof. unfold sameName; rewrite filter_app; reflexivity. Qed.

Lemma sameName_absent (k : jsstring) (l : list ParsedAgent) :
  mem k (names l) = false -> sameName k l = [].
Proof.
  unfold names; rewrite setOf_mem; intros H.
  unfold sameName; induction l as [|a l IH]; simpl in *; [reflexivity|].
  apply orb_false_iff in H; destruct H as [Ha Hl].
  destruct (eqb_spec (key a) k) as [He|_]; [|apply IH, Hl].
  rewrite <- He, eqb_refl in Ha; discriminate.
Qed.

Lemma addAgent_grouped (l : list ParsedAgent) (a : ParsedAgent) :
  addAgent toLowerCase (grouped l) a = grouped (l ++ [a]).
Proof.
  unfold addAgent, grouped; fold (key a).
  rewrite mapGet_map, names_snoc.
  destruct (mem (key a) (names l)) eqn:Hmem.
  - rewrite mapSet_present;
      [| apply (distinct_NoDup JS.eqb eqb_spec) | exact Hmem].
    apply map_ext; intros k; rewrite sameName_snoc.
    destruct (eqb_spec k (key a)) as [->|Hn].
    + rewrite eqb_refl; reflexivity.
    + destruct (eqb_spec (key a) k); [congruence|].
      rewrite app_nil_r; reflexivity.
  - rewrite (mapSet_absent _ _ _ _ Hmem), map_app; simpl.
    rewrite sameName_snoc, eqb_refl, (sameName_absent _ _ Hmem).
    f_equal.
    apply map_ext_in; intros k Hk; rewrite sameName_snoc.
    destruct (eqb_spec (key a) k) as [<-|_]; [|rewrite app_nil_r; reflexivity].
    apply mem_In in Hk; congruence.
Qed.

(** The map built by the first loop is the grouping by name. *)
Lemma groupByName_grouped (agents : list ParsedAgent) :
  groupByName toLowerCase agents = grouped agents.
Proof.
  unfold groupByName.
  induction agents as [|a l IH] using rev_ind; [reflexivity|].
  rewrite fold_left_app; simpl; rewrite IH; apply addAgent_grouped.
Qed.

(** The group holds records of two different tools. *)
Definition spansTools (group : list ParsedAgent) : Prop :=
  exists a b, In a group /\ In b group /\ tool a <> tool b.

(** The group holds two different description texts. *)
Definition differingDescriptions (group : list ParsedAgent) : Prop :=
  exists a b, In a group /\ In b group /\ description a <> description b.

Lemma several_map {A B : Type} (f : A -> B) (l : list A) :
  (exists x y, In x (map f l) /\ In y (map f l) /\ x <> y)
  <-> (exists a b, In a l /\ In b l /\ f a <> f b).
Proof.
  split.
  - intros (x & y & Hx & Hy & Hne).
    apply in_map_iff in Hx; destruct Hx as (a & <- & Ha).
    apply in_map_iff in Hy; destruct Hy as (b & <- & Hb).
    exists a, b; auto.
  - intros (a & b & Ha & Hb & Hne).
    exists (f a), (f b); auto using in_map.
Qed.

Lemma checkGroup_flagged (group : list ParsedAgent) :
  checkGroup group <> [] <-> spansTools group /\ differingDescriptions group.
Proof.
  unfold spansTools, differingDescriptions.
  rewrite <- (several_map tool), <- (several_map description).
  rewrite <- (distinct_several ToolTarget_eqb ToolTarget_eqb_spec).
  rewrite <- (distinct_several JS.eqb eqb_spec).
  unfold checkGroup, toolSet, setOf.
  destruct (Nat.leb_spec (List.length group) 1) as [Hg|Hg].
  - split; [congruence|]. intros [Ht _]; exfalso.
    destruct group as [|a [|b g]]; simpl in *; lia.
  - destruct (Nat.leb_spec (List.length (distinct ToolTarget_eqb (map tool group))) 1)
      as [Ht|Ht].
    + split; [congruence | lia].
    + destruct (Nat.ltb_spec 1 (List.length (distinct JS.eqb (map description group))))
        as [Hd|Hd].
      * split; [intros _; split; assumption | discriminate].
      * split; [congruence | lia].
Qed.

(** C7: [detectDuplicates] groups the records by the lower-cased name,
    each name once and in the order of its first record, and reports a
    group, with one issue, exactly when the group holds records of more
    than one tool and more than one description text; a name within a
    single tool, and a name across tools with one description, are never
    reported. *)
Theorem detectDuplicates_by_name_tools_descriptions (agents : list ParsedAgent) :
  detectDuplicates toLowerCase agents =
    flat_map (fun k => checkGroup (sameName k agents)) (names agents)
  /\ NoDup (names agents)
  /\ (forall group,
        (checkGroup group = []
         \/ checkGroup group =
              [duplicateIssue group (List.length (toolSet (map tool group)))])
        /\ (checkGroup group <> [] <->
            spansTools group /\ differingDescriptions group)
        /\ ((forall a b, In a group -> In b group -> tool a = tool b) ->
            checkGroup group = [])
        /\ ((forall a b, In a group -> In b group -> description a = description b) ->
            checkGroup group = [])).
Proof.
  split; [|split].
  - unfold detectDuplicates; rewrite groupByName_grouped.
    unfold grouped; rewrite flat_map_map; reflexivity.
  - apply (distinct_NoDup JS.eqb eqb_spec).
  - intros group; split; [|split; [apply checkGroup_flagged | split]].
    + unfold checkGroup.
      destruct (_ <=? 1); [left; reflexivity|].
      destruct (_ <=? 1); [left; reflexivity|].
      destruct (1 <? _); [right | left]; reflexivity.
    + intros Hsame.
      destruct (checkGroup group) eqn:Hc; [reflexivity | exfalso].
      assert (Hne : checkGroup group <> []) by (rewrite Hc; discriminate).
      apply checkGroup_flagged in Hne.
      destruct Hne as [(a & b & Ha & Hb & Hab) _]; auto.
    + intros Hsame.
      destruct (checkGroup group) eqn:Hc; [reflexivity | exfalso].
      assert (Hne : checkGroup group <> []) by (rewrite Hc; discriminate).
      apply checkGroup_flagged in Hne.
      destruct Hne as [_ (a & b & Ha & Hb & Hab)]; auto.
Qed.

End DuplicateFacts.

(** The scenario of the tests: one name in two tools with two descriptions
    is reported; with one description it is not. *)
Example detectDuplicates_scenario :
  let a := mkAgent claude (lit ".claude/agents/reviewer.md") (lit "Code Reviewer")
             (lit "Review code for quality issues and best practices") [] in
  let b := mkAgent copilot (lit ".github/agents/reviewer.agent.md") (lit "code reviewer")
             (lit "A different description for the same agent") [] in
  let c := mkAgent copilot (lit ".github/agents/reviewer.agent.md") (lit "code reviewer")
             (lit "Review code for quality issues and best practices") [] in
  detectDuplicates asciiLower [a; b] = [duplicateIssue [a; b] 2]
  /\ detectDuplicates asciiLower [a; c] = []
  /\ detectDuplicates asciiLower [b; b] = [].
Proof. repeat split; vm_compute; reflexivity. Qed.

(** *** Single-agent files *)

Section ParseFacts.

Variable toLowerCase : jsstring -> jsstring.

Lemma truthy_nonempty (s : jsstring) : truthy s = true <-> s <> [].
Proof. destruct s; simpl; split; congruence. Qed.

Lemma orElse_truthy (a b : jsstring) : b <> [] -> truthy (orElse a b) = true.
Proof.
  intros Hb; unfold orElse; destruct (truthy a) eqn:Ha; [exact Ha|].
  apply truthy_nonempty, Hb.
Qed.

Lemma optOr_truthy (o : option jsstring) (b : jsstring) :
  b <> [] -> truthy (optOr o b) = true.
Proof.
  intros Hb; destruct o as [a|]; simpl;
    [apply orElse_truthy, Hb | apply truthy_nonempty, Hb].
Qed.

(** An agent-bearing file has a path. *)
Lemma isAgentFile_path (config : ExistingConfig) :
  isAgentFile config = true -> filePath config <> [].
Proof.
  unfold isAgentFile; intros H Hp; rewrite Hp in H; discriminate H.
Qed.

(** C10: [parseAgentFromFile] returns a record for every single-agent
    file. The name of the record is the frontmatter [name] when that is
    not empty, else the first level-1 heading when there is one, else the
    file path; with a non-empty path the name is never empty, so the branch
    that returns [null] is not taken, and the path of an agent-bearing file
    is not empty. A description found neither in the frontmatter nor in a
    first paragraph is the empty string. *)
Theorem parseAgentFromFile_total (config : ExistingConfig) :
  filePath config <> [] ->
  exists agent,
    parseAgentFromFile toLowerCase config = Some agent
    /\ name agent <> []
    /\ tool agent = Types.tool config
    /\ file agent = filePath config
    /\ (let fm := parseFrontmatter (contentOf config) in
        let declared := getField (fields fm) (lit "name") in
        let heading := extractNameFromHeading (contentOf config) in
        (falsy declared = false -> Some (name agent) = declared)
        /\ (falsy declared = true -> heading <> [] -> name agent = heading)
        /\ (falsy declared = true -> heading = [] -> name agent = filePath config)
        /\ (falsy (getField (fields fm) (lit "description")) = true ->
            extractFirstParagraph (body fm) = [] ->
            description agent = [])).
Proof.
  intros Hpath; unfold parseAgentFromFile.
  set (fm := parseFrontmatter (contentOf config)).
  set (declared := getField (fields fm) (lit "name")).
  set (heading := extractNameFromHeading (contentOf config)).
  assert (Hname : truthy (optOr declared (orElse heading (filePath config))) = true)
    by (apply optOr_truthy; apply truthy_nonempty, orElse_truthy, Hpath).
  rewrite Hname; simpl.
  eexists; split; [reflexivity|]; cbn [name tool file description].
  split; [apply truthy_nonempty, Hname|].
  repeat split.
  - destruct declared as [d|]; simpl; [|discriminate].
    unfold orElse; destruct (truthy d); [reflexivity | discriminate].
  - intros Hd Hh.
    apply truthy_nonempty in Hh.
    destruct declared as [d|]; simpl in *; unfold orElse.
    + destruct (truthy d); [discriminate|]. rewrite Hh; reflexivity.
    + rewrite Hh; reflexivity.
  - intros Hd Hh; rewrite Hh.
    destruct declared as [d|]; simpl in *; unfold orElse; simpl.
    + destruct (truthy d); [discriminate | reflexivity].
    + reflexivity.
  - intros Hd Hp; rewrite Hp.
    destruct (getField (fields fm) (lit "description")) as [d|]; simpl in *;
      [|reflexivity].
    unfold orElse; destruct (truthy d); [discriminate | reflexivity].
Qed.

End ParseFacts.

(** A Claude agent file without content. *)
Definition bareFile : ExistingConfig :=
  mkConfig claude (lit ".claude/agents/helper.md") 0 None true [].

Lemma parseAgentFromFile_total_witness :
  isAgentFile bareFile = true
  /\ exists agent,
       parseAgentFromFile asciiLower bareFile = Some agent
       /\ name agent = lit ".claude/agents/helper.md"
       /\ description agent = [].
Proof.
  assert (Hagent : isAgentFile bareFile = true) by reflexivity.
  split; [exact Hagent|].
  destruct (parseAgentFromFile_total asciiLower bareFile
              (isAgentFile_path bareFile Hagent))
    as (agent & Hparse & _ & _ & _ & _ & _ & Hpath & Hdesc).
  exists agent; split; [exact Hparse|]. split.
  - apply Hpath; reflexivity.
  - apply Hdesc; reflexivity.
Defined.

(** Only a config without a path, a name and a description gives [null]. *)
Example parseAgentFromFile_null :
  parseAgentFromFile asciiLower (mkConfig claude [] 0 None true []) = None.
Proof. reflexivity. Qed.

End FixerFacts.

(* ================================================================= *)
(** ** Glob liveness in the validator *)

Module ValidatorFacts.

Import Validator.

Section GlobFacts.

Variable isAbsolute : jsstring -> bool.
Variable pathJoin : jsstring -> jsstring -> jsstring.
Variable glob : jsstring -> option (list jsstring).

(** What one pattern adds: the issues pushed for it and the patterns
    handed to [glob] for it. *)
Definition patternOutcome (config : ExistingConfig) (projectRoot pattern : jsstring)
    : globState :=
  checkPattern isAbsolute pathJoin glob config projectRoot ([], []) pattern.

Lemma checkPattern_adds (config : ExistingConfig) (projectRoot : jsstring)
    (st : globState) (pattern : jsstring) :
  checkPattern isAbsolute pathJoin glob config projectRoot st pattern =
    (fst st ++ fst (patternOutcome config projectRoot pattern),
     snd st ++ snd (patternOutcome config projectRoot pattern)).
Proof.
  destruct st as [issues resolved]; unfold patternOutcome, checkPattern; simpl.
  destruct (isUniversal pattern); simpl; [rewrite !app_nil_r; reflexivity|].
  destruct (isUnsafe isAbsolute pattern); simpl; [rewrite app_nil_r; reflexivity|].
  destruct (glob _) as [matches|]; simpl; [|reflexivity].
  destruct (Nat.eqb _ 0); simpl; [|rewrite app_nil_r]; reflexivity.
Qed.

Lemma fold_checkPattern (config : ExistingConfig) (projectRoot : jsstring)
    (patterns : list jsstring) :
  forall st,
    fold_left (checkPattern isAbsolute pathJoin glob config projectRoot) patterns st =
      (fst st ++ flat_map (fun p => fst (patternOutcome config projectRoot p)) patterns,
       snd st ++ flat_map (fun p => snd (patternOutcome config projectRoot p)) patterns).
Proof.
  induction patterns as [|p ps IH]; intros st; simpl.
  - rewrite !app_nil_r; destruct st; reflexivity.
  - rewrite IH, checkPattern_adds; simpl; rewrite <- !app_assoc; reflexivity.
Qed.

Lemma isUniversal_spec (pattern : jsstring) :
  isUniversal pattern = true <-> pattern = lit "**/*" \/ pattern = lit "**".
Proof.
  unfold isUniversal; rewrite orb_true_iff, !eqb_eq; reflexivity.
Qed.

(** C6: the liveness check handles the patterns extracted from the
    frontmatter one by one, in their order. A universal pattern ([**/*] or
    [**]) gives no issue, whatever the project holds. Any other pattern
    that contains [..] or is absolute gives one issue of severity error and
    is not handed to [glob]. Any remaining pattern is resolved: no match
    gives one issue of severity warning, a throwing [glob] gives one issue
    of severity warning, and a match gives no issue. *)
Theorem validateGlobPatterns_liveness (config : ExistingConfig) (projectRoot : jsstring) :
  validateGlobPatternsTraced isAbsolute pathJoin glob config projectRoot =
    (flat_map (fun p => fst (patternOutcome config projectRoot p))
              (extractGlobPatterns config),
     flat_map (fun p => snd (patternOutcome config projectRoot p))
              (extractGlobPatterns config))
  /\ (forall pattern,
        let outcome := patternOutcome config projectRoot pattern in
        let fullPattern := slashes (pathJoin projectRoot pattern) in
        (pattern = lit "**/*" \/ pattern = lit "**" -> outcome = ([], []))
        /\ (isUniversal pattern = false ->
            includes pattern (lit "..") = true \/ isAbsolute pattern = true ->
            outcome = ([traversalIssue config pattern], [])
            /\ severity (traversalIssue config pattern) = error)
        /\ (isUniversal pattern = false -> isUnsafe isAbsolute pattern = false ->
            (glob fullPattern = Some [] ->
             outcome = ([deadIssue config pattern], [fullPattern])
             /\ severity (deadIssue config pattern) = warning)
            /\ (glob fullPattern = None ->
                outcome = ([invalidIssue config pattern], [fullPattern])
                /\ severity (invalidIssue config pattern) = warning)
            /\ (forall m ms, glob fullPattern = Some (m :: ms) ->
                outcome = ([], [fullPattern])))).
Proof.
  split.
  - unfold validateGlobPatternsTraced; rewrite fold_checkPattern; reflexivity.
  - intros pattern outcome fullPattern; subst outcome fullPattern.
    unfold patternOutcome, checkPattern.
    split; [|split].
    + intros H; apply isUniversal_spec in H; rewrite H; reflexivity.
    + intros Hu Hbad.
      assert (Hunsafe : isUnsafe isAbsolute pattern = true)
        by (unfold isUnsafe; apply orb_true_iff; exact Hbad).
      rewrite Hu, Hunsafe; split; reflexivity.
    + intros Hu Hsafe; rewrite Hu, Hsafe.
      split; [|split].
      * intros Hg; rewrite Hg; split; reflexivity.
      * intros Hg; rewrite Hg; split; reflexivity.
      * intros m ms Hg; rewrite Hg; reflexivity.
Qed.

End GlobFacts.

(** A Cursor rule with a universal, a traversing, a dead, an invalid and a
    live pattern, for a project in which only the TypeScript pattern
    matches and the lone bracket cannot be parsed. *)
Definition mixedRule : ExistingConfig :=
  mkConfig cursor (lit ".cursor/rules/mixed.mdc") 120
    (Some (join [LF]
       [ lit "---"; lit "description: Mixed rules";
         lit "globs: **/*, ../secrets/*, **/*.rs, [, src/**/*.ts";
         lit "---"; lit ""; lit "Follow the conventions of the project." ]))
    true [].

Definition posixAbsolute (p : jsstring) : bool := startsWith p (lit "/").
Definition posixJoin (a b : jsstring) : jsstring := a ++ lit "/" ++ b.
Definition sampleGlob (p : jsstring) : option (list jsstring) :=
  if JS.eqb p (lit "/repo/src/**/*.ts") then Some [lit "/repo/src/index.ts"]
  else if JS.eqb p (lit "/repo/[") then None
  else Some [].

Lemma validateGlobPatterns_liveness_witness :
  extractGlobPatterns mixedRule =
    [lit "**/*"; lit "../secrets/*"; lit "**/*.rs"; lit "["; lit "src/**/*.ts"]
  /\ validateGlobPatternsTraced posixAbsolute posixJoin sampleGlob mixedRule (lit "/repo") =
       ([traversalIssue mixedRule (lit "../secrets/*");
         deadIssue mixedRule (lit "**/*.rs");
         invalidIssue mixedRule (lit "[")],
        [lit "/repo/**/*.rs"; lit "/repo/["; lit "/repo/src/**/*.ts"])
  /\ patternOutcome posixAbsolute posixJoin sampleGlob mixedRule (lit "/repo") (lit "**/*.rs")
       = ([deadIssue mixedRule (lit "**/*.rs")], [lit "/repo/**/*.rs"]).
Proof.
  split; [vm_compute; reflexivity|].
  split; [vm_compute; reflexivity|].
  destruct (validateGlobPatterns_liveness posixAbsolute posixJoin sampleGlob
              mixedRule (lit "/repo")) as [_ H].
  destruct (H (lit "**/*.rs")) as (_ & _ & Hlive).
  destruct (Hlive eq_refl eq_refl) as (Hdead & _).
  exact (proj1 (Hdead eq_refl)).
Defined.

End ValidatorFacts.

(* ================================================================= *)
(** ** The prune analyzer *)

Module PrunerFacts.

Import Pruner.

Section PruneFacts.

Variable isAbsolute : jsstring -> bool.
Variable pathJoin : jsstring -> jsstring -> jsstring.
Variable glob : jsstring -> option (list jsstring).

(** The targets that one config adds to the result. *)
Definition targetsOf (projectRoot : jsstring) (config : ExistingConfig)
    : list PruneTarget :=
  fst (pruneConfig isAbsolute pathJoin glob projectRoot config).

(** The candidate for a config without meaningful content. *)
Definition emptyTarget (config : ExistingConfig) : PruneTarget :=
  mkTarget (Types.tool config) (filePath config) empty_content
    (lit "Config has " ++ ofNat (List.length (meaningful config))
       ++ lit " chars of content (effectively empty)")
    (Types.sizeBytes config).

Lemma checkEmptyContent_spec (config : ExistingConfig) :
  checkEmptyContent config =
    if List.length (meaningful config) <? 10 then Some (emptyTarget config) else None.
Proof. reflexivity. Qed.

Lemma checkDeadGlobs_target (projectRoot : jsstring) (config : ExistingConfig)
    (t : PruneTarget) :
  fst (checkDeadGlobs isAbsolute pathJoin glob config projectRoot) = Some t ->
  reason t = dead_globs /\ file t = filePath config.
Proof.
  unfold checkDeadGlobs.
  destruct (Nat.eqb _ 0); [discriminate|].
  destruct (Nat.eqb _ 0); [discriminate|].
  destruct (fold_left _ _ _) as [totalMatches resolved].
  destruct (Nat.eqb totalMatches 0); [|discriminate].
  simpl; intros [= <-]; split; reflexivity.
Qed.

Lemma targetsOf_cases (projectRoot : jsstring) (config : ExistingConfig) :
  (List.length (meaningful config) < 10
   /\ pruneConfig isAbsolute pathJoin glob projectRoot config = ([emptyTarget config], []))
  \/ (10 <= List.length (meaningful config)
      /\ (targetsOf projectRoot config = []
          \/ exists t, targetsOf projectRoot config = [t]
                       /\ reason t = dead_globs /\ file t = filePath config)).
Proof.
  unfold targetsOf, pruneConfig; rewrite checkEmptyContent_spec.
  destruct (Nat.ltb_spec (List.length (meaningful config)) 10) as [Hlt|Hge].
  - left; split; [exact Hlt | reflexivity].
  - right; split; [exact Hge|].
    pose proof (checkDeadGlobs_target projectRoot config) as Hdead.
    destruct (checkDeadGlobs isAbsolute pathJoin glob config projectRoot)
      as [[t|] resolved]; simpl in *.
    + right; exists t; split; [reflexivity | apply Hdead; reflexivity].
    + left; reflexivity.
Qed.

Lemma targetsOf_file (projectRoot : jsstring) (config : ExistingConfig) (t : PruneTarget) :
  In t (targetsOf projectRoot config) -> file t = filePath config.
Proof.
  destruct (targetsOf_cases projectRoot config)
    as [[_ H] | [_ [H | (u & H & _ & Hf)]]].
  - unfold targetsOf; rewrite H; simpl; intros [<- | []]; reflexivity.
  - rewrite H; intros [].
  - rewrite H; intros [<- | []]; exact Hf.
Qed.

Lemma targetsOf_length (projectRoot : jsstring) (config : ExistingConfig) :
  List.length (targetsOf projectRoot config) <= 1.
Proof.
  destruct (targetsOf_cases projectRoot config)
    as [[_ H] | [_ [H | (u & H & _)]]];
    [unfold targetsOf | |]; rewrite H; simpl; lia.
Qed.

Lemma fold_targets (projectRoot : jsstring) (configs : list ExistingConfig) :
  forall acc,
    fold_left (fun acc config =>
                 acc ++ fst (pruneConfig isAbsolute pathJoin glob projectRoot config))
              configs acc
    = acc ++ flat_map (targetsOf projectRoot) configs.
Proof.
  induction configs as [|c cs IH]; intros acc; simpl.
  - symmetry; apply app_nil_r.
  - rewrite IH, <- app_assoc; reflexivity.
Qed.

(** The candidates reported for the file [f]. *)
Definition reportedFor (f : jsstring) (targets : list PruneTarget) : list PruneTarget :=
  filter (fun t => JS.eqb (file t) f) targets.

Lemma reportedFor_other (projectRoot f : jsstring) (configs : list ExistingConfig) :
  ~ In f (map filePath configs) ->
  reportedFor f (flat_map (targetsOf projectRoot) configs) = [].
Proof.
  intros Hf; unfold reportedFor.
  induction configs as [|c cs IH]; simpl; [reflexivity|].
  rewrite filter_app, IH; [|intros H; apply Hf; right; exact H].
  rewrite app_nil_r.
  assert (Hc : filePath c <> f) by (intros H; apply Hf; left; exact H).
  pose proof (targetsOf_file projectRoot c) as Hfile.
  induction (targetsOf projectRoot c) as [|t ts IHt]; simpl; [reflexivity|].
  destruct (eqb_spec (file t) f) as [He|_].
  - exfalso; apply Hc; rewrite <- He; symmetry; apply Hfile; left; reflexivity.
  - apply IHt; intros u Hu; apply Hfile; right; exact Hu.
Qed.

Lemma reportedFor_once (projectRoot f : jsstring) (configs : list ExistingConfig) :
  NoDup (map filePath configs) ->
  List.length (reportedFor f (flat_map (targetsOf projectRoot) configs)) <= 1.
Proof.
  induction configs as [|c cs IH]; simpl; intros Hnd; [lia|].
  apply NoDup_cons_iff in Hnd; destruct Hnd as [Hc Hnd].
  unfold reportedFor in *; rewrite filter_app, length_app.
  destruct (eqb_spec (filePath c) f) as [He|Hne].
  - subst f. fold (reportedFor (filePath c) (flat_map (targetsOf projectRoot) cs)).
    rewrite (reportedFor_other projectRoot (filePath c) cs Hc); simpl.
    pose proof (filter_length_le (fun t => JS.eqb (file t) (filePath c))
                  (targetsOf projectRoot c)).
    pose proof (targetsOf_length projectRoot c). lia.
  - specialize (IH Hnd).
    assert (Hnone : filter (fun t => JS.eqb (file t) f) (targetsOf projectRoot c) = []).
    { pose proof (targetsOf_file projectRoot c) as Hfile.
      induction (targetsOf projectRoot c) as [|t ts IHt]; simpl; [reflexivity|].
      destruct (eqb_spec (file t) f) as [He|_].
      - exfalso; apply Hne; rewrite <- He; symmetry; apply Hfile; left; reflexivity.
      - apply IHt; intros u Hu; apply Hfile; right; exact Hu. }
    rewrite Hnone; simpl; exact IH.
Qed.

(** C5: for every config the analyzer reports at most one candidate, with
    the reasons in a fixed precedence. A config whose body, after the
    frontmatter and without whitespace, has fewer than 10 characters is
    reported with reason empty-content and its patterns are not resolved
    at all; only otherwise the dead-glob check runs and may report it with
    reason dead-globs. Over the configs of a scan, whose paths are all
    different, no file has more than one candidate, so no file has both
    reasons. *)
Theorem pruneConfig_first_match_wins (projectRoot : jsstring) (config : ExistingConfig) :
  List.length (targetsOf projectRoot config) <= 1
  /\ (List.length (meaningful config) < 10 ->
      pruneConfig isAbsolute pathJoin glob projectRoot config
        = ([emptyTarget config], [])
      /\ reason (emptyTarget config) = empty_content)
  /\ (10 <= List.length (meaningful config) ->
      pruneConfig isAbsolute pathJoin glob projectRoot config
        = (match fst (checkDeadGlobs isAbsolute pathJoin glob config projectRoot) with
           | Some t => [t]
           | None => []
           end,
           snd (checkDeadGlobs isAbsolute pathJoin glob config projectRoot))
      /\ forall t, In t (targetsOf projectRoot config) -> reason t = dead_globs)
  /\ (forall configs : list ExistingConfig,
        let targets :=
          pruneTargets (findPruneTargets isAbsolute pathJoin glob configs projectRoot) in
        targets = flat_map (targetsOf projectRoot) configs
        /\ (NoDup (map filePath configs) ->
            (forall f, List.length (reportedFor f targets) <= 1)
            /\ (forall t u, In t targets -> In u targets ->
                  file t = file u -> reason t = reason u))).
Proof.
  split; [apply targetsOf_length|].
  split; [|split].
  - intros Hlt.
    destruct (targetsOf_cases projectRoot config) as [[_ H] | [Hge _]]; [|lia].
    split; [exact H | reflexivity].
  - intros Hge; split.
    + unfold pruneConfig; rewrite checkEmptyContent_spec.
      destruct (Nat.ltb_spec (List.length (meaningful config)) 10); [lia|].
      destruct (checkDeadGlobs isAbsolute pathJoin glob config projectRoot)
        as [[t|] resolved]; reflexivity.
    + intros t Ht.
      destruct (targetsOf_cases projectRoot config)
        as [[Hlt _] | [_ [H | (u & H & Hr & _)]]]; [lia | |];
        rewrite H in Ht; simpl in Ht.
      * destruct Ht.
      * destruct Ht as [<- | []]; exact Hr.
  - intros configs targets; subst targets.
    assert (Hflat : pruneTargets (findPruneTargets isAbsolute pathJoin glob configs projectRoot)
                    = flat_map (targetsOf projectRoot) configs).
    { unfold findPruneTargets; simpl; rewrite fold_targets; reflexivity. }
    split; [exact Hflat|].
    intros Hnd; rewrite Hflat; split.
    + intros f; apply reportedFor_once, Hnd.
    + intros t u Ht Hu Hfile.
      pose proof (reportedFor_once projectRoot (file t) configs Hnd) as Hone.
      assert (Hin : forall x, In x (flat_map (targetsOf projectRoot) configs) ->
                file x = file t ->
                In x (reportedFor (file t) (flat_map (targetsOf projectRoot) configs))).
      { intros x Hx Hxf; unfold reportedFor; apply filter_In; split; [exact Hx|].
        rewrite Hxf; apply eqb_refl. }
      pose proof (Hin t Ht eq_refl) as Hti.
      pose proof (Hin u Hu (eq_sym Hfile)) as Hui.
      destruct (reportedFor (file t) (flat_map (targetsOf projectRoot) configs))
        as [|x [|y r]]; simpl in *; [destruct Hti | | lia].
      destruct Hti as [<- | []], Hui as [<- | []]; reflexivity.
Qed.

End PruneFacts.

(** The config of the test: frontmatter with a dead pattern and a body of
    two blanks. *)
Definition emptyRule : ExistingConfig :=
  mkConfig cursor (lit ".cursor/rules/empty.mdc") 70
    (Some (join [LF]
       [ lit "---"; lit "description: Empty rule"; lit "globs: **/*.xyz";
         lit "alwaysApply: false"; lit "---"; lit ""; lit "  " ]))
    true [].

Lemma pruneConfig_first_match_wins_witness :
  List.length (meaningful emptyRule) < 10
  /\ pruneConfig (fun _ => false) (fun a b => a ++ lit "/" ++ b) (fun _ => Some [])
       (lit "/repo") emptyRule
     = ([emptyTarget emptyRule], []).
Proof.
  assert (H : List.length (meaningful emptyRule) < 10) by (vm_compute; lia).
  split; [exact H|].
  destruct (pruneConfig_first_match_wins (fun _ => false)
              (fun a b => a ++ lit "/" ++ b) (fun _ => Some [])
              (lit "/repo") emptyRule) as (_ & Hempty & _).
  exact (proj1 (Hempty H)).
Defined.

(** The dead-glob scenario of the specification: a pattern for Rust files
    in a project without any. *)
Example pruneConfig_dead_globs :
  let rustRule :=
    mkConfig cursor (lit ".cursor/rules/rust.mdc") 140
      (Some (join [LF]
         [ lit "---"; lit "description: Rust rules"; lit "globs: **/*.rs";
           lit "alwaysApply: false"; lit "---"; lit "";
           lit "Use idiomatic Rust patterns and follow the Rust style guide." ]))
      true [] in
  map (fun t => (reason t, message t))
      (targetsOf (fun _ => false) (fun a b => a ++ lit "/" ++ b) (fun _ => Some [])
         (lit "/repo") rustRule)
  = [(dead_globs, lit "All glob patterns match 0 files: **/*.rs")].
Proof. vm_compute; reflexivity. Qed.

End PrunerFacts.

(* ================================================================= *)
(** ** The rule recommender *)

Module RuleFacts.

Import RuleRecommender.

(** The loop keeps the templates whose predicate holds, in their order. *)
Lemma recommendRulesFrom_filter (scan : ScanResult) (templates : list RuleTemplate.t) :
  recommendRulesFrom templates scan =
    map (ruleOf scan)
        (filter (fun t => RuleTemplate.shouldRecommend t scan) templates).
Proof.
  unfold recommendRulesFrom.
  assert (H : forall acc,
             fold_left
               (fun recommendations template =>
                  if negb (RuleTemplate.shouldRecommend template scan)
                  then recommendations
                  else recommendations ++ [ruleOf scan template])
               templates acc
             = acc ++ map (ruleOf scan)
                        (filter (fun t => RuleTemplate.shouldRecommend t scan) templates)).
  { induction templates as [|t ts IH]; intros acc; simpl.
    - symmetry; apply app_nil_r.
    - rewrite IH; destruct (RuleTemplate.shouldRecommend t scan); simpl;
        [rewrite <- app_assoc|]; reflexivity. }
  apply (H []).
Qed.

Lemma rule_ids_distinct : NoDup (map RuleTemplate.id RULE_TEMPLATES).
Proof.
  repeat constructor; simpl; intros H;
    repeat (destruct H as [H|H]; [discriminate H|]); exact H.
Qed.

Lemma NoDup_map_filter {T K : Type} (key : T -> K) (keep : T -> bool) :
  forall ts : list T, NoDup (map key ts) -> NoDup (map key (filter keep ts)).
Proof.
  intros ts; induction ts as [|t ts IH]; simpl; intros H; [constructor|].
  apply NoDup_cons_iff in H; destruct H as [Ht Hts].
  destruct (keep t); simpl; [constructor|]; auto.
  intros Hin; apply Ht.
  apply in_map_iff in Hin; destruct Hin as (y & <- & Hy).
  apply filter_In in Hy; apply in_map, Hy.
Qed.

(** What every template of the catalog generates. *)
Lemma catalog_details (scan : ScanResult) :
  Forall (fun t =>
            RuleDetails.appliesTo (RuleTemplate.generate t scan) <> []
            /\ RuleDetails.content (RuleTemplate.generate t scan) <> []
            /\ Forall (fun g => g <> []) (RuleDetails.appliesTo (RuleTemplate.generate t scan)))
         RULE_TEMPLATES.
Proof.
  unfold RULE_TEMPLATES.
  repeat constructor;
    unfold typescriptStrict, reactPatterns, testingConventions, gitConventions,
      errorHandling, prismaConventions, tailwindConventions, projectStructure;
    cbn [RuleTemplate.generate RuleDetails.appliesTo RuleDetails.content];
    cbv zeta;
    repeat match goal with
           | |- context [if ?b then _ else _] => destruct b
           end;
    try discriminate;
    try (intros H; vm_compute in H; discriminate H).
Qed.

(** X1: The rules that [recommendRules] returns: they are the rules of the
    templates whose predicate holds on the snapshot, in the order of the
    catalog and each once; the Git conventions are always among them;
    every rule applies to at least one glob, no glob is empty and no
    content is empty; priority, title and category are the ones of the
    catalog. *)
Theorem recommendRules_catalog_order (scan : ScanResult) :
  recommendRules scan =
    map (ruleOf scan)
        (filter (fun t => RuleTemplate.shouldRecommend t scan) RULE_TEMPLATES)
  /\ NoDup (map RuleRecommendation.id (recommendRules scan))
  /\ In (lit "git-conventions") (map RuleRecommendation.id (recommendRules scan))
  /\ 1 <= List.length (recommendRules scan) <= 8
  /\ Forall (fun r =>
               RuleRecommendation.appliesTo r <> []
               /\ Forall (fun g => g <> []) (RuleRecommendation.appliesTo r)
               /\ RuleRecommendation.content r <> []
               /\ exists t, In t RULE_TEMPLATES
                    /\ RuleTemplate.shouldRecommend t scan = true
                    /\ RuleRecommendation.id r = RuleTemplate.id t
                    /\ RuleRecommendation.title r = RuleTemplate.title t
                    /\ RuleRecommendation.priority r = RuleTemplate.priority t
                    /\ RuleRecommendation.category r = RuleTemplate.category t)
            (recommendRules scan).
Proof.
  assert (Heq := recommendRulesFrom_filter scan RULE_TEMPLATES).
  fold (recommendRules scan) in Heq.
  split; [exact Heq|].
  assert (Hgit : In (lit "git-conventions")
                   (map RuleRecommendation.id (recommendRules scan))).
  { rewrite Heq, map_map; apply in_map_iff; exists gitConventions; split;
      [reflexivity|].
    apply filter_In; split; [|reflexivity].
    unfold RULE_TEMPLATES; simpl; tauto. }
  split; [|split; [exact Hgit | split]].
  - rewrite Heq, map_map.
    apply (NoDup_map_filter (fun t => RuleRecommendation.id (ruleOf scan t))),
      rule_ids_distinct.
  - split.
    + destruct (recommendRules scan); [destruct Hgit | simpl; lia].
    + rewrite Heq, length_map.
      pose proof (filter_length_le (fun t => RuleTemplate.shouldRecommend t scan)
                    RULE_TEMPLATES) as H.
      exact H.
  - rewrite Heq; apply Forall_forall; intros r Hr.
    apply in_map_iff in Hr; destruct Hr as (t & <- & Ht).
    apply filter_In in Ht; destruct Ht as [Ht Hs].
    pose proof (catalog_details scan) as Hd.
    rewrite Forall_forall in Hd; destruct (Hd t Ht) as (Ha & Hc & Hg).
    repeat split; try assumption.
    exists t; repeat split; assumption.
Qed.

End RuleFacts.

(* ================================================================= *)
(** ** The agent recommender: the shape of its result *)

Module RecommenderShape.

Import Recommender RecommenderFacts.

Lemma Collected_made (scan : ScanResult) ts rs :
  Collected scan ts rs ->
  forall r, In r rs ->
    exists t c d,
      In t ts /\ r = recommendation t c d
      /\ AgentTemplate.shouldRecommend t scan = Ok c /\ (40 <= c)%Z
      /\ AgentTemplate.generate t scan = Ok d.
Proof.
  induction 1 as [|t ts rs c _ _ _ IH|t ts rs c d Hs Hc Hg _ IH]; intros r Hr.
  - destruct Hr.
  - destruct (IH r Hr) as (u & c' & d' & Hu & H); exists u, c', d'; split;
      [right|]; assumption.
  - destruct Hr as [<-|Hr].
    + exists t, c, d; repeat split; try assumption; left; reflexivity.
    + destruct (IH r Hr) as (u & c' & d' & Hu & H); exists u, c', d'; split;
        [right|]; assumption.
Qed.

Lemma Collected_keeps (scan : ScanResult) ts rs :
  Collected scan ts rs ->
  forall t c, In t ts ->
    AgentTemplate.shouldRecommend t scan = Ok c -> (40 <= c)%Z ->
    In (AgentTemplate.id t) (map AgentRecommendation.id rs).
Proof.
  induction 1 as [|u ts rs c' Hs Hc _ IH|u ts rs c' d Hs Hc Hg _ IH];
    intros t c Ht Hsc Hge.
  - destruct Ht.
  - destruct Ht as [->|Ht]; [|eapply IH; eassumption].
    rewrite Hs in Hsc; injection Hsc as ->; lia.
  - destruct Ht as [->|Ht]; [left; reflexivity | right; eapply IH; eassumption].
Qed.

Lemma Collected_distinct (scan : ScanResult) ts rs :
  Collected scan ts rs ->
  NoDup (map AgentTemplate.id ts) -> NoDup (map AgentRecommendation.id rs).
Proof.
  induction 1 as [|t ts rs c _ _ _ IH|t ts rs c d _ _ _ Hc IH]; simpl; intros Hnd.
  - constructor.
  - apply NoDup_cons_iff in Hnd; apply IH, Hnd.
  - apply NoDup_cons_iff in Hnd; destruct Hnd as [Ht Hnd].
    constructor; [|apply IH, Hnd].
    intros Hin; apply Ht.
    apply in_map_iff in Hin; destruct Hin as (r & <- & Hr).
    apply (Collected_ids scan ts rs Hc r Hr).
Qed.

Lemma Collected_count (scan : ScanResult) ts rs :
  Collected scan ts rs -> List.length rs <= List.length ts.
Proof. induction 1; simpl; lia. Qed.

Lemma insertSorted_perm {A : Type} (cmp : A -> A -> Z) (x : A) (l : list A) :
  Permutation (insertSorted cmp x l) (x :: l).
Proof.
  induction l as [|y l IH]; simpl; [reflexivity|].
  destruct (cmp x y <=? 0)%Z; [reflexivity|].
  rewrite IH; apply perm_swap.
Qed.

(** The sort rearranges its input. *)
Lemma sortBy_perm {A : Type} (cmp : A -> A -> Z) (l : list A) :
  Permutation (sortBy cmp l) l.
Proof.
  induction l as [|x l IH]; simpl; [reflexivity|].
  rewrite insertSorted_perm, IH; reflexivity.
Qed.

(** The scores of the catalog: the code reviewer scores 90, every other
    template at most 88. *)
Lemma catalog_scores (scan : ScanResult) (t : AgentTemplate.t) (c : Z) :
  In t AGENT_TEMPLATES ->
  AgentTemplate.shouldRecommend t scan = Ok c ->
  (t = codeReviewer /\ c = 90%Z) \/ (t <> codeReviewer /\ (0 <= c <= 88)%Z).
Proof.
  unfold AGENT_TEMPLATES; intros Ht.
  repeat (destruct Ht as [<-|Ht]); [..|destruct Ht];
    unfold codeReviewer, testWriter, dbExpert, securityAuditor,
      componentDesigner, apiDeveloper, devopsHelper, perfOptimizer, docsWriter;
    cbn [AgentTemplate.shouldRecommend]; cbv zeta;
    repeat match goal with
           | |- context [if ?b then _ else _] => destruct b
           end;
    intros [= <-];
    try (left; split; reflexivity);
    (right; split; [intros H; apply (f_equal AgentTemplate.id) in H; discriminate H
                   | lia]).
Qed.

Lemma always_recommended (scan : ScanResult) :
  (exists c, AgentTemplate.shouldRecommend codeReviewer scan = Ok c /\ (40 <= c)%Z)
  /\ (exists c, AgentTemplate.shouldRecommend testWriter scan = Ok c /\ (40 <= c)%Z)
  /\ (exists c, AgentTemplate.shouldRecommend securityAuditor scan = Ok c /\ (40 <= c)%Z).
Proof.
  repeat split;
    unfold codeReviewer, testWriter, securityAuditor;
    cbn [AgentTemplate.shouldRecommend]; cbv zeta;
    repeat match goal with
           | |- context [if ?b then _ else _] => destruct b
           end;
    eexists; (split; [reflexivity | lia]).
Qed.

(** X2: The result of [recommendAgents] on every snapshot: between three and
    nine recommendations with pairwise different ids and confidences
    between 40 and 90; the code reviewer comes first, with confidence 90,
    and the test writer and the security auditor are always present. *)
Theorem recommendAgents_shape (scan : ScanResult) :
  exists first rest,
    recommendAgents scan = Ok (first :: rest)
    /\ AgentRecommendation.id first = lit "code-reviewer"
    /\ AgentRecommendation.confidence first = 90%Z
    /\ NoDup (map AgentRecommendation.id (first :: rest))
    /\ In (lit "test-writer") (map AgentRecommendation.id rest)
    /\ In (lit "security-auditor") (map AgentRecommendation.id rest)
    /\ 3 <= List.length (first :: rest) <= 9
    /\ Forall (fun r => (40 <= AgentRecommendation.confidence r <= 88)%Z) rest.
Proof.
  destruct (recommendAgents_total scan) as (rs & _ & Hc & Hr).
  pose proof (sortBy_perm byConfidence rs) as Hperm.
  pose proof (sortBy_ranked (inOrderOf AGENT_TEMPLATES) rs
                (Collected_in_order scan _ _ Hc)) as Hranked.
  destruct (always_recommended scan)
    as ((c0 & Hs0 & Hc0) & (c1 & Hs1 & Hc1) & (c2 & Hs2 & Hc2)).
  assert (Hin : forall t c, In t AGENT_TEMPLATES ->
            AgentTemplate.shouldRecommend t scan = Ok c -> (40 <= c)%Z ->
            In (AgentTemplate.id t)
               (map AgentRecommendation.id (sortBy byConfidence rs))).
  { intros t c Ht Hs Hge.
    eapply Permutation_in;
      [apply Permutation_map, Permutation_sym, Hperm|].
    eapply Collected_keeps; eassumption. }
  assert (Hreviewer := Hin codeReviewer c0 ltac:(simpl; tauto) Hs0 Hc0).
  assert (Hwriter := Hin testWriter c1 ltac:(simpl; tauto) Hs1 Hc1).
  assert (Hauditor := Hin securityAuditor c2 ltac:(simpl; tauto) Hs2 Hc2).
  assert (Hnd : NoDup (map AgentRecommendation.id (sortBy byConfidence rs))).
  { eapply Permutation_NoDup;
      [apply Permutation_map, Permutation_sym, Hperm|].
    apply (Collected_distinct scan _ _ Hc), catalog_ids_distinct. }
  assert (Hmade : forall r, In r (sortBy byConfidence rs) ->
            (AgentRecommendation.id r = lit "code-reviewer"
             /\ AgentRecommendation.confidence r = 90%Z)
            \/ (AgentRecommendation.id r <> lit "code-reviewer"
                /\ (40 <= AgentRecommendation.confidence r <= 88)%Z)).
  { intros r Hrin.
    apply (Permutation_in _ Hperm) in Hrin.
    destruct (Collected_made scan _ _ Hc r Hrin) as (t & c & d & Ht & -> & Hs & Hge & _).
    destruct (catalog_scores scan t c Ht Hs) as [[-> ->] | [Hne Hle]].
    - left; split; reflexivity.
    - right; split; [|simpl; lia].
      intros Hid; apply Hne.
      apply (same_id_same_template AGENT_TEMPLATES catalog_ids_distinct);
        [exact Ht | simpl; tauto | exact Hid]. }
  destruct (sortBy byConfidence rs) as [|first rest] eqn:Hsorted;
    [destruct Hreviewer|].
  exists first, rest; split; [exact Hr|].
  assert (Hfirst : AgentRecommendation.id first = lit "code-reviewer"
                   /\ AgentRecommendation.confidence first = 90%Z).
  { destruct (Hmade first (or_introl eq_refl)) as [H|[Hne Hle]]; [exact H|].
    exfalso.
    destruct Hreviewer as [Hid|Hid]; [apply Hne; exact Hid|].
    apply in_map_iff in Hid; destruct Hid as (r & Hid & Hrin).
    destruct (Hmade r (or_intror Hrin)) as [[_ H90]|[Hne' _]]; [|apply Hne', Hid].
    apply StronglySorted_inv in Hranked; destruct Hranked as [_ Hall].
    rewrite Forall_forall in Hall; destruct (Hall r Hrin) as [H | [H _]]; lia. }
  destruct Hfirst as [Hid H90].
  assert (Hrest : forall x, x <> lit "code-reviewer" ->
            In x (map AgentRecommendation.id (first :: rest)) ->
            In x (map AgentRecommendation.id rest)).
  { intros x Hx [H|H]; [exfalso; apply Hx; rewrite <- H; exact Hid | exact H]. }
  repeat split; try assumption.
  - apply Hrest; [discriminate | exact Hwriter].
  - apply Hrest; [discriminate | exact Hauditor].
  - assert (Hincl : incl [lit "code-reviewer"; lit "test-writer"; lit "security-auditor"]
                      (map AgentRecommendation.id (first :: rest))).
    { intros x [<-|[<-|[<-|[]]]]; assumption. }
    apply NoDup_incl_length in Hincl.
    + rewrite length_map in Hincl; exact Hincl.
    + repeat constructor; simpl; intros H;
        repeat (destruct H as [H|H]; [discriminate H|]); exact H.
  - pose proof (Permutation_length Hperm) as Hlen.
    pose proof (Collected_count scan _ _ Hc) as Hcount.
    change (List.length AGENT_TEMPLATES) with 9 in Hcount.
    rewrite Hlen; exact Hcount.
  - apply Forall_forall; intros r Hrin.
    destruct (Hmade r (or_intror Hrin)) as [[Hid' _]|[_ H]]; [|exact H].
    exfalso. apply NoDup_cons_iff in Hnd; destruct Hnd as [Hnot _].
    apply Hnot; simpl; rewrite Hid, <- Hid'; apply in_map, Hrin.
Qed.

(** What every template of the catalog generates. *)
Lemma catalog_generates (scan : ScanResult) (t : AgentTemplate.t) (d : AgentDetails.t) :
  In t AGENT_TEMPLATES ->
  AgentTemplate.generate t scan = Ok d ->
  5 <= List.length (AgentDetails.triggers d)
  /\ Forall (fun g => g <> []) (AgentDetails.triggers d)
  /\ List.length (AgentDetails.capabilities d) = 4
  /\ AgentDetails.description d <> []
  /\ AgentTemplate.name t <> [].
Proof.
  unfold AGENT_TEMPLATES; intros Ht.
  repeat (destruct Ht as [<-|Ht]); [..|destruct Ht];
    unfold codeReviewer, testWriter, dbExpert, securityAuditor,
      componentDesigner, apiDeveloper, devopsHelper, perfOptimizer, docsWriter;
    cbn [AgentTemplate.generate AgentTemplate.name]; cbv zeta;
    intros [= <-];
    cbn [AgentDetails.triggers AgentDetails.capabilities AgentDetails.description];
    (split; [simpl; lia|]);
    (split; [repeat constructor; discriminate|]);
    (split; [reflexivity|]);
    split; discriminate.
Qed.

Lemma estimateTokens_positive (s : jsstring) : s <> [] -> 0 < estimateTokens s.
Proof.
  intros Hs; unfold estimateTokens, CHARS_PER_TOKEN.
  destruct s as [|c s]; [congruence|]; simpl List.length.
  apply Nat.div_str_pos; lia.
Qed.

(** X3: Every recommendation that [recommendAgents] returns can be routed: it
    has at least five triggers, none of them empty, four capabilities, a
    name and a description that are not empty, and a positive token
    estimate, which is the estimate of the description followed by the
    capabilities joined with blanks. *)
Theorem recommendAgents_emits_complete_records (scan : ScanResult) :
  exists recs,
    recommendAgents scan = Ok recs
    /\ Forall (fun r =>
                 5 <= List.length (AgentRecommendation.triggers r)
                 /\ Forall (fun g => g <> []) (AgentRecommendation.triggers r)
                 /\ List.length (AgentRecommendation.capabilities r) = 4
                 /\ AgentRecommendation.name r <> []
                 /\ AgentRecommendation.description r <> []
                 /\ AgentRecommendation.estimatedTokens r
                    = estimateTokens (AgentRecommendation.description r
                                        ++ join (lit " ") (AgentRecommendation.capabilities r))
                 /\ 0 < AgentRecommendation.estimatedTokens r)
              recs.
Proof.
  destruct (recommendAgents_total scan) as (rs & _ & Hc & Hr).
  exists (sortBy byConfidence rs); split; [exact Hr|].
  apply Forall_sortBy, Forall_forall; intros r Hrin.
  destruct (Collected_made scan _ _ Hc r Hrin) as (t & c & d & Ht & -> & _ & _ & Hg).
  destruct (catalog_generates scan t d Ht Hg) as (H5 & Hne & H4 & Hd & Hn).
  cbn [recommendation AgentRecommendation.triggers AgentRecommendation.capabilities
       AgentRecommendation.name AgentRecommendation.description
       AgentRecommendation.estimatedTokens].
  repeat split; try assumption.
  apply estimateTokens_positive.
  destruct (AgentDetails.description d); [congruence | discriminate].
Qed.

(** X4: The estimate is the number of characters divided by four, rounded up:
    it never counts fewer than a quarter of the characters and overshoots
    by less than one token; the estimate of a concatenation is at most the
    sum of the estimates and at least that sum less one. *)
Theorem estimateTokens_is_a_ceiling (a b : jsstring) :
  List.length a <= 4 * estimateTokens a < List.length a + 4
  /\ (estimateTokens a = 0 <-> a = [])
  /\ estimateTokens (a ++ b) <= estimateTokens a + estimateTokens b
  /\ estimateTokens a + estimateTokens b <= estimateTokens (a ++ b) + 1.
Proof.
  unfold estimateTokens, CHARS_PER_TOKEN; rewrite length_app.
  set (n := List.length a); set (m := List.length b).
  change (4 - 1) with 3.
  pose proof (Nat.div_mod_eq (n + 3) 4) as Hn.
  pose proof (Nat.mod_upper_bound (n + 3) 4 ltac:(lia)) as Hn'.
  pose proof (Nat.div_mod_eq (m + 3) 4) as Hm.
  pose proof (Nat.mod_upper_bound (m + 3) 4 ltac:(lia)) as Hm'.
  pose proof (Nat.div_mod_eq (n + m + 3) 4) as Hnm.
  pose proof (Nat.mod_upper_bound (n + m + 3) 4 ltac:(lia)) as Hnm'.
  repeat split; try lia.
  - intros H0. destruct a; [reflexivity|]. subst n; simpl in *; lia.
  - intros ->; reflexivity.
Qed.

End RecommenderShape.

(* ================================================================= *)
(** ** The Windsurf rules file: what it depends on, its size in bytes, and
    the validator *)

Module WindsurfMore.

Import Windsurf WindsurfFacts.

Lemma flat_map_through {A B C : Type} (g : A -> B) (f : B -> list C) (l l' : list A) :
  map g l = map g l' ->
  flat_map (fun x => f (g x)) l = flat_map (fun x => f (g x)) l'.
Proof.
  intros H; rewrite <- !(FixerFacts.flat_map_map f g), H; reflexivity.
Qed.

Lemma map_through {A B C : Type} (g : A -> B) (f : B -> C) (l l' : list A) :
  map g l = map g l' -> map (fun x => f (g x)) l = map (fun x => f (g x)) l'.
Proof. intros H; rewrite <- !(map_map g f), H; reflexivity. Qed.

Lemma firstn_nonempty {A : Type} (n : nat) (l : list A) :
  (0 <? List.length (firstn (S n) l)) = (0 <? List.length l).
Proof. destruct l; reflexivity. Qed.

(** What a rules file shows of a rule and of an agent. *)
Definition shownRules (rec : RecommendationResult) : list jsstring :=
  map RuleRecommendation.content
      (filter (fun r => Priority_eqb (RuleRecommendation.priority r) high) (rules rec)).

Definition shownAgents (rec : RecommendationResult) : list (jsstring * jsstring) :=
  map (fun a => (AgentRecommendation.name a,
                 sliceTo 120 (AgentRecommendation.description a)))
      (firstn 5 (agents rec)).

Definition shownStack (scan : ScanResult) : list jsstring * list jsstring :=
  (map FrameworkInfo.name (frameworks (techStack scan)),
   map LanguageInfo.name (firstn 2 (languages (techStack scan)))).

(** X5: The Windsurf output depends on the recommendations only through the
    contents of the rules of high priority and through the names and the
    first 120 characters of the descriptions of the first five agents, and
    on the snapshot only through the project name, the names of the
    frameworks and the names of the first two languages: rules of medium
    or low priority, later agents and all other fields never change it. *)
Theorem generate_depends_only_on_shown (scan scan' : ScanResult)
    (rec rec' : RecommendationResult) :
  projectName scan = projectName scan' ->
  shownStack scan = shownStack scan' ->
  shownRules rec = shownRules rec' ->
  shownAgents rec = shownAgents rec' ->
  generate scan rec = generate scan' rec'.
Proof.
  unfold shownStack, shownRules, shownAgents; intros Hname Hstack Hr Ha.
  assert (Hf := f_equal fst Hstack); assert (Hl := f_equal snd Hstack).
  cbn [fst snd] in Hf, Hl.
  assert (Hfile : generateWindsurfRules scan rec = generateWindsurfRules scan' rec').
  { unfold generateWindsurfRules.
    rewrite Hname, Hf, Hl.
    rewrite (flat_map_through RuleRecommendation.content (fun c => [c; []]) _ _ Hr).
    rewrite <- (firstn_nonempty 4 (agents rec)), <- (firstn_nonempty 4 (agents rec')).
    assert (Hlen : List.length (firstn 5 (agents rec))
                   = List.length (firstn 5 (agents rec')))
      by (apply (f_equal (@List.length _)) in Ha; rewrite !length_map in Ha;
          exact Ha).
    rewrite Hlen.
    assert (Hm : map (fun agent =>
                        lit "- **" ++ AgentRecommendation.name agent ++ lit "**: "
                          ++ sliceTo 120 (AgentRecommendation.description agent))
                     (firstn 5 (agents rec))
                 = map (fun agent =>
                          lit "- **" ++ AgentRecommendation.name agent ++ lit "**: "
                            ++ sliceTo 120 (AgentRecommendation.description agent))
                       (firstn 5 (agents rec')))
      by exact (map_through
                  (fun a => (AgentRecommendation.name a,
                             sliceTo 120 (AgentRecommendation.description a)))
                  (fun p => lit "- **" ++ fst p ++ lit "**: " ++ snd p) _ _ Ha).
    rewrite Hm; reflexivity. }
  unfold generate; rewrite Hfile; reflexivity.
Qed.

(** Two recommendation sets that differ in a rule of medium priority and in
    a sixth agent. *)
Definition sampleAgent (n : jsstring) : AgentRecommendation.t :=
  AgentRecommendation.mk n n (lit "Review code.") 90 [] [] [] [] 3 AgentCategory.review.

Definition sampleRule (p : Priority) (c : jsstring) : RuleRecommendation.t :=
  RuleRecommendation.mk (lit "r") (lit "R") c p [] [lit "**/*"] (lit "workflow").

Definition fiveAgents : list AgentRecommendation.t :=
  map sampleAgent [lit "a"; lit "b"; lit "c"; lit "d"; lit "e"].

Definition shortSet : RecommendationResult :=
  mkRecommendationResult fiveAgents [sampleRule high (lit "## High")] [] 0 0.

Definition longSet : RecommendationResult :=
  mkRecommendationResult (fiveAgents ++ [sampleAgent (lit "f")])
    [sampleRule medium (lit "## Medium"); sampleRule high (lit "## High")] [] 0 0.

Lemma generate_depends_only_on_shown_witness :
  generate RecommenderFacts.tieScan shortSet = generate RecommenderFacts.tieScan longSet.
Proof.
  apply generate_depends_only_on_shown; reflexivity.
Defined.

(** *** Bytes *)

Lemma byteLength_bounds_both (s : jsstring) :
  (List.length s <= byteLength s <= 3 * List.length s)
  /\ (forall c, List.length (c :: s) <= byteLength (c :: s) <= 3 * List.length (c :: s)).
Proof.
  induction s as [|d s [IH IHc]].
  - split; [simpl; lia|].
    intros c; simpl; destruct (N.ltb c 128); [simpl; lia|].
    destruct (N.ltb c 2048); simpl; lia.
  - split; [apply IHc|].
    intros c. specialize (IHc d).
    change (byteLength (c :: d :: s)) with
      (if N.ltb c 128 then 1 + byteLength (d :: s)
       else if N.ltb c 2048 then 2 + byteLength (d :: s)
       else if isHigh c && isLow d then 4 + byteLength s
       else 3 + byteLength (d :: s)).
    simpl List.length in *.
    destruct (N.ltb c 128); [lia|].
    destruct (N.ltb c 2048); [lia|].
    destruct (isHigh c && isLow d); lia.
Qed.

(** A string takes at least one byte and at most three bytes per code
    unit. *)
Lemma byteLength_bounds (s : jsstring) :
  List.length s <= byteLength s <= 3 * List.length s.
Proof. apply byteLength_bounds_both. Qed.

Lemma generateWindsurfRules_sizeBytes (scan : ScanResult) (rec : RecommendationResult) :
  sizeBytes (generateWindsurfRules scan rec)
    = byteLength (content (generateWindsurfRules scan rec)).
Proof. reflexivity. Qed.

Lemma enforceLimit_sizeBytes (f : GeneratedFile) :
  sizeBytes f = byteLength (content f) ->
  sizeBytes (fst (enforceLimit f)) = byteLength (content (fst (enforceLimit f))).
Proof.
  intros H; unfold enforceLimit.
  destruct (N.ltb WINDSURF_CHAR_LIMIT (len (content f))); [reflexivity | exact H].
Qed.

(** X6: The file that the Windsurf adapter returns is consistent and small:
    its path is [.windsurfrules], its [sizeBytes] is the UTF-8 length of
    its content, truncated or not, and lies between the number of
    characters and three times that number, hence never above 18000; the
    output holds this one file, and its [totalSize] is the number of
    characters. *)
Theorem generate_size_in_bytes (scan : ScanResult) (rec : RecommendationResult) :
  exists file,
    files (generate scan rec) = [file]
    /\ path file = lit ".windsurfrules"
    /\ sizeBytes file = byteLength (content file)
    /\ totalSize (generate scan rec) = len (content file)
    /\ (len (content file) <= N.of_nat (sizeBytes file))%N
    /\ (N.of_nat (sizeBytes file) <= 3 * len (content file))%N
    /\ (N.of_nat (sizeBytes file) <= 18000)%N
    /\ sizeUnit (generate scan rec) = chars.
Proof.
  unfold generate.
  pose proof (enforceLimit_bounded (generateWindsurfRules scan rec)) as Hb.
  pose proof (enforceLimit_sizeBytes (generateWindsurfRules scan rec)
                (generateWindsurfRules_sizeBytes scan rec)) as Hs.
  assert (Hp : path (fst (enforceLimit (generateWindsurfRules scan rec)))
               = lit ".windsurfrules").
  { unfold enforceLimit.
    destruct (N.ltb WINDSURF_CHAR_LIMIT _); reflexivity. }
  destruct (enforceLimit (generateWindsurfRules scan rec)) as [file ws];
    cbn [fst] in *.
  exists file; cbn [files totalSize sizeUnit].
  pose proof (byteLength_bounds (content file)) as Hbytes.
  unfold len, WINDSURF_CHAR_LIMIT in *.
  repeat split; try assumption; try reflexivity; rewrite Hs; lia.
Qed.

(** *** The validator on the generated file *)

(** The config that a scan finds for a generated file once it is written. *)
Definition written (tool : ToolTarget) (file : GeneratedFile) : ExistingConfig :=
  mkConfig tool (path file) (N.of_nat (sizeBytes file)) (Some (content file)) true [].

(** X7: The validator accepts what the Windsurf adapter writes: the rules file
    of every output passes [validateWindsurfConfig], while the content
    before the enforcement of the limit would not pass when it is longer
    than 6000 characters. *)
Theorem generated_rules_pass_validation (scan : ScanResult) (rec : RecommendationResult) :
  Forall (fun file => Validators.validateWindsurfConfig (written windsurf file) = [])
         (files (generate scan rec))
  /\ ((6000 < len (content (generateWindsurfRules scan rec)))%N ->
      exists issue,
        Validators.validateWindsurfConfig
          (written windsurf (generateWindsurfRules scan rec)) = [issue]
        /\ Validator.severity issue = Validator.error).
Proof.
  split.
  - unfold generate.
    pose proof (enforceLimit_bounded (generateWindsurfRules scan rec)) as Hb.
    destruct (enforceLimit (generateWindsurfRules scan rec)) as [file ws];
      cbn [fst files] in *.
    constructor; [|constructor].
    unfold Validators.validateWindsurfConfig, written, contentOf;
      cbn [filePath Types.content].
    destruct (JS.eqb (path file) (lit ".windsurfrules")); [|reflexivity].
    unfold Validators.WINDSURF_MAX_CONTEXT_SIZE, WINDSURF_CHAR_LIMIT in *.
    destruct (N.ltb_spec 6000 (len (content file))); [lia | reflexivity].
  - intros Hlong.
    unfold Validators.validateWindsurfConfig, written, contentOf;
      cbn [filePath Types.content].
    change (path (generateWindsurfRules scan rec)) with (lit ".windsurfrules").
    rewrite eqb_refl.
    unfold Validators.WINDSURF_MAX_CONTEXT_SIZE.
    destruct (N.ltb_spec 6000 (len (content (generateWindsurfRules scan rec))));
      [|lia].
    eexists; split; reflexivity.
Qed.

End WindsurfMore.

(* ================================================================= *)
(** ** Frontmatter: what a found block is made of, and the lookup of a key *)

Module FrontmatterShape.

Import FrontmatterFacts.

Section Inversion.
Variable A : Type.

Lemma Cls_inv (p : char -> bool) (k : cont A) (x : A) prev s caps :
  rmatch (Cls p) prev s caps k = Some x ->
  exists c s', s = c :: s' /\ p c = true /\ k (Some c) s' caps = Some x.
Proof.
  simpl; destruct s as [|c s']; [discriminate|].
  destruct (p c) eqn:Hp; [|discriminate].
  intros H; exists c, s'; auto.
Qed.

Lemma Opt_Cls_inv (p : char -> bool) (k : cont A) (x : A) prev s caps :
  rmatch (Opt (Cls p)) prev s caps k = Some x ->
  (exists c s', s = c :: s' /\ p c = true /\ k (Some c) s' caps = Some x)
  \/ k prev s caps = Some x.
Proof.
  cbn [rmatch].
  destruct s as [|c s']; [simpl; auto|].
  destruct (p c) eqn:Hp; [|simpl; auto].
  destruct (k (Some c) s' caps) as [y|] eqn:Hk; simpl.
  - intros [= ->]; left; exists c, s'; auto.
  - auto.
Qed.

Lemma starLazy_inv (p : char -> bool) (k : cont A) (x : A) :
  forall s prev caps,
    starLazy p k prev s caps = Some x ->
    exists l s' prev', s = l ++ s' /\ k prev' s' caps = Some x.
Proof.
  induction s as [|c s IH]; intros prev caps; simpl.
  - destruct (k prev [] caps) as [y|] eqn:Hk; simpl; [|discriminate].
    intros [= ->]; exists [], [], prev; auto.
  - destruct (k prev (c :: s) caps) as [y|] eqn:Hk; simpl.
    + intros [= ->]; exists [], (c :: s), prev; auto.
    + destruct (p c); [|discriminate].
      intros H; destruct (IH _ _ H) as (l & s' & prev' & -> & Hk').
      exists (c :: l), s', prev'; auto.
Qed.

Lemma starGreedy_inv (p : char -> bool) (k : cont A) (x : A) :
  forall s prev caps,
    starGreedy p k prev s caps = Some x ->
    exists l s' prev', s = l ++ s' /\ k prev' s' caps = Some x.
Proof.
  induction s as [|c s IH]; intros prev caps; simpl.
  - intros H; exists [], [], prev; auto.
  - destruct (p c).
    + destruct (starGreedy p k (Some c) s caps) as [y|] eqn:Hs; simpl.
      * intros [= ->]; destruct (IH _ _ Hs) as (l & s' & prev' & -> & Hk).
        exists (c :: l), s', prev'; auto.
      * intros H; exists [], (c :: s), prev; auto.
    + intros H; exists [], (c :: s), prev; auto.
Qed.

Lemma firstn_app_exact (l s : jsstring) :
  firstn (List.length (l ++ s) - List.length s) (l ++ s) = l.
Proof.
  rewrite length_app, Nat.add_sub, firstn_app, Nat.sub_diag, firstn_all; simpl.
  apply app_nil_r.
Qed.

Lemma Seq_Cls_inv (p : char -> bool) (r : re) (k : cont A) (x : A) prev s caps :
  rmatch (Seq (Cls p) r) prev s caps k = Some x ->
  exists c s', s = c :: s' /\ p c = true /\ rmatch r (Some c) s' caps k = Some x.
Proof.
  intros H.
  exact (Cls_inv p (fun prev' s' caps' => rmatch r prev' s' caps' k)
           x prev s caps H).
Qed.

Lemma Seq_Opt_inv (p : char -> bool) (r : re) (k : cont A) (x : A) prev s caps :
  rmatch (Seq (Opt (Cls p)) r) prev s caps k = Some x ->
  (exists c s', s = c :: s' /\ p c = true /\ rmatch r (Some c) s' caps k = Some x)
  \/ rmatch r prev s caps k = Some x.
Proof.
  intros H.
  exact (Opt_Cls_inv p (fun prev' s' caps' => rmatch r prev' s' caps' k)
           x prev s caps H).
Qed.

Lemma Seq_GrpLazy_inv (p : char -> bool) (r : re) (k : cont A) (x : A)
    prev s caps :
  rmatch (Seq (Grp (StarLazy p)) r) prev s caps k = Some x ->
  exists l s' prev', s = l ++ s' /\ rmatch r prev' s' (caps ++ [l]) k = Some x.
Proof.
  cbn [rmatch]; intros H.
  apply starLazy_inv in H; destruct H as (l & s' & prev' & -> & H).
  rewrite firstn_app_exact in H.
  exists l, s', prev'; auto.
Qed.

Lemma GrpStar_Eol_inv (p : char -> bool) (k : cont A) (x : A) prev s caps :
  rmatch (Seq (Grp (Star p)) (Eol false)) prev s caps k = Some x ->
  exists prev', k prev' [] (caps ++ [s]) = Some x.
Proof.
  cbn [rmatch]; intros H.
  apply starGreedy_inv in H; destruct H as (l & s' & prev' & -> & H).
  destruct s' as [|c s']; [|discriminate H]; cbn [atEol] in H.
  cbn [List.length] in H; rewrite Nat.sub_0_r, firstn_all in H.
  rewrite app_nil_r in *; exists prev'; exact H.
Qed.

End Inversion.

Lemma eqb_char (a b : char) : N.eqb a b = true -> b = a.
Proof. intros H; apply N.eqb_eq in H; auto. Qed.

Lemma isChr_char (a : ascii) (c : char) : isChr a c = true -> c = chr a.
Proof. unfold isChr; intros H; apply N.eqb_eq in H; exact H. Qed.

(** A line end before or after the header: LF or CR LF. *)
Definition lineEnd (e : jsstring) : Prop := e = [LF] \/ e = [CR; LF].

(** What may follow the closing delimiter before the body: nothing, CR,
    LF, or CR LF. *)
Definition closingEnd (e : jsstring) : Prop :=
  e = [] \/ e = [CR] \/ e = [LF] \/ e = [CR; LF].

Lemma delimiter_inv (A : Type) (r : re) (k : cont A) (x : A) prev s caps :
  rmatch (Seq (Cls (isChr "-")) (Seq (Cls (isChr "-")) (Seq (Cls (isChr "-")) r)))
    prev s caps k = Some x ->
  exists s', s = lit "---" ++ s' /\ rmatch r (Some (chr "-")) s' caps k = Some x.
Proof.
  intros H.
  apply Seq_Cls_inv in H; destruct H as (c1 & s1 & -> & Hc1 & H).
  apply Seq_Cls_inv in H; destruct H as (c2 & s2 & -> & Hc2 & H).
  apply Seq_Cls_inv in H; destruct H as (c3 & s3 & -> & Hc3 & H).
  apply isChr_char in Hc1, Hc2, Hc3; subst c1 c2 c3.
  exists s3; auto.
Qed.

Lemma lineEnd_inv (A : Type) (r : re) (k : cont A) (x : A) prev s caps :
  rmatch (Seq (Opt (Cls (N.eqb CR))) (Seq (Cls (N.eqb LF)) r)) prev s caps k
    = Some x ->
  exists e s', s = e ++ s' /\ lineEnd e
               /\ rmatch r (Some LF) s' caps k = Some x.
Proof.
  intros H.
  apply Seq_Opt_inv in H; destruct H as [(c & s' & -> & Hc & H) | H].
  - apply eqb_char in Hc; subst c.
    apply Seq_Cls_inv in H; destruct H as (c & s4 & -> & Hc & H).
    apply eqb_char in Hc; subst c.
    exists [CR; LF], s4; split; [reflexivity|]. split; [right; reflexivity | exact H].
  - apply Seq_Cls_inv in H; destruct H as (c & s4 & -> & Hc & H).
    apply eqb_char in Hc; subst c.
    exists [LF], s4; split; [reflexivity|]. split; [left; reflexivity | exact H].
Qed.

Lemma closingEnd_inv (A : Type) (r : re) (k : cont A) (x : A) prev s caps :
  rmatch (Seq (Opt (Cls (N.eqb CR))) (Seq (Opt (Cls (N.eqb LF))) r)) prev s caps k
    = Some x ->
  exists e s' prev', s = e ++ s' /\ closingEnd e
                     /\ rmatch r prev' s' caps k = Some x.
Proof.
  intros H.
  apply Seq_Opt_inv in H; destruct H as [(c & s' & -> & Hc & H) | H].
  - apply eqb_char in Hc; subst c.
    apply Seq_Opt_inv in H; destruct H as [(c & s'' & -> & Hc & H) | H].
    + apply eqb_char in Hc; subst c.
      exists [CR; LF], s''; eexists; split; [reflexivity|].
      split; [unfold closingEnd; tauto | exact H].
    + exists [CR], s'; eexists; split; [reflexivity|].
      split; [unfold closingEnd; tauto | exact H].
  - apply Seq_Opt_inv in H; destruct H as [(c & s'' & -> & Hc & H) | H].
    + apply eqb_char in Hc; subst c.
      exists [LF], s''; eexists; split; [reflexivity|].
      split; [unfold closingEnd; tauto | exact H].
    + exists [], s; eexists; split; [reflexivity|].
      split; [unfold closingEnd; tauto | exact H].
Qed.

(** The pattern of [parseFrontmatter] after its anchor, one token after
    the other. *)
Definition frontmatterTokens : re :=
  Seq (Cls (isChr "-")) (Seq (Cls (isChr "-")) (Seq (Cls (isChr "-"))
  (Seq (Opt (Cls (N.eqb CR))) (Seq (Cls (N.eqb LF))
  (Seq (Grp (StarLazy anyChar))
  (Seq (Opt (Cls (N.eqb CR))) (Seq (Cls (N.eqb LF))
  (Seq (Cls (isChr "-")) (Seq (Cls (isChr "-")) (Seq (Cls (isChr "-"))
  (Seq (Opt (Cls (N.eqb CR))) (Seq (Opt (Cls (N.eqb LF)))
  (Seq (Grp (Star anyChar)) (Eol false)))))))))))))).

Lemma exec_frontmatterRe (content : jsstring) :
  exec frontmatterRe content =
  rmatch frontmatterTokens None content []
    (fun prev' s' caps => Some (mkResult 0 caps prev' s')).
Proof.
  change frontmatterRe with
    (Seq (Bol false)
       (seqOf [ word isChr "---"; Opt (Cls (N.eqb CR)); Cls (N.eqb LF);
                Grp (StarLazy anyChar);
                Opt (Cls (N.eqb CR)); Cls (N.eqb LF); word isChr "---";
                Opt (Cls (N.eqb CR)); Opt (Cls (N.eqb LF));
                Grp (Star anyChar); Eol false ])).
  rewrite exec_anchored; reflexivity.
Qed.

Lemma frontmatter_match (content : jsstring) (m : result) :
  exec frontmatterRe content = Some m ->
  exists e1 header e2 e3 body,
    content = lit "---" ++ e1 ++ header ++ e2 ++ lit "---" ++ e3 ++ body
    /\ lineEnd e1 /\ lineEnd e2 /\ closingEnd e3
    /\ groups m = [header; body].
Proof.
  rewrite exec_frontmatterRe; unfold frontmatterTokens; intros H.
  apply delimiter_inv in H; destruct H as (s1 & -> & H).
  apply lineEnd_inv in H; destruct H as (e1 & s2 & -> & He1 & H).
  apply Seq_GrpLazy_inv in H; destruct H as (header & s3 & prev3 & -> & H).
  apply lineEnd_inv in H; destruct H as (e2 & s4 & -> & He2 & H).
  apply delimiter_inv in H; destruct H as (s5 & -> & H).
  apply closingEnd_inv in H; destruct H as (e3 & body & prev5 & -> & He3 & H).
  apply GrpStar_Eol_inv in H; destruct H as (prev6 & H).
  injection H as <-.
  exists e1, header, e2, e3, body; repeat split; assumption.
Qed.

(** X8: When [parseFrontmatter] finds a block, the content is made of the
    opening delimiter, a line end, the header, a line end, the closing
    delimiter, at most one line end and the body, in this order and with
    nothing else: the fields are read from the lines of that header and
    the body is the rest of the content. When it finds none, the body is
    the whole content, so in both cases the body is an end of the
    content. *)
Theorem parseFrontmatter_found_decomposes (content : jsstring) :
  (found (parseFrontmatter content) = true ->
   exists e1 header e2 e3,
     content = lit "---" ++ e1 ++ header ++ e2 ++ lit "---" ++ e3
                 ++ body (parseFrontmatter content)
     /\ lineEnd e1 /\ lineEnd e2 /\ closingEnd e3
     /\ fields (parseFrontmatter content)
        = fold_left parseLine (splitLines header) [])
  /\ (found (parseFrontmatter content) = false ->
      body (parseFrontmatter content) = content
      /\ fields (parseFrontmatter content) = [])
  /\ exists before, content = before ++ body (parseFrontmatter content).
Proof.
  unfold parseFrontmatter.
  destruct (exec frontmatterRe content) as [m|] eqn:Hm; cbn [found body fields].
  - destruct (frontmatter_match content m Hm)
      as (e1 & header & e2 & e3 & b & Hc & H1 & H2 & H3 & Hg).
    unfold group; rewrite Hg; cbn [nth pred].
    split; [|split].
    + intros _; exists e1, header, e2, e3; auto.
    + discriminate.
    + exists (lit "---" ++ e1 ++ header ++ e2 ++ lit "---" ++ e3).
      rewrite Hc, <- !app_assoc; reflexivity.
  - split; [discriminate|]. split; [auto|].
    exists []; reflexivity.
Qed.

(** A file with a header of two lines. *)
Lemma parseFrontmatter_found_decomposes_witness :
  found (parseFrontmatter (skipn 1 blankLineFirst)) = true
  /\ exists e1 header e2 e3,
       skipn 1 blankLineFirst
         = lit "---" ++ e1 ++ header ++ e2 ++ lit "---" ++ e3
             ++ body (parseFrontmatter (skipn 1 blankLineFirst))
       /\ lineEnd e1 /\ lineEnd e2 /\ closingEnd e3.
Proof.
  assert (H : found (parseFrontmatter (skipn 1 blankLineFirst)) = true)
    by (vm_compute; reflexivity).
  split; [exact H|].
  destruct (proj1 (parseFrontmatter_found_decomposes (skipn 1 blankLineFirst)) H)
    as (e1 & header & e2 & e3 & Hc & H1 & H2 & H3 & _).
  exists e1, header, e2, e3; auto.
Defined.

(** *** The lookup of a key *)



(** Reading a field after an assignment. *)
Lemma getField_setField (m : fieldMap) (k v k' : jsstring) :
  getField (setField k v m) k' = if JS.eqb k k' then Some v else getField m k'.
Proof.
  induction m as [|[k0 v0] m IH]; simpl.
  - reflexivity.
  - destruct (eqb_spec k0 k) as [->|Hn]; simpl.
    + destruct (JS.eqb k k'); reflexivity.
    + rewrite IH.
      destruct (eqb_spec k0 k') as [->|Hn'].
      * destruct (eqb_spec k k'); [congruence | reflexivity].
      * reflexivity.
Qed.




End FrontmatterShape.

(* ================================================================= *)
(** ** What the adapters write, read back by the parsers *)

Module RoundTrip.

Import FrontmatterFacts FrontmatterShape.

(** A code unit that is no line break, a line without line breaks and a
    line that does not start with the delimiter. *)
Definition lineChar (c : char) : bool := negb (N.eqb c LF) && negb (N.eqb c CR).
Definition noBreak (h : jsstring) : bool := forallb lineChar h.
Definition notDelimiter (h : jsstring) : bool := negb (startsWith h (lit "---")).

Lemma lineChar_spec (c : char) : lineChar c = true -> c <> LF /\ c <> CR.
Proof.
  unfold lineChar; intros H; apply andb_true_iff in H; destruct H as [H1 H2].
  apply negb_true_iff in H1, H2; apply N.eqb_neq in H1, H2; auto.
Qed.

Lemma starLazy_cons (A : Type) (p : char -> bool) (k : cont A) prev c s caps :
  starLazy p k prev (c :: s) caps =
  orTry (k prev (c :: s) caps)
        (if p c then starLazy p k (Some c) s caps else None).
Proof. reflexivity. Qed.

Section HeaderSkip.
Variable A : Type.
Variable k : cont A.
Hypothesis k_break :
  forall prev c s caps, lineChar c = true -> k prev (c :: s) caps = None.
Hypothesis k_delim :
  forall prev rest caps,
    startsWith rest (lit "---") = false -> k prev (LF :: rest) caps = None.

Lemma starLazy_line (h : jsstring) :
  noBreak h = true ->
  forall s prev caps,
    exists prev', starLazy anyChar k prev (h ++ s) caps
                  = starLazy anyChar k prev' s caps.
Proof.
  induction h as [|c h IH]; intros Hh s prev caps.
  - exists prev; reflexivity.
  - cbn [noBreak forallb] in Hh; apply andb_true_iff in Hh; destruct Hh as [Hc Hh].
    destruct (IH Hh s (Some c) caps) as [prev' Hp]; exists prev'.
    cbn [app]; rewrite starLazy_cons, (k_break _ _ _ _ Hc); exact Hp.
Qed.

Lemma startsWith_line (h t : jsstring) :
  noBreak h = true -> notDelimiter h = true ->
  startsWith (h ++ LF :: t) (lit "---") = false.
Proof.
  unfold notDelimiter; intros Hb Hd; apply negb_true_iff in Hd.
  clear k_break k_delim; change (lit "---") with [45; 45; 45]%N in *.
  destruct h as [|c1 [|c2 [|c3 h]]]; cbn -[N.eqb] in *.
  - reflexivity.
  - destruct (N.eqb c1 45); reflexivity.
  - destruct (N.eqb c1 45); [|reflexivity].
    destruct (N.eqb c2 45); reflexivity.
  - destruct h; exact Hd.
Qed.

Lemma starLazy_lines (hs : list jsstring) :
  forallb noBreak hs = true -> forallb notDelimiter hs = true -> hs <> [] ->
  forall t prev caps,
    exists prev', starLazy anyChar k prev (LF :: join [LF] hs ++ LF :: t) caps
                  = starLazy anyChar k prev' (LF :: t) caps.
Proof.
  induction hs as [|h hs IH]; intros Hb Hd Hne t prev caps; [contradiction|].
  cbn [forallb] in Hb, Hd.
  apply andb_true_iff in Hb, Hd; destruct Hb as [Hh Hb], Hd as [Hdh Hd].
  destruct hs as [|h2 hs'].
  - cbn [join].
    destruct (starLazy_line h Hh (LF :: t) (Some LF) caps) as [p Hp]; exists p.
    rewrite starLazy_cons, k_delim by (apply startsWith_line; assumption).
    exact Hp.
  - change (join [LF] (h :: h2 :: hs')) with (h ++ [LF] ++ join [LF] (h2 :: hs')).
    rewrite <- !app_assoc; cbn [app].
    destruct (starLazy_line h Hh (LF :: join [LF] (h2 :: hs') ++ LF :: t) (Some LF) caps)
      as [q Hq].
    rewrite starLazy_cons, k_delim by (apply startsWith_line; assumption).
    cbn [orTry anyChar]; rewrite Hq.
    destruct (IH Hb Hd ltac:(discriminate) t q caps) as [p' Hp']; exists p'; exact Hp'.
Qed.

Lemma header_skipped (hs : list jsstring) :
  hs <> [] -> forallb noBreak hs = true -> forallb notDelimiter (tl hs) = true ->
  forall t prev caps,
    exists prev', starLazy anyChar k prev (join [LF] hs ++ LF :: t) caps
                  = starLazy anyChar k prev' (LF :: t) caps.
Proof.
  intros Hne Hb Hd t prev caps.
  destruct hs as [|h hs]; [contradiction|].
  cbn [forallb tl] in Hb, Hd; apply andb_true_iff in Hb; destruct Hb as [Hh Hb].
  destruct hs as [|h2 hs'].
  - cbn [join]; apply starLazy_line, Hh.
  - change (join [LF] (h :: h2 :: hs')) with (h ++ [LF] ++ join [LF] (h2 :: hs')).
    rewrite <- !app_assoc; cbn [app].
    destruct (starLazy_line h Hh (LF :: join [LF] (h2 :: hs') ++ LF :: t) prev caps)
      as [q Hq].
    rewrite Hq.
    apply starLazy_lines; [assumption | assumption | discriminate].
Qed.

Lemma starGreedy_all (kk : cont A) (caps : list jsstring) :
  (forall p, kk p [] caps <> None) ->
  forall B prev,
    exists p, starGreedy anyChar kk prev B caps = kk p [] caps.
Proof.
  intros Hk; induction B as [|c B IH]; intros prev.
  - exists prev; reflexivity.
  - destruct (IH (Some c)) as [p Hp]; exists p.
    cbn [starGreedy anyChar]; rewrite Hp.
    destruct (kk p [] caps) eqn:E; [reflexivity | destruct (Hk p E)].
Qed.

End HeaderSkip.

(** The pattern after the header: [\r?  \n  ---  \r?  \n?  ( [\s\S]* )  $]. *)
Definition closing : re :=
  Seq (Opt (Cls (N.eqb CR))) (Seq (Cls (N.eqb LF))
  (Seq (Cls (isChr "-")) (Seq (Cls (isChr "-")) (Seq (Cls (isChr "-"))
  (Seq (Opt (Cls (N.eqb CR))) (Seq (Opt (Cls (N.eqb LF)))
  (Seq (Grp (Star anyChar)) (Eol false)))))))).

Lemma closing_break (A : Type) (k : cont A) prev c s caps :
  lineChar c = true -> rmatch closing prev (c :: s) caps k = None.
Proof.
  intros Hc; apply lineChar_spec in Hc; destruct Hc as [Hlf Hcr].
  destruct (rmatch closing prev (c :: s) caps k) eqn:E; [exfalso | reflexivity].
  apply lineEnd_inv in E; destruct E as (e & s' & Hs & [-> | ->] & _);
    injection Hs as -> _; congruence.
Qed.

Lemma closing_delim (A : Type) (k : cont A) prev rest caps :
  startsWith rest (lit "---") = false ->
  rmatch closing prev (LF :: rest) caps k = None.
Proof.
  intros Hd.
  destruct (rmatch closing prev (LF :: rest) caps k) eqn:E; [exfalso | reflexivity].
  apply lineEnd_inv in E; destruct E as (e & s' & Hs & [-> | ->] & E);
    [|unfold LF, CR in Hs; discriminate Hs].
  injection Hs as <-.
  apply delimiter_inv in E; destruct E as (s'' & -> & _).
  destruct s''; vm_compute in Hd; discriminate Hd.
Qed.

Lemma closing_match (B : jsstring) (prev : option char) (caps : list jsstring) :
  exists p,
    rmatch closing prev (LF :: lit "---" ++ LF :: B) caps
      (fun prev' s' caps' => Some (mkResult 0 caps' prev' s'))
    = Some (mkResult 0 (caps ++ [B]) p []).
Proof.
  set (kk := fun (prev' : option char) (s' : jsstring) (caps' : list jsstring) =>
               if atEol false s'
               then Some (mkResult 0 (caps' ++ [firstn (List.length B - List.length s') B])
                            prev' s')
               else None).
  assert (Hk : forall p, kk p [] caps <> None) by (intros p; discriminate).
  destruct (starGreedy_all _ kk caps Hk B (Some LF)) as [p Hp].
  exists p.
  transitivity (orTry (starGreedy anyChar kk (Some LF) B caps)
                      (starGreedy anyChar
                         (fun prev' s' caps' =>
                            if atEol false s'
                            then Some (mkResult 0
                                         (caps' ++ [firstn (List.length (LF :: B) - List.length s')
                                                      (LF :: B)])
                                         prev' s')
                            else None)
                         (Some (chr "-")) (LF :: B) caps)).
  - reflexivity.
  - rewrite Hp; unfold kk; cbn [atEol orTry List.length].
    rewrite Nat.sub_0_r, firstn_all; reflexivity.
Qed.

Lemma splitLines_cons (c d : char) (s : jsstring) :
  N.eqb c LF = false -> N.eqb c CR = false ->
  splitLines (c :: d :: s) =
    match splitLines (d :: s) with
    | l :: ls => (c :: l) :: ls
    | [] => [[c]]
    end.
Proof. intros Hlf Hcr; cbn -[N.eqb]; rewrite Hlf, Hcr; reflexivity. Qed.

Lemma splitLines_single (c : char) :
  N.eqb c LF = false -> splitLines [c] = [[c]].
Proof. intros Hlf; cbn -[N.eqb]; rewrite Hlf; reflexivity. Qed.

Lemma splitLines_line (h : jsstring) : noBreak h = true -> splitLines h = [h] \/ h = [].
Proof.
  induction h as [|c h IH]; intros Hh; [right; reflexivity | left].
  cbn [noBreak forallb] in Hh; apply andb_true_iff in Hh; destruct Hh as [Hc Hh].
  apply lineChar_spec in Hc; destruct Hc as [Hlf Hcr].
  apply N.eqb_neq in Hlf, Hcr.
  destruct h as [|d h]; [apply splitLines_single, Hlf|].
  rewrite splitLines_cons by assumption.
  destruct (IH Hh) as [-> | H]; [reflexivity | discriminate H].
Qed.

Lemma splitLines_app (h r : jsstring) :
  noBreak h = true -> splitLines (h ++ LF :: r) = h :: splitLines r.
Proof.
  induction h as [|c h IH]; intros Hh.
  - reflexivity.
  - cbn [noBreak forallb] in Hh; apply andb_true_iff in Hh; destruct Hh as [Hc Hh].
    apply lineChar_spec in Hc; destruct Hc as [Hlf Hcr].
    apply N.eqb_neq in Hlf, Hcr.
    cbn [app].
    destruct (h ++ LF :: r) as [|d s] eqn:E; [destruct h; discriminate E|].
    rewrite splitLines_cons by assumption.
    rewrite (IH Hh); reflexivity.
Qed.

Lemma splitLines_join (hs : list jsstring) :
  hs <> [] -> forallb noBreak hs = true -> splitLines (join [LF] hs) = hs.
Proof.
  induction hs as [|h hs IH]; intros Hne Hb; [contradiction|].
  cbn [forallb] in Hb; apply andb_true_iff in Hb; destruct Hb as [Hh Hb].
  destruct hs as [|h2 hs'].
  - cbn [join]; destruct (splitLines_line h Hh) as [H | ->]; [exact H | reflexivity].
  - change (join [LF] (h :: h2 :: hs')) with (h ++ LF :: join [LF] (h2 :: hs')).
    rewrite splitLines_app, IH; [reflexivity | discriminate | assumption | assumption].
Qed.

(** A file made of the delimiter, header lines, the delimiter and a
    body: the parser finds the block, reads the fields from exactly these
    lines and returns exactly this body. *)
Lemma parse_generated (hs : list jsstring) (B : jsstring) :
  hs <> [] -> forallb noBreak hs = true -> forallb notDelimiter (tl hs) = true ->
  parseFrontmatter
    (lit "---" ++ [LF] ++ join [LF] hs ++ [LF] ++ lit "---" ++ [LF] ++ B)
  = mkFrontmatter true (fold_left parseLine hs []) B.
Proof.
  intros Hne Hb Hd.
  unfold parseFrontmatter; rewrite exec_frontmatterRe.
  set (k0 := fun (prev' : option char) (s' : jsstring) (caps : list jsstring) =>
               Some (mkResult 0 caps prev' s')).
  pose (t := lit "---" ++ [LF] ++ B).
  pose (S0 := join [LF] hs ++ LF :: t).
  pose (K := fun (prev' : option char) (s' : jsstring) (caps' : list jsstring) =>
              rmatch closing prev' s'
                (caps' ++ [firstn (List.length S0 - List.length s') S0]) k0).
  assert (Hstep :
    rmatch frontmatterTokens None
      (lit "---" ++ [LF] ++ join [LF] hs ++ [LF] ++ lit "---" ++ [LF] ++ B) [] k0
    = starLazy anyChar K (Some LF) S0 []) by reflexivity.
  rewrite Hstep; clear Hstep.
  assert (Hbreak : forall prev c s caps, lineChar c = true -> K prev (c :: s) caps = None)
    by (intros; apply closing_break; assumption).
  assert (Hdelim : forall prev rest caps,
             startsWith rest (lit "---") = false -> K prev (LF :: rest) caps = None)
    by (intros; apply closing_delim; assumption).
  destruct (header_skipped _ K Hbreak Hdelim hs Hne Hb Hd t (Some LF) []) as [q Hq].
  fold S0 in Hq; rewrite Hq, starLazy_cons.
  unfold K at 1, S0; rewrite firstn_app_exact; cbn [app].
  destruct (closing_match B q [join [LF] hs]) as [p Hp].
  unfold t; fold k0 in Hp.
  change (lit "---" ++ [LF] ++ B) with (lit "---" ++ LF :: B).
  match goal with
  | |- context [orTry ?a ?b] =>
      assert (Ha : a = Some (mkResult 0 ([join [LF] hs] ++ [B]) p [])) by exact Hp;
      rewrite Ha
  end.
  cbn [orTry group groups nth pred app].
  rewrite splitLines_join by assumption.
  reflexivity.
Qed.


(** *** A header line [key: value] *)

Lemma indexOf_key (key rest : jsstring) :
  indexOf (chr ":") key = None ->
  indexOf (chr ":") (key ++ chr ":" :: rest) = Some (List.length key).
Proof.
  induction key as [|c key IH]; cbn -[N.eqb chr].
  - intros _; rewrite N.eqb_refl; reflexivity.
  - destruct (N.eqb c (chr ":")); [discriminate|].
    destruct (indexOf (chr ":") key) eqn:E; [discriminate|].
    intros _; rewrite IH by reflexivity; reflexivity.
Qed.

(** A string that neither starts nor ends with white space. *)
Definition tight (s : jsstring) : bool :=
  match s, rev s with
  | c :: _, d :: _ => negb (isSpace c) && negb (isSpace d)
  | _, _ => false
  end.

Lemma trim_tight (s : jsstring) : tight s = true -> trim s = s.
Proof.
  unfold tight, trim, trimStart, trimEnd.
  destruct s as [|c s']; [discriminate|].
  destruct (rev (c :: s')) as [|d r] eqn:E; [discriminate|].
  intros H; apply andb_true_iff in H; destruct H as [Hc Hd].
  apply negb_true_iff in Hc, Hd.
  cbn [dropWhile]; rewrite Hc, E.
  cbn [dropWhile]; rewrite Hd, <- E.
  apply rev_involutive.
Qed.

Lemma tight_ends (c d : char) (m : jsstring) :
  isSpace c = false -> isSpace d = false -> tight (c :: m ++ [d]) = true.
Proof.
  intros Hc Hd; unfold tight.
  rewrite app_comm_cons, rev_app_distr; cbn [rev app].
  rewrite Hc, Hd; reflexivity.
Qed.

Lemma tight_between (s : jsstring) (c : char) (a b : jsstring) (d : char) :
  s = c :: a -> s = b ++ [d] -> isSpace c = false -> isSpace d = false ->
  tight s = true.
Proof.
  intros -> Hs Hc Hd.
  assert (Hr : rev (c :: a) = d :: rev b)
    by (rewrite Hs, rev_app_distr; reflexivity).
  unfold tight; rewrite Hr, Hc, Hd; reflexivity.
Qed.

Lemma trim_space (s : jsstring) : trim (32%N :: s) = trim s.
Proof. reflexivity. Qed.

Lemma parseLine_keyed (key value : jsstring) (fields : fieldMap) :
  indexOf (chr ":") key = None -> tight key = true ->
  parseLine fields (key ++ lit ": " ++ value) = setField key (trim value) fields.
Proof.
  intros Hcolon Htight.
  unfold parseLine.
  change (key ++ lit ": " ++ value) with (key ++ chr ":" :: 32%N :: value).
  rewrite indexOf_key by exact Hcolon.
  assert (Hlen : (0 <? List.length key) = true)
    by (destruct key; [discriminate Htight | reflexivity]).
  rewrite Hlen; unfold sliceTo, sliceFrom.
  rewrite firstn_app, Nat.sub_diag, firstn_all; cbn [firstn]; rewrite app_nil_r.
  rewrite skipn_app, skipn_all2 by lia.
  replace (List.length key + 1 - List.length key) with 1 by lia.
  cbn [skipn app]; rewrite trim_space, (trim_tight key Htight); reflexivity.
Qed.

(** *** Lists of patterns *)

(** A glob as the catalog writes them: not empty, without white space and
    without comma. *)
Definition patternChar (c : char) : bool := negb (isSpace c) && negb (isComma c).
Definition cleanPattern (g : jsstring) : bool := truthy g && forallb patternChar g.

Lemma patternChar_spec (c : char) :
  patternChar c = true -> isSpace c = false /\ isComma c = false.
Proof.
  unfold patternChar; intros H; apply andb_true_iff in H; destruct H as [H1 H2].
  apply negb_true_iff in H1, H2; auto.
Qed.

Lemma isSpace_break (c : char) : isSpace c = false -> lineChar c = true.
Proof.
  unfold isSpace, lineChar; intros H.
  repeat (apply orb_false_iff in H; destruct H as [H ?]).
  change LF with 10%N; change CR with 13%N.
  repeat match goal with
         | H : N.eqb c ?n = false |- _ => rewrite H; clear H
         end.
  reflexivity.
Qed.

Lemma isSpace_dot (c : char) : isSpace c = false -> dot c = true.
Proof.
  unfold isSpace, dot, isLineTerminator; intros H.
  repeat (apply orb_false_iff in H; destruct H as [H ?]).
  repeat match goal with
         | H : N.eqb c ?n = false |- _ => rewrite H; clear H
         end.
  reflexivity.
Qed.

Lemma cleanPattern_spec (g : jsstring) :
  cleanPattern g = true ->
  g <> [] /\ (forall c, In c g -> isSpace c = false /\ isComma c = false).
Proof.
  unfold cleanPattern; intros H; apply andb_true_iff in H; destruct H as [Hne Hall].
  split; [destruct g; [discriminate Hne | discriminate]|].
  intros c Hc; rewrite forallb_forall in Hall; apply patternChar_spec, Hall, Hc.
Qed.

Lemma clean_tight (g : jsstring) : cleanPattern g = true -> tight g = true.
Proof.
  intros H; apply cleanPattern_spec in H; destruct H as [Hne Hall].
  unfold tight; destruct g as [|c g]; [contradiction|].
  destruct (rev (c :: g)) as [|d r] eqn:E.
  - apply (f_equal (@List.length _)) in E; rewrite length_rev in E; discriminate E.
  - assert (Hd : In d (c :: g))
      by (apply in_rev; rewrite E; left; reflexivity).
    destruct (Hall c (or_introl eq_refl)) as [-> _].
    destruct (Hall d Hd) as [-> _]; reflexivity.
Qed.

Lemma forallb_join (p : char -> bool) (sep : jsstring) (gs : list jsstring) :
  forallb p sep = true -> forallb (forallb p) gs = true ->
  forallb p (join sep gs) = true.
Proof.
  intros Hsep; induction gs as [|g gs IH]; intros H; [reflexivity|].
  cbn [forallb] in H; apply andb_true_iff in H; destruct H as [Hg Hgs].
  destruct gs as [|g2 gs']; [exact Hg|].
  change (join sep (g :: g2 :: gs')) with (g ++ sep ++ join sep (g2 :: gs')).
  rewrite !forallb_app, Hg, Hsep, (IH Hgs); reflexivity.
Qed.


Lemma clean_all (p : char -> bool) (gs : list jsstring) :
  (forall c, isSpace c = false -> isComma c = false -> p c = true) ->
  forallb cleanPattern gs = true -> forallb (forallb p) gs = true.
Proof.
  intros Hp H; rewrite forallb_forall in *; intros g Hg.
  apply forallb_forall; intros c Hc.
  destruct (cleanPattern_spec g (H g Hg)) as [_ Hall].
  destruct (Hall c Hc); auto.
Qed.

Lemma join_first (sep : jsstring) (g : jsstring) (gs : list jsstring) :
  exists post, join sep (g :: gs) = g ++ post.
Proof.
  destruct gs as [|g2 gs]; [exists []; symmetry; apply app_nil_r|].
  exists (sep ++ join sep (g2 :: gs)); reflexivity.
Qed.

Lemma join_last (sep : jsstring) (gs : list jsstring) :
  gs <> [] -> exists pre, join sep gs = pre ++ last gs [].
Proof.
  induction gs as [|g gs IH]; intros Hne; [contradiction|].
  destruct gs as [|g2 gs']; [exists []; reflexivity|].
  destruct (IH ltac:(discriminate)) as [pre Hpre].
  exists (g ++ sep ++ pre).
  change (join sep (g :: g2 :: gs')) with (g ++ sep ++ join sep (g2 :: gs')).
  rewrite Hpre, <- !app_assoc; reflexivity.
Qed.

Lemma last_In {A : Type} (l : list A) (d : A) : l <> [] -> In (last l d) l.
Proof.
  induction l as [|x l IH]; intros Hne; [contradiction|].
  destruct l as [|y l']; [left; reflexivity|].
  right; apply IH; discriminate.
Qed.

(** The text of the patterns of a rule, as the adapters write it. *)
Definition patternList (gs : list jsstring) : jsstring := join (lit ", ") gs.

Lemma tight_patternList (gs : list jsstring) :
  gs <> [] -> forallb cleanPattern gs = true -> tight (patternList gs) = true.
Proof.
  intros Hne Hall; unfold patternList.
  rewrite forallb_forall in Hall.
  destruct gs as [|g gs]; [contradiction|].
  destruct (join_first (lit ", ") g gs) as [post Hpost].
  destruct (join_last (lit ", ") (g :: gs) Hne) as [pre Hpre].
  pose proof (Hall g (or_introl eq_refl)) as Hg.
  pose proof (Hall _ (last_In (g :: gs) [] Hne)) as Hl.
  apply cleanPattern_spec in Hg, Hl.
  destruct Hg as [Hgne Hg], Hl as [Hlne Hl].
  destruct g as [|c g']; [contradiction|].
  destruct (exists_last Hlne) as (l' & d & Hlast).
  assert (Hd : In d (l' ++ [d]))
    by (apply in_or_app; right; left; reflexivity).
  rewrite <- Hlast in Hd.
  apply (tight_between _ c (g' ++ post) (pre ++ l') d).
  - exact Hpost.
  - rewrite Hpre, Hlast, app_assoc; reflexivity.
  - apply (Hg c (or_introl eq_refl)).
  - apply (Hl d Hd).
Qed.

Lemma splitOn_free (p : char -> bool) (g : jsstring) :
  forallb (fun c => negb (p c)) g = true -> splitOn p g = [g].
Proof.
  induction g as [|c g IH]; intros H; [reflexivity|].
  cbn [forallb] in H; apply andb_true_iff in H; destruct H as [Hc Hg].
  apply negb_true_iff in Hc.
  cbn [splitOn]; rewrite Hc, (IH Hg); reflexivity.
Qed.

Lemma splitOn_app (p : char -> bool) (g : jsstring) (c : char) (r : jsstring) :
  forallb (fun c => negb (p c)) g = true -> p c = true ->
  splitOn p (g ++ c :: r) = g :: splitOn p r.
Proof.
  intros Hg Hc; induction g as [|x g IH].
  - cbn [app splitOn]; rewrite Hc; reflexivity.
  - cbn [forallb] in Hg; apply andb_true_iff in Hg; destruct Hg as [Hx Hg].
    apply negb_true_iff in Hx.
    cbn [app splitOn]; rewrite Hx, (IH Hg); reflexivity.
Qed.

Lemma splitOn_patternList (gs : list jsstring) :
  gs <> [] -> forallb cleanPattern gs = true ->
  splitOn isComma (patternList gs) = hd [] gs :: map (cons 32%N) (tl gs).
Proof.
  unfold patternList.
  induction gs as [|g gs IH]; intros Hne Hall; [contradiction|].
  cbn [forallb] in Hall; apply andb_true_iff in Hall; destruct Hall as [Hg Hall].
  assert (Hfree : forallb (fun c => negb (isComma c)) g = true).
  { apply forallb_forall; intros c Hc.
    destruct (cleanPattern_spec g Hg) as [_ H]; destruct (H c Hc) as [_ ->].
    reflexivity. }
  destruct gs as [|g2 gs'].
  - apply splitOn_free, Hfree.
  - change (join (lit ", ") (g :: g2 :: gs'))
      with (g ++ chr "," :: 32%N :: join (lit ", ") (g2 :: gs')).
    rewrite splitOn_app by (exact Hfree || reflexivity).
    change (splitOn isComma (32%N :: join (lit ", ") (g2 :: gs')))
      with (match splitOn isComma (join (lit ", ") (g2 :: gs')) with
            | l :: ls => (32%N :: l) :: ls
            | [] => [[32%N]]
            end).
    rewrite IH by (discriminate || exact Hall); reflexivity.
Qed.

(** The patterns read back from the text of a list of clean patterns. *)
Lemma patterns_read_back (gs : list jsstring) :
  gs <> [] -> forallb cleanPattern gs = true ->
  filterTruthy (map trim (splitOn isComma (patternList gs))) = gs.
Proof.
  intros Hne Hall; rewrite splitOn_patternList by assumption.
  destruct gs as [|g gs]; [contradiction|].
  cbn [hd tl map forallb] in *.
  apply andb_true_iff in Hall; destruct Hall as [Hg Hall].
  rewrite (trim_tight g (clean_tight g Hg)), map_map.
  assert (Hmap : map (fun x => trim (32%N :: x)) gs = gs).
  { clear Hne; induction gs as [|x gs IH]; [reflexivity|].
    cbn [forallb map] in *.
    apply andb_true_iff in Hall; destruct Hall as [Hx Hall].
    rewrite trim_space, (trim_tight x (clean_tight x Hx)), (IH Hall); reflexivity. }
  rewrite Hmap.
  unfold filterTruthy; apply forallb_filter_id.
  cbn [forallb]; apply andb_true_iff; split.
  - unfold cleanPattern in Hg; apply andb_true_iff in Hg; apply Hg.
  - apply forallb_forall; intros x Hx; rewrite forallb_forall in Hall.
    specialize (Hall x Hx); unfold cleanPattern in Hall.
    apply andb_true_iff in Hall; apply Hall.
Qed.

Lemma patternList_noBreak (gs : list jsstring) :
  forallb cleanPattern gs = true -> noBreak (patternList gs) = true.
Proof.
  intros Hall; apply forallb_join; [reflexivity|].
  apply clean_all; [|exact Hall].
  intros c Hc _; apply isSpace_break, Hc.
Qed.

Lemma patternList_truthy (gs : list jsstring) :
  gs <> [] -> forallb cleanPattern gs = true -> truthy (patternList gs) = true.
Proof.
  intros Hne Hall; pose proof (tight_patternList gs Hne Hall) as H.
  destruct (patternList gs); [discriminate H | reflexivity].
Qed.


(** *** Frames and paths *)

Lemma join_app (sep : jsstring) (xs ys : list jsstring) :
  xs <> [] -> ys <> [] ->
  join sep (xs ++ ys) = join sep xs ++ sep ++ join sep ys.
Proof.
  induction xs as [|x xs IH]; intros Hx Hy; [contradiction|].
  destruct xs as [|x2 xs'].
  - destruct ys as [|y ys]; [contradiction | reflexivity].
  - change (join sep ((x :: x2 :: xs') ++ ys))
      with (x ++ sep ++ join sep ((x2 :: xs') ++ ys)).
    rewrite IH by (discriminate || exact Hy).
    change (join sep (x :: x2 :: xs')) with (x ++ sep ++ join sep (x2 :: xs')).
    rewrite <- !app_assoc; reflexivity.
Qed.

(** The lines of a generated file with a header: the delimiter, the
    header lines, the delimiter, and lines after it. *)
Lemma parse_framed (hs rest : list jsstring) :
  hs <> [] -> rest <> [] ->
  forallb noBreak hs = true -> forallb notDelimiter (tl hs) = true ->
  parseFrontmatter (join [LF] (lit "---" :: hs ++ lit "---" :: rest))
  = mkFrontmatter true (fold_left parseLine hs []) (join [LF] rest).
Proof.
  intros Hhs Hrest Hb Hd.
  rewrite <- (parse_generated hs (join [LF] rest)) by assumption.
  f_equal.
  change (lit "---" :: hs ++ lit "---" :: rest)
    with ([lit "---"] ++ hs ++ [lit "---"] ++ rest).
  rewrite (join_app [LF] [lit "---"]), (join_app [LF] hs), (join_app [LF] [lit "---"]);
    try discriminate; try assumption.
  - reflexivity.
  - destruct hs; [contradiction | discriminate].
Qed.

Lemma startsWith_app (p x : jsstring) : startsWith (p ++ x) p = true.
Proof.
  induction p as [|c p IH]; [destruct x; reflexivity|].
  cbn -[N.eqb]; rewrite N.eqb_refl; exact IH.
Qed.

Lemma endsWith_app (a p : jsstring) : endsWith (a ++ p) p = true.
Proof. unfold endsWith; rewrite rev_app_distr; apply startsWith_app. Qed.

Lemma includes_start (s p : jsstring) :
  startsWith s p = true -> includes s p = true.
Proof. destruct s; cbn [includes]; intros ->; reflexivity. Qed.

Lemma agent_not_instructions (a : jsstring) :
  endsWith (a ++ lit ".agent.md") (lit ".instructions.md") = false.
Proof. unfold endsWith; rewrite rev_app_distr; reflexivity. Qed.

Lemma instructions_not_agent (a : jsstring) :
  endsWith (a ++ lit ".instructions.md") (lit ".agent.md") = false.
Proof. unfold endsWith; rewrite rev_app_distr; reflexivity. Qed.

(** *** Agent files *)

Lemma noBreak_prefixed (prefix value : jsstring) :
  noBreak prefix = true -> noBreak value = true -> noBreak (prefix ++ value) = true.
Proof. unfold noBreak; intros Hp Hv; rewrite forallb_app, Hp, Hv; reflexivity. Qed.

(** The header of an agent file: the two fields of the frontmatter are
    the trimmed name and the trimmed description. *)
Lemma agent_header (name description : jsstring) (rest : list jsstring) :
  noBreak name = true -> noBreak description = true -> rest <> [] ->
  parseFrontmatter
    (join [LF] (lit "---"
                  :: [lit "name: " ++ name; lit "description: " ++ description]
                  ++ lit "---" :: rest))
  = mkFrontmatter true
      [(lit "name", trim name); (lit "description", trim description)]
      (join [LF] rest).
Proof.
  intros Hn Hd Hrest.
  rewrite parse_framed; [| discriminate | exact Hrest | | reflexivity].
  - cbn [fold_left].
    change (lit "name: " ++ name) with (lit "name" ++ lit ": " ++ name).
    change (lit "description: " ++ description)
      with (lit "description" ++ lit ": " ++ description).
    rewrite !parseLine_keyed by reflexivity.
    reflexivity.
  - cbn [forallb]; rewrite !noBreak_prefixed by (reflexivity || assumption).
    reflexivity.
Qed.

Lemma claude_agent_lines (agent : AgentRecommendation.t) :
  exists rest,
    rest <> []
    /\ Windsurf.content (ClaudeAdapter.generateAgentFile agent)
       = join [LF] (lit "---"
                      :: [lit "name: " ++ AgentRecommendation.name agent;
                          lit "description: " ++ AgentRecommendation.description agent]
                      ++ lit "---" :: rest).
Proof.
  unfold ClaudeAdapter.generateAgentFile; cbv zeta; cbn [Windsurf.content].
  destruct (0 <? List.length (AgentRecommendation.relevantFiles agent));
    eexists; (split; [|reflexivity]); discriminate.
Qed.

Lemma copilot_agent_lines (agent : AgentRecommendation.t) :
  exists rest,
    rest <> []
    /\ Windsurf.content (CopilotAdapter.generateAgentFile agent)
       = join [LF] (lit "---"
                      :: [lit "name: " ++ AgentRecommendation.name agent;
                          lit "description: " ++ AgentRecommendation.description agent]
                      ++ lit "---" :: rest).
Proof.
  unfold CopilotAdapter.generateAgentFile; cbv zeta; cbn [Windsurf.content].
  eexists; (split; [|reflexivity]); discriminate.
Qed.

Lemma agent_read_back (toLowerCase : jsstring -> jsstring)
    (tool : ToolTarget) (file : Windsurf.GeneratedFile)
    (name description : jsstring) (after : jsstring) :
  parseFrontmatter (Windsurf.content file)
    = mkFrontmatter true
        [(lit "name", trim name); (lit "description", trim description)] after ->
  truthy (trim name) = true -> truthy (trim description) = true ->
  Fixer.parseAgentFromFile toLowerCase (WindsurfMore.written tool file)
  = Some (Fixer.mkAgent tool (Windsurf.path file) (trim name) (trim description)
            (Fixer.extractTriggers toLowerCase (Windsurf.content file))).
Proof.
  intros Hfm Hn Hd.
  unfold Fixer.parseAgentFromFile, WindsurfMore.written, contentOf;
    cbn [Types.content Types.tool Types.filePath].
  rewrite Hfm; cbn [fields body].
  change (getField [(lit "name", trim name); (lit "description", trim description)]
            (lit "name")) with (Some (trim name)).
  change (getField [(lit "name", trim name); (lit "description", trim description)]
            (lit "description")) with (Some (trim description)).
  unfold optOr, orElse; rewrite Hn, Hd; cbv zeta; rewrite Hn; reflexivity.
Qed.

(** X10: An agent file written by the Claude adapter or by the Copilot adapter
    is read back as it was written, when the name and the description of
    the agent have no line break and are not blank: the file counts as an
    agent file, the validator of the tool has nothing to report (for
    Copilot, as long as the file has at most 30000 characters), and the
    agent parsed from the file has the trimmed name and the trimmed
    description of the recommendation. *)
Theorem agent_files_round_trip (toLowerCase : jsstring -> jsstring)
    (thousands : N -> jsstring) (agent : AgentRecommendation.t) :
  noBreak (AgentRecommendation.name agent) = true ->
  noBreak (AgentRecommendation.description agent) = true ->
  truthy (trim (AgentRecommendation.name agent)) = true ->
  truthy (trim (AgentRecommendation.description agent)) = true ->
  (Fixer.isAgentFile
     (WindsurfMore.written claude (ClaudeAdapter.generateAgentFile agent)) = true
   /\ Validator.validateClaudeConfig
        (WindsurfMore.written claude (ClaudeAdapter.generateAgentFile agent)) = []
   /\ Fixer.parseAgentFromFile toLowerCase
        (WindsurfMore.written claude (ClaudeAdapter.generateAgentFile agent))
      = Some (Fixer.mkAgent claude
                (lit ".claude/agents/" ++ AgentRecommendation.id agent ++ lit ".md")
                (trim (AgentRecommendation.name agent))
                (trim (AgentRecommendation.description agent))
                (Fixer.extractTriggers toLowerCase
                   (Windsurf.content (ClaudeAdapter.generateAgentFile agent)))))
  /\ (Fixer.isAgentFile
        (WindsurfMore.written copilot (CopilotAdapter.generateAgentFile agent)) = true
      /\ ((len (Windsurf.content (CopilotAdapter.generateAgentFile agent)) <= 30000)%N ->
          Validators.validateCopilotConfig thousands
            (WindsurfMore.written copilot (CopilotAdapter.generateAgentFile agent)) = [])
      /\ Fixer.parseAgentFromFile toLowerCase
           (WindsurfMore.written copilot (CopilotAdapter.generateAgentFile agent))
         = Some (Fixer.mkAgent copilot
                   (lit ".github/agents/" ++ AgentRecommendation.id agent
                      ++ lit ".agent.md")
                   (trim (AgentRecommendation.name agent))
                   (trim (AgentRecommendation.description agent))
                   (Fixer.extractTriggers toLowerCase
                      (Windsurf.content (CopilotAdapter.generateAgentFile agent))))).
Proof.
  intros Hn Hd Htn Htd.
  destruct (claude_agent_lines agent) as (rest1 & Hr1 & Hc1).
  destruct (copilot_agent_lines agent) as (rest2 & Hr2 & Hc2).
  pose proof (agent_header _ _ rest1 Hn Hd Hr1) as Hfm1; rewrite <- Hc1 in Hfm1.
  pose proof (agent_header _ _ rest2 Hn Hd Hr2) as Hfm2; rewrite <- Hc2 in Hfm2.
  split; [split; [|split] | split; [|split]].
  - unfold Fixer.isAgentFile, WindsurfMore.written; cbn [Types.filePath].
    unfold ClaudeAdapter.generateAgentFile; cbv zeta; cbn [Windsurf.path].
    unfold slashes; rewrite map_app.
    rewrite includes_start by apply startsWith_app; reflexivity.
  - unfold Validator.validateClaudeConfig, WindsurfMore.written, contentOf;
      cbn [Types.filePath Types.content].
    rewrite Hfm1; cbn [found fields negb].
    change (getField [(lit "name", trim (AgentRecommendation.name agent));
                      (lit "description", trim (AgentRecommendation.description agent))]
              (lit "name"))
      with (Some (trim (AgentRecommendation.name agent))).
    change (getField [(lit "name", trim (AgentRecommendation.name agent));
                      (lit "description", trim (AgentRecommendation.description agent))]
              (lit "description"))
      with (Some (trim (AgentRecommendation.description agent))).
    unfold falsy; rewrite Htn, Htd; cbn [negb app].
    destruct (includes _ _); reflexivity.
  - apply (agent_read_back toLowerCase claude _ _ _ _ Hfm1 Htn Htd).
  - unfold Fixer.isAgentFile, WindsurfMore.written; cbn [Types.filePath].
    unfold CopilotAdapter.generateAgentFile; cbv zeta; cbn [Windsurf.path].
    unfold slashes; rewrite !map_app.
    change (map (fun c : N => if N.eqb c 92 then 47%N else c) (lit ".agent.md"))
      with (lit ".agent.md").
    rewrite app_assoc, endsWith_app.
    destruct (includes _ _); reflexivity.
  - intros Hlen.
    unfold Validators.validateCopilotConfig, WindsurfMore.written, contentOf;
      cbn [Types.filePath Types.content].
    rewrite Hfm2; cbn [found fields negb].
    change (getField [(lit "name", trim (AgentRecommendation.name agent));
                      (lit "description", trim (AgentRecommendation.description agent))]
              (lit "name"))
      with (Some (trim (AgentRecommendation.name agent))).
    change (getField [(lit "name", trim (AgentRecommendation.name agent));
                      (lit "description", trim (AgentRecommendation.description agent))]
              (lit "description"))
      with (Some (trim (AgentRecommendation.description agent))).
    unfold falsy; rewrite Htn, Htd; cbn [negb app].
    apply N.ltb_ge in Hlen; unfold Validators.COPILOT_MAX_CONTEXT_SIZE; rewrite Hlen.
    unfold CopilotAdapter.generateAgentFile; cbv zeta; cbn [Windsurf.path].
    rewrite app_assoc, agent_not_instructions, endsWith_app; reflexivity.
  - apply (agent_read_back toLowerCase copilot _ _ _ _ Hfm2 Htn Htd).
Qed.


(** A reviewer agent, written for Claude and read back. *)
Lemma agent_files_round_trip_witness :
  Validator.validateClaudeConfig
    (WindsurfMore.written claude
       (ClaudeAdapter.generateAgentFile (WindsurfMore.sampleAgent (lit "Reviewer")))) = []
  /\ option_map Fixer.name
       (Fixer.parseAgentFromFile (fun s => s)
          (WindsurfMore.written claude
             (ClaudeAdapter.generateAgentFile (WindsurfMore.sampleAgent (lit "Reviewer")))))
     = Some (lit "Reviewer").
Proof.
  destruct (agent_files_round_trip (fun s => s) (fun _ => [])
              (WindsurfMore.sampleAgent (lit "Reviewer"))
              eq_refl eq_refl eq_refl eq_refl) as [(_ & Hvalid & Hparsed) _].
  split; [exact Hvalid | rewrite Hparsed; reflexivity].
Defined.

(** *** Rule files *)

Lemma getField_other (k v k' : jsstring) (m : fieldMap) :
  JS.eqb k k' = false -> getField (setField k v m) k' = getField m k'.
Proof. intros H; rewrite getField_setField, H; reflexivity. Qed.

Lemma getField_same (k v : jsstring) (m : fieldMap) :
  getField (setField k v m) k = Some v.
Proof. rewrite getField_setField, eqb_refl; reflexivity. Qed.

(** [`${rule.priority === "high"}`] *)
Definition alwaysApply (rule : RuleRecommendation.t) : jsstring :=
  if Priority_eqb (RuleRecommendation.priority rule) high
  then lit "true" else lit "false".

Lemma mdc_fields (rule : RuleRecommendation.t) :
  noBreak (RuleRecommendation.title rule) = true ->
  forallb cleanPattern (RuleRecommendation.appliesTo rule) = true ->
  parseFrontmatter (Windsurf.content (CursorAdapter.generateMdcFile rule))
  = mkFrontmatter true
      (setField (lit "alwaysApply") (trim (alwaysApply rule))
         (setField (lit "globs") (trim (patternList (RuleRecommendation.appliesTo rule)))
            (setField (lit "description") (trim (RuleRecommendation.title rule)) [])))
      (LF :: RuleRecommendation.content rule).
Proof.
  intros Ht Hg.
  unfold CursorAdapter.generateMdcFile; cbv zeta; cbn [Windsurf.content].
  assert (Hb : forallb noBreak
                 [lit "description" ++ lit ": " ++ RuleRecommendation.title rule;
                  lit "globs" ++ lit ": " ++ patternList (RuleRecommendation.appliesTo rule);
                  lit "alwaysApply" ++ lit ": " ++ alwaysApply rule] = true).
  { cbn [forallb]; rewrite !noBreak_prefixed;
      try reflexivity; try assumption.
    - unfold alwaysApply; destruct (Priority_eqb _ _); reflexivity.
    - apply patternList_noBreak, Hg. }
  pose proof (parse_framed
                [lit "description" ++ lit ": " ++ RuleRecommendation.title rule;
                 lit "globs" ++ lit ": " ++ patternList (RuleRecommendation.appliesTo rule);
                 lit "alwaysApply" ++ lit ": " ++ alwaysApply rule]
                [[]; RuleRecommendation.content rule]
                ltac:(discriminate) ltac:(discriminate) Hb eq_refl) as H.
  cbn [fold_left] in H; rewrite !parseLine_keyed in H by reflexivity.
  exact H.
Qed.

(** The fields of a rule file of the Cursor adapter. *)
Definition mdcFields (rule : RuleRecommendation.t) : fieldMap :=
  setField (lit "alwaysApply") (trim (alwaysApply rule))
    (setField (lit "globs") (trim (patternList (RuleRecommendation.appliesTo rule)))
       (setField (lit "description") (trim (RuleRecommendation.title rule)) [])).

Lemma mdc_lookups (rule : RuleRecommendation.t) :
  RuleRecommendation.appliesTo rule <> [] ->
  forallb cleanPattern (RuleRecommendation.appliesTo rule) = true ->
  getField (mdcFields rule) (lit "globs")
    = Some (patternList (RuleRecommendation.appliesTo rule))
  /\ getField (mdcFields rule) (lit "description")
     = Some (trim (RuleRecommendation.title rule))
  /\ getField (mdcFields rule) (lit "applyTo") = None
  /\ getField (mdcFields rule) (lit "alwaysApply") = Some (alwaysApply rule).
Proof.
  intros Hne Hg; unfold mdcFields.
  pose proof (tight_patternList _ Hne Hg) as Htight.
  split; [|split; [|split]].
  - rewrite getField_other by reflexivity.
    rewrite getField_same, (trim_tight _ Htight); reflexivity.
  - rewrite !getField_other by reflexivity; apply getField_same.
  - rewrite !getField_other by reflexivity; reflexivity.
  - rewrite getField_same.
    unfold alwaysApply; destruct (Priority_eqb _ _); reflexivity.
Qed.

Lemma mdc_globs_read_back (rule : RuleRecommendation.t) :
  noBreak (RuleRecommendation.title rule) = true ->
  RuleRecommendation.appliesTo rule <> [] ->
  forallb cleanPattern (RuleRecommendation.appliesTo rule) = true ->
  extractGlobPatterns (WindsurfMore.written cursor (CursorAdapter.generateMdcFile rule))
    = RuleRecommendation.appliesTo rule.
Proof.
  intros Ht Hne Hg.
  pose proof (mdc_fields rule Ht Hg) as Hfm; fold (mdcFields rule) in Hfm.
  destruct (mdc_lookups rule Hne Hg) as (Hglobs & _ & HapplyTo & _).
  unfold extractGlobPatterns, WindsurfMore.written, contentOf; cbn [Types.content].
  rewrite Hfm; cbn [found fields negb].
  rewrite Hglobs, (patternList_truthy _ Hne Hg), HapplyTo; cbn [app].
  apply patterns_read_back; assumption.
Qed.

Lemma mdc_validates (rule : RuleRecommendation.t) :
  noBreak (RuleRecommendation.title rule) = true ->
  RuleRecommendation.appliesTo rule <> [] ->
  forallb cleanPattern (RuleRecommendation.appliesTo rule) = true ->
  truthy (trim (RuleRecommendation.title rule)) = true ->
  Validator.validateCursorConfig
    (WindsurfMore.written cursor (CursorAdapter.generateMdcFile rule)) = [].
Proof.
  intros Ht Hne Hg Htitle.
  pose proof (mdc_fields rule Ht Hg) as Hfm; fold (mdcFields rule) in Hfm.
  destruct (mdc_lookups rule Hne Hg) as (Hglobs & Hdesc & _ & _).
  unfold Validator.validateCursorConfig, WindsurfMore.written, contentOf;
    cbn [Types.content Types.filePath].
  rewrite Hfm; cbn [found fields negb]; rewrite Hglobs, Hdesc.
  unfold falsy; rewrite Htitle, (patternList_truthy _ Hne Hg); cbn [negb andb app].
  destruct (endsWith _ _); reflexivity.
Qed.

(** X11: A rule file written by the Cursor adapter is read back as it was
    written, when the title has no line break and the rule has patterns,
    none of them empty, none with white space or a comma: the globs
    extracted from the file are the patterns of the rule in their order,
    the body is the content of the rule after an empty line, the field
    [alwaysApply] says whether the priority is high, and the validator of
    Cursor has nothing to report unless the title is blank. *)
Theorem cursor_rule_file_round_trip (rule : RuleRecommendation.t) :
  noBreak (RuleRecommendation.title rule) = true ->
  RuleRecommendation.appliesTo rule <> [] ->
  forallb cleanPattern (RuleRecommendation.appliesTo rule) = true ->
  extractGlobPatterns (WindsurfMore.written cursor (CursorAdapter.generateMdcFile rule))
    = RuleRecommendation.appliesTo rule
  /\ body (parseFrontmatter (Windsurf.content (CursorAdapter.generateMdcFile rule)))
     = [LF] ++ RuleRecommendation.content rule
  /\ getField
       (fields (parseFrontmatter (Windsurf.content (CursorAdapter.generateMdcFile rule))))
       (lit "alwaysApply")
     = Some (if Priority_eqb (RuleRecommendation.priority rule) high
             then lit "true" else lit "false")
  /\ (truthy (trim (RuleRecommendation.title rule)) = true ->
      Validator.validateCursorConfig
        (WindsurfMore.written cursor (CursorAdapter.generateMdcFile rule)) = []).
Proof.
  intros Ht Hne Hg.
  pose proof (mdc_fields rule Ht Hg) as Hfm; fold (mdcFields rule) in Hfm.
  split; [apply mdc_globs_read_back; assumption|].
  split; [rewrite Hfm; reflexivity|].
  split.
  - rewrite Hfm; cbn [fields].
    destruct (mdc_lookups rule Hne Hg) as (_ & _ & _ & Halways).
    exact Halways.
  - intros Htitle; apply mdc_validates; assumption.
Qed.

(** The TypeScript rule of the catalog, written for Cursor and read back. *)
Definition tsRule : RuleRecommendation.t :=
  RuleRecommender.ruleOf RecommenderFacts.tieScan RuleRecommender.typescriptStrict.

Lemma cursor_rule_file_round_trip_witness :
  extractGlobPatterns (WindsurfMore.written cursor (CursorAdapter.generateMdcFile tsRule))
    = RuleRecommendation.appliesTo tsRule
  /\ Validator.validateCursorConfig
       (WindsurfMore.written cursor (CursorAdapter.generateMdcFile tsRule)) = [].
Proof.
  destruct (cursor_rule_file_round_trip tsRule eq_refl ltac:(discriminate) eq_refl)
    as (Hglobs & _ & _ & Hvalid).
  split; [exact Hglobs | exact (Hvalid eq_refl)].
Defined.


(** *** Instruction files *)

Lemma starGreedy_backtrack (A : Type) (p : char -> bool) (k : cont A)
    (caps : list jsstring) (d : char) (x : A) :
  (forall prev, k prev [] caps = None) ->
  (forall prev, k prev [d] caps = Some x) ->
  forall l prev,
    forallb p l = true -> starGreedy p k prev (l ++ [d]) caps = Some x.
Proof.
  intros Hend Hlast; induction l as [|c l IH]; intros prev Hl.
  - cbn [app starGreedy]; rewrite Hend, Hlast; destruct (p d); reflexivity.
  - cbn [forallb] in Hl; apply andb_true_iff in Hl; destruct Hl as [Hc Hl].
    cbn [app starGreedy]; rewrite Hc, (IH (Some c) Hl); reflexivity.
Qed.

(** A quoted text without line break loses its quotes. *)
Lemma unquote_strips_quotes (J : jsstring) :
  forallb dot J = true -> unquote (DQ :: J ++ [DQ]) = J.
Proof.
  intros HJ; unfold unquote.
  change quotedRe with
    (Seq (Bol false)
       (seqOf [Cls (N.eqb DQ); Grp (Star dot); Cls (N.eqb DQ); Eol false])).
  rewrite exec_anchored.
  pose (k0 := fun (prev' : option char) (s' : jsstring) (caps : list jsstring) =>
                Some (mkResult 0 caps prev' s')).
  pose (KK := fun (prev' : option char) (s' : jsstring) (caps' : list jsstring) =>
                rmatch (Seq (Cls (N.eqb DQ)) (Eol false)) prev' s'
                  (caps' ++ [firstn (List.length (J ++ [DQ]) - List.length s') (J ++ [DQ])])
                  k0).
  assert (Hrun : starGreedy dot KK (Some DQ) (J ++ [DQ]) []
                 = Some (mkResult 0 [J] (Some DQ) [])).
  { apply starGreedy_backtrack; [reflexivity | | exact HJ].
    intros prev; unfold KK; rewrite firstn_app_exact; reflexivity. }
  match goal with
  | |- match ?a with _ => _ end = _ =>
      assert (Ha : a = Some (mkResult 0 [J] (Some DQ) [])) by exact Hrun;
      rewrite Ha
  end.
  cbn [index firstn group groups nth pred after app]; apply app_nil_r.
Qed.

Lemma instruction_fields (rule : RuleRecommendation.t) :
  RuleRecommendation.appliesTo rule <> [] ->
  forallb cleanPattern (RuleRecommendation.appliesTo rule) = true ->
  parseFrontmatter (Windsurf.content (CopilotAdapter.generateInstructionFile rule))
  = mkFrontmatter true
      [(lit "applyTo", DQ :: patternList (RuleRecommendation.appliesTo rule) ++ [DQ])]
      (LF :: RuleRecommendation.content rule).
Proof.
  intros Hne Hg.
  unfold CopilotAdapter.generateInstructionFile; cbv zeta; cbn [Windsurf.content].
  assert (Hb : forallb noBreak
                 [lit "applyTo" ++ lit ": "
                    ++ DQ :: patternList (RuleRecommendation.appliesTo rule) ++ [DQ]]
               = true).
  { pose proof (patternList_noBreak _ Hg) as HJ; unfold noBreak in HJ.
    cbn [forallb]; unfold noBreak.
    change (lit "applyTo" ++ lit ": "
              ++ DQ :: patternList (RuleRecommendation.appliesTo rule) ++ [DQ])
      with ((lit "applyTo: " ++ [DQ])
              ++ patternList (RuleRecommendation.appliesTo rule) ++ [DQ]).
    rewrite !forallb_app, HJ; reflexivity. }
  pose proof (parse_framed
                [lit "applyTo" ++ lit ": "
                   ++ DQ :: patternList (RuleRecommendation.appliesTo rule) ++ [DQ]]
                [[]; RuleRecommendation.content rule]
                ltac:(discriminate) ltac:(discriminate) Hb eq_refl) as H.
  cbn [fold_left] in H; rewrite parseLine_keyed in H by reflexivity.
  rewrite (trim_tight (DQ :: _ ++ [DQ])) in H by (apply tight_ends; reflexivity).
  exact H.
Qed.

Lemma instruction_globs_read_back (rule : RuleRecommendation.t) :
  RuleRecommendation.appliesTo rule <> [] ->
  forallb cleanPattern (RuleRecommendation.appliesTo rule) = true ->
  extractGlobPatterns
    (WindsurfMore.written copilot (CopilotAdapter.generateInstructionFile rule))
    = RuleRecommendation.appliesTo rule.
Proof.
  intros Hne Hg.
  pose proof (instruction_fields rule Hne Hg) as Hfm.
  assert (Hdot : forallb dot (patternList (RuleRecommendation.appliesTo rule)) = true).
  { apply forallb_join; [reflexivity|].
    apply clean_all; [|exact Hg].
    intros c Hc _; apply isSpace_dot, Hc. }
  unfold extractGlobPatterns, WindsurfMore.written, contentOf; cbn [Types.content].
  rewrite Hfm; cbn [found fields negb].
  change (getField
            [(lit "applyTo",
              DQ :: patternList (RuleRecommendation.appliesTo rule) ++ [DQ])]
            (lit "globs")) with (@None jsstring).
  change (getField
            [(lit "applyTo",
              DQ :: patternList (RuleRecommendation.appliesTo rule) ++ [DQ])]
            (lit "applyTo"))
    with (Some (DQ :: patternList (RuleRecommendation.appliesTo rule) ++ [DQ])).
  cbn [truthy app]; rewrite (unquote_strips_quotes _ Hdot).
  apply patterns_read_back; assumption.
Qed.

(** X12: An instruction file written by the Copilot adapter is read back as it
    was written, when the rule has patterns, none of them empty, none with
    white space or a comma: the globs extracted from the quoted [applyTo]
    field are the patterns of the rule in their order, the body is the
    content of the rule after an empty line, and the validator of Copilot
    has nothing to report as long as the file has at most 30000
    characters; a longer file gets exactly one issue, an error. *)
Theorem copilot_instruction_file_round_trip (thousands : N -> jsstring)
    (rule : RuleRecommendation.t) :
  RuleRecommendation.appliesTo rule <> [] ->
  forallb cleanPattern (RuleRecommendation.appliesTo rule) = true ->
  extractGlobPatterns
    (WindsurfMore.written copilot (CopilotAdapter.generateInstructionFile rule))
    = RuleRecommendation.appliesTo rule
  /\ body (parseFrontmatter
             (Windsurf.content (CopilotAdapter.generateInstructionFile rule)))
     = [LF] ++ RuleRecommendation.content rule
  /\ ((len (Windsurf.content (CopilotAdapter.generateInstructionFile rule)) <= 30000)%N ->
      Validators.validateCopilotConfig thousands
        (WindsurfMore.written copilot (CopilotAdapter.generateInstructionFile rule)) = [])
  /\ ((30000 < len (Windsurf.content (CopilotAdapter.generateInstructionFile rule)))%N ->
      exists issue,
        Validators.validateCopilotConfig thousands
          (WindsurfMore.written copilot (CopilotAdapter.generateInstructionFile rule))
        = [issue]
        /\ Validator.severity issue = Validator.error).
Proof.
  intros Hne Hg.
  pose proof (instruction_fields rule Hne Hg) as Hfm.
  assert (Hvalid :
    Validators.validateCopilotConfig thousands
      (WindsurfMore.written copilot (CopilotAdapter.generateInstructionFile rule))
    = if (30000 <? len (Windsurf.content (CopilotAdapter.generateInstructionFile rule)))%N
      then [Validator.mkIssue copilot
              (Windsurf.path (CopilotAdapter.generateInstructionFile rule))
              Validator.error
              (lit "File is "
                 ++ thousands
                      (len (Windsurf.content (CopilotAdapter.generateInstructionFile rule)))
                 ++ lit "k chars " ++ [EMDASH]
                 ++ lit " exceeds Copilot 30k char limit")
              (Some (lit "Reduce content size or split into multiple instruction files"))]
      else []).
  { unfold Validators.validateCopilotConfig, WindsurfMore.written, contentOf;
      cbn [Types.filePath Types.content].
    rewrite Hfm; cbn [found fields negb].
    change (getField
              [(lit "applyTo",
                DQ :: patternList (RuleRecommendation.appliesTo rule) ++ [DQ])]
              (lit "applyTo"))
      with (Some (DQ :: patternList (RuleRecommendation.appliesTo rule) ++ [DQ])).
    cbn [falsy truthy negb app].
    assert (Hpath : Windsurf.path (CopilotAdapter.generateInstructionFile rule)
                    = (lit ".github/instructions/" ++ RuleRecommendation.id rule)
                        ++ lit ".instructions.md")
      by (unfold CopilotAdapter.generateInstructionFile; cbv zeta; cbn [Windsurf.path];
          rewrite <- app_assoc; reflexivity).
    assert (He1 : endsWith (Windsurf.path (CopilotAdapter.generateInstructionFile rule))
                    (lit ".instructions.md") = true)
      by (rewrite Hpath; apply endsWith_app).
    assert (He2 : endsWith (Windsurf.path (CopilotAdapter.generateInstructionFile rule))
                    (lit ".agent.md") = false)
      by (rewrite Hpath; apply instructions_not_agent).
    rewrite He1, He2; reflexivity. }
  split; [|split; [|split]].
  - apply instruction_globs_read_back; assumption.
  - rewrite Hfm; reflexivity.
  - intros Hlen; apply N.ltb_ge in Hlen; rewrite Hvalid, Hlen; reflexivity.
  - intros Hlen; apply N.ltb_lt in Hlen; rewrite Hvalid, Hlen.
    eexists; split; reflexivity.
Qed.

Lemma copilot_instruction_file_round_trip_witness :
  extractGlobPatterns
    (WindsurfMore.written copilot (CopilotAdapter.generateInstructionFile tsRule))
    = RuleRecommendation.appliesTo tsRule
  /\ Validators.validateCopilotConfig (fun _ => [])
       (WindsurfMore.written copilot (CopilotAdapter.generateInstructionFile tsRule)) = [].
Proof.
  destruct (copilot_instruction_file_round_trip (fun _ => []) tsRule
              ltac:(discriminate) eq_refl) as (Hglobs & _ & Hvalid & _).
  split; [exact Hglobs | apply Hvalid; vm_compute; discriminate].
Defined.

(** *** The rules of the catalog *)

Lemma catalog_rules_clean (scan : ScanResult) :
  Forall (fun t =>
            noBreak (RuleTemplate.title t) = true
            /\ truthy (trim (RuleTemplate.title t)) = true
            /\ RuleDetails.appliesTo (RuleTemplate.generate t scan) <> []
            /\ forallb cleanPattern (RuleDetails.appliesTo (RuleTemplate.generate t scan))
               = true)
         RuleRecommender.RULE_TEMPLATES.
Proof.
  unfold RuleRecommender.RULE_TEMPLATES.
  repeat constructor;
    unfold RuleRecommender.typescriptStrict, RuleRecommender.reactPatterns,
      RuleRecommender.testingConventions, RuleRecommender.gitConventions,
      RuleRecommender.errorHandling, RuleRecommender.prismaConventions,
      RuleRecommender.tailwindConventions, RuleRecommender.projectStructure;
    cbn [RuleTemplate.generate RuleTemplate.title RuleDetails.appliesTo];
    cbv zeta;
    repeat match goal with
           | |- context [if ?b then _ else _] => destruct b
           end;
    try discriminate;
    try (vm_compute; reflexivity).
Qed.

(** X13: Every rule that [recommendRules] returns survives the way through the
    Cursor adapter and through the Copilot adapter: the globs extracted
    from the written rule file and from the written instruction file are
    the patterns of the rule, and the validator of Cursor has nothing to
    report about the rule file. *)
Theorem recommended_rules_read_back (scan : ScanResult) :
  Forall (fun rule =>
            extractGlobPatterns
              (WindsurfMore.written cursor (CursorAdapter.generateMdcFile rule))
              = RuleRecommendation.appliesTo rule
            /\ Validator.validateCursorConfig
                 (WindsurfMore.written cursor (CursorAdapter.generateMdcFile rule)) = []
            /\ extractGlobPatterns
                 (WindsurfMore.written copilot
                    (CopilotAdapter.generateInstructionFile rule))
               = RuleRecommendation.appliesTo rule)
         (RuleRecommender.recommendRules scan).
Proof.
  unfold RuleRecommender.recommendRules.
  rewrite RuleFacts.recommendRulesFrom_filter.
  apply Forall_forall; intros rule Hrule.
  apply in_map_iff in Hrule; destruct Hrule as (t & <- & Ht).
  apply filter_In in Ht; destruct Ht as [Ht _].
  pose proof (catalog_rules_clean scan) as Hclean.
  rewrite Forall_forall in Hclean.
  destruct (Hclean t Ht) as (Hb & Htitle & Hne & Hg).
  split; [apply mdc_globs_read_back; assumption|].
  split; [apply mdc_validates; assumption|].
  apply instruction_globs_read_back; assumption.
Qed.

End RoundTrip.

(* ================================================================= *)
(** ** The glob patterns of a config, in the validator and in the pruner *)

Module GlobFacts.

Import Validator Pruner.

(** *** What [extractGlobPatterns] returns *)

Lemma dropWhile_suffix (p : char -> bool) (l : jsstring) :
  exists pre, l = pre ++ dropWhile p l.
Proof.
  induction l as [|c l [pre IH]]; [exists []; reflexivity|].
  cbn [dropWhile]; destruct (p c).
  - exists (c :: pre); cbn [app]; rewrite <- IH; reflexivity.
  - exists []; reflexivity.
Qed.

Lemma dropWhile_head (p : char -> bool) (l : jsstring) (c : char) (r : jsstring) :
  dropWhile p l = c :: r -> p c = false.
Proof.
  induction l as [|x l IH]; cbn [dropWhile]; [discriminate|].
  destruct (p x) eqn:Hx; [exact IH|].
  intros [= <- _]; exact Hx.
Qed.

(** The result of [trim] is empty, or it neither starts nor ends with
    white space. *)
Lemma trim_shape (s : jsstring) : trim s = [] \/ RoundTrip.tight (trim s) = true.
Proof.
  unfold trim, trimEnd, trimStart.
  destruct (dropWhile isSpace (rev (dropWhile isSpace s))) as [|d u'] eqn:Hu;
    [left; reflexivity | right].
  pose proof (dropWhile_head _ _ _ _ Hu) as Hd.
  destruct (dropWhile_suffix isSpace (rev (dropWhile isSpace s))) as [pre Hpre].
  rewrite Hu in Hpre.
  apply (f_equal (@rev _)) in Hpre; rewrite rev_involutive, rev_app_distr in Hpre.
  destruct (dropWhile isSpace s) as [|c t'] eqn:Ht.
  - destruct (rev (d :: u')) eqn:E; [|discriminate Hpre].
    apply (f_equal (@List.length _)) in E; rewrite length_rev in E; discriminate E.
  - pose proof (dropWhile_head _ _ _ _ Ht) as Hc.
    destruct (rev (d :: u')) as [|x a] eqn:E.
    + apply (f_equal (@List.length _)) in E; rewrite length_rev in E; discriminate E.
    + injection Hpre as -> _.
      apply (RoundTrip.tight_between _ x a (rev u') d);
        [reflexivity | symmetry; exact E | exact Hc | exact Hd].
Qed.

Lemma dropWhile_In (p : char -> bool) (l : jsstring) (c : char) :
  In c (dropWhile p l) -> In c l.
Proof.
  destruct (dropWhile_suffix p l) as [pre H]; intros Hc.
  rewrite H; apply in_or_app; right; exact Hc.
Qed.

Lemma trim_In (s : jsstring) (c : char) : In c (trim s) -> In c s.
Proof.
  unfold trim, trimEnd, trimStart; intros H.
  apply in_rev, dropWhile_In, in_rev, dropWhile_In in H; exact H.
Qed.

Lemma splitOn_pieces (p : char -> bool) (s : jsstring) :
  forall piece c, In piece (splitOn p s) -> In c piece -> p c = false.
Proof.
  induction s as [|x s IH]; intros piece c; cbn [splitOn].
  - intros [<- | []] [].
  - destruct (p x) eqn:Hx.
    + intros [<- | H]; [intros [] | apply IH, H].
    + destruct (splitOn p s) as [|l ls].
      * intros [<- | []] [<- | []]; exact Hx.
      * intros [<- | H].
        -- intros [<- | Hc]; [exact Hx | apply (IH l); [left; reflexivity | exact Hc]].
        -- apply IH; right; exact H.
Qed.

Lemma trimmed_piece (p : jsstring) (text : jsstring) :
  In p (filterTruthy (map trim (splitOn isComma text))) ->
  p <> [] /\ trim p = p /\ (forall c, In c p -> isComma c = false).
Proof.
  unfold filterTruthy; intros H.
  apply filter_In in H; destruct H as [H Ht].
  apply in_map_iff in H; destruct H as (piece & <- & Hpiece).
  split; [destruct (trim piece); [discriminate Ht | discriminate]|].
  split.
  - destruct (trim_shape piece) as [H | H]; [rewrite H; reflexivity|].
    apply RoundTrip.trim_tight, H.
  - intros c Hc; apply (splitOn_pieces isComma text piece); [exact Hpiece|].
    apply trim_In, Hc.
Qed.

(** X14: Every pattern that [extractGlobPatterns] returns is a piece of the
    [globs] field or of the [applyTo] field of a frontmatter that was
    found: it is not empty, it neither starts nor ends with white space,
    and it holds no comma. *)
Theorem extractGlobPatterns_patterns (config : ExistingConfig) (pattern : jsstring) :
  In pattern (extractGlobPatterns config) ->
  found (parseFrontmatter (contentOf config)) = true
  /\ pattern <> []
  /\ trim pattern = pattern
  /\ (forall c, In c pattern -> isComma c = false)
  /\ (exists field,
        (getField (fields (parseFrontmatter (contentOf config))) (lit "globs") = Some field
         \/ getField (fields (parseFrontmatter (contentOf config))) (lit "applyTo") = Some field)
        /\ field <> []).
Proof.
  unfold extractGlobPatterns.
  destruct (found (parseFrontmatter (contentOf config))); cbn [negb]; [|intros []].
  intros H; split; [reflexivity|].
  assert (Hpiece : exists text, In pattern (filterTruthy (map trim (splitOn isComma text)))
            /\ exists field,
                 (getField (fields (parseFrontmatter (contentOf config))) (lit "globs")
                    = Some field
                  \/ getField (fields (parseFrontmatter (contentOf config))) (lit "applyTo")
                     = Some field)
                 /\ field <> []).
  { unfold filterTruthy in *.
    destruct (getField (fields (parseFrontmatter (contentOf config))) (lit "globs"))
      as [globs|] eqn:Hglobs;
    destruct (getField (fields (parseFrontmatter (contentOf config))) (lit "applyTo"))
      as [field|] eqn:HapplyTo;
    try destruct (truthy globs) eqn:Hg; try destruct (truthy field) eqn:Hf;
    cbn [app] in H; rewrite ?filter_app in H;
    repeat (apply in_app_or in H; destruct H as [H | H]).
    all: first
      [ solve [destruct H]
      | solve [exists globs; split; [exact H|]; exists globs; split; [auto|];
               intros E; rewrite E in Hg; discriminate Hg]
      | solve [exists (unquote field); split; [exact H|]; exists field; split; [auto|];
               intros E; rewrite E in Hf; discriminate Hf] ]. }
  destruct Hpiece as (text & Hp & Hfield).
  destruct (trimmed_piece pattern text Hp) as (H1 & H2 & H3).
  auto.
Qed.

Lemma extractGlobPatterns_patterns_witness :
  lit "**/*.rs" <> [] /\ trim (lit "**/*.rs") = lit "**/*.rs".
Proof.
  destruct (extractGlobPatterns_patterns ValidatorFacts.mixedRule (lit "**/*.rs"))
    as (_ & Hne & Htrim & _).
  - vm_compute; tauto.
  - split; [exact Hne | exact Htrim].
Defined.

(** *** The pruner on dead globs *)

Section DeadGlobFacts.

Variable isAbsolute : jsstring -> bool.
Variable pathJoin : jsstring -> jsstring -> jsstring.
Variable glob : jsstring -> option (list jsstring).

(** The patterns the liveness checks look at: the ones that are not
    universal. *)
Definition specificPatterns (config : ExistingConfig) : list jsstring :=
  filter (fun p => negb (isUniversal p)) (extractGlobPatterns config).

(** The number of files a pattern counts for in [checkDeadGlobs]. *)
Definition matchCount (projectRoot pattern : jsstring) : nat :=
  if isUnsafe isAbsolute pattern then 0
  else match glob (slashes (pathJoin projectRoot pattern)) with
       | Some matches => List.length matches
       | None => 0
       end.

(** The patterns handed to [glob] for a pattern. *)
Definition resolvedFor (projectRoot pattern : jsstring) : list jsstring :=
  if isUnsafe isAbsolute pattern then []
  else [slashes (pathJoin projectRoot pattern)].

Lemma fold_countPattern (projectRoot : jsstring) (patterns : list jsstring) :
  forall n resolved,
    fold_left (countPattern isAbsolute pathJoin glob projectRoot) patterns (n, resolved)
    = (n + list_sum (map (matchCount projectRoot) patterns),
       resolved ++ flat_map (resolvedFor projectRoot) patterns).
Proof.
  induction patterns as [|p ps IH]; intros n resolved; cbn [fold_left map list_sum flat_map].
  - rewrite Nat.add_0_r, app_nil_r; reflexivity.
  - unfold countPattern at 2, matchCount at 1, resolvedFor at 1, isUnsafe.
    destruct (includes p (lit "..") || isAbsolute p).
    + rewrite IH; reflexivity.
    + destruct (glob _) as [matches|]; rewrite IH, <- app_assoc; cbn [app];
        f_equal; unfold list_sum; cbn [fold_right]; lia.
Qed.

Lemma list_sum_zero (l : list nat) :
  list_sum l = 0 <-> forall n, In n l -> n = 0.
Proof.
  induction l as [|x l IH].
  - split; [intros _ n [] | reflexivity].
  - change (list_sum (x :: l)) with (x + list_sum l); split.
    + intros H n [<- | Hn]; [lia | apply IH; [lia | exact Hn]].
    + intros H; rewrite (H x (or_introl eq_refl)), (proj2 IH); [reflexivity|].
      intros n Hn; apply H; right; exact Hn.
Qed.

(** A pattern that resolves to at least one file of the project. *)
Definition alive (projectRoot pattern : jsstring) : Prop :=
  isUnsafe isAbsolute pattern = false
  /\ exists m ms, glob (slashes (pathJoin projectRoot pattern)) = Some (m :: ms).

Lemma matchCount_alive (projectRoot pattern : jsstring) :
  matchCount projectRoot pattern <> 0 <-> alive projectRoot pattern.
Proof.
  unfold matchCount, alive.
  destruct (isUnsafe isAbsolute pattern).
  - split; [intros H; destruct (H eq_refl) | intros [H _]; discriminate H].
  - destruct (glob _) as [[|m ms]|]; cbn [List.length].
    + split; [intros H; destruct (H eq_refl) | intros (_ & m & ms & H); discriminate H].
    + split; [intros _; split; [reflexivity | exists m, ms; reflexivity] | discriminate].
    + split; [intros H; destruct (H eq_refl) | intros (_ & m & ms & H); discriminate H].
Qed.

(** The candidate of [checkDeadGlobs] for a config. *)
Definition deadTarget (config : ExistingConfig) : PruneTarget :=
  mkTarget (Types.tool config) (filePath config) dead_globs
    (lit "All glob patterns match 0 files: "
       ++ join (lit ", ") (specificPatterns config))
    (Types.sizeBytes config).

Lemma checkDeadGlobs_eq (config : ExistingConfig) (projectRoot : jsstring) :
  checkDeadGlobs isAbsolute pathJoin glob config projectRoot =
    match specificPatterns config with
    | [] => (None, [])
    | _ =>
        (if Nat.eqb (list_sum (map (matchCount projectRoot) (specificPatterns config))) 0
         then Some (deadTarget config) else None,
         flat_map (resolvedFor projectRoot) (specificPatterns config))
    end.
Proof.
  unfold checkDeadGlobs, deadTarget, specificPatterns.
  destruct (extractGlobPatterns config) as [|p ps] eqn:Hp; [reflexivity|].
  cbn [List.length Nat.eqb].
  destruct (filter _ (p :: ps)) as [|q qs] eqn:Hq; [reflexivity|].
  cbn [List.length Nat.eqb].
  rewrite fold_countPattern; cbn [Nat.add app].
  destruct (Nat.eqb _ 0); reflexivity.
Qed.

(** A config that [checkDeadGlobs] flags has a pattern that is not
    universal, and none of these patterns is alive. *)
Lemma flagged_dead (config : ExistingConfig) (projectRoot : jsstring)
    (target : PruneTarget) :
  fst (checkDeadGlobs isAbsolute pathJoin glob config projectRoot) = Some target ->
  specificPatterns config <> []
  /\ forall pattern, In pattern (specificPatterns config) -> ~ alive projectRoot pattern.
Proof.
  rewrite checkDeadGlobs_eq.
  destruct (specificPatterns config) as [|q qs]; [discriminate|].
  cbn [fst].
  destruct (Nat.eqb_spec (list_sum (map (matchCount projectRoot) (q :: qs))) 0)
    as [Hz | _]; [|discriminate].
  intros _; split; [discriminate|].
  intros pattern Hin Halive; apply matchCount_alive in Halive; apply Halive.
  apply (proj1 (list_sum_zero _) Hz), in_map, Hin.
Qed.

(** X15: [checkDeadGlobs] flags a config exactly when it has a pattern that is
    not universal and none of these patterns is alive: a pattern with
    [..] or an absolute one counts for no file, and so does a pattern on
    which [glob] throws. A config whose patterns are all universal, or
    that has no pattern, is never flagged. The candidate names the config
    and lists all patterns that are not universal. *)
Theorem checkDeadGlobs_flags (config : ExistingConfig) (projectRoot : jsstring) :
  (fst (checkDeadGlobs isAbsolute pathJoin glob config projectRoot) = None <->
   specificPatterns config = []
   \/ exists pattern, In pattern (specificPatterns config) /\ alive projectRoot pattern)
  /\ (fst (checkDeadGlobs isAbsolute pathJoin glob config projectRoot) <> None <->
      specificPatterns config <> []
      /\ forall pattern, In pattern (specificPatterns config) -> ~ alive projectRoot pattern)
  /\ (forall target,
        fst (checkDeadGlobs isAbsolute pathJoin glob config projectRoot) = Some target ->
        target = deadTarget config).
Proof.
  rewrite checkDeadGlobs_eq.
  destruct (specificPatterns config) as [|q qs] eqn:Hq.
  - cbn [fst]; split; [|split].
    + split; [left; reflexivity | reflexivity].
    + split; [intros H; destruct (H eq_refl) | intros [H _]; destruct (H eq_refl)].
    + discriminate.
  - cbn [fst].
    destruct (Nat.eqb_spec (list_sum (map (matchCount projectRoot) (q :: qs))) 0)
      as [Hz | Hnz].
    + assert (Hdead : forall pattern, In pattern (q :: qs) -> ~ alive projectRoot pattern).
      { intros pattern Hin Halive; apply matchCount_alive in Halive; apply Halive.
        apply (proj1 (list_sum_zero _) Hz), in_map, Hin. }
      split; [|split].
      * split; [discriminate|].
        intros [H | (pattern & Hin & Halive)]; [discriminate H|].
        destruct (Hdead pattern Hin Halive).
      * split; [intros _; split; [discriminate | exact Hdead] | discriminate].
      * intros target [= <-]; reflexivity.
    + assert (Hlive : exists pattern, In pattern (q :: qs) /\ alive projectRoot pattern).
      { assert (H : exists n, In n (map (matchCount projectRoot) (q :: qs)) /\ n <> 0).
        { clear Hq; induction (map (matchCount projectRoot) (q :: qs)) as [|x l IH].
          - destruct (Hnz eq_refl).
          - change (list_sum (x :: l)) with (x + list_sum l) in Hnz.
            destruct (Nat.eq_dec x 0) as [-> | Hx].
            + destruct (IH Hnz) as (n & Hn & Hn0); exists n; split; [right|]; assumption.
            + exists x; split; [left; reflexivity | exact Hx]. }
        destruct H as (n & Hn & Hn0).
        apply in_map_iff in Hn; destruct Hn as (pattern & <- & Hin).
        exists pattern; split; [exact Hin | apply matchCount_alive, Hn0]. }
      split; [|split].
      * split; [intros _; right; exact Hlive | reflexivity].
      * split; [intros H; destruct (H eq_refl)|].
        intros [_ Hdead]; destruct Hlive as (pattern & Hin & Halive).
        destruct (Hdead pattern Hin Halive).
      * discriminate.
Qed.

(** *** The pruner and the validator on the same config *)

Lemma patternOutcome_specific (config : ExistingConfig) (projectRoot pattern : jsstring) :
  isUniversal pattern = false ->
  snd (ValidatorFacts.patternOutcome isAbsolute pathJoin glob config projectRoot pattern)
    = resolvedFor projectRoot pattern
  /\ (~ alive projectRoot pattern ->
      List.length
        (fst (ValidatorFacts.patternOutcome isAbsolute pathJoin glob config projectRoot
                pattern)) = 1)
  /\ (alive projectRoot pattern ->
      fst (ValidatorFacts.patternOutcome isAbsolute pathJoin glob config projectRoot pattern)
      = []).
Proof.
  intros Hu; unfold ValidatorFacts.patternOutcome, checkPattern, resolvedFor, alive.
  rewrite Hu.
  destruct (isUnsafe isAbsolute pattern); cbn [fst snd app List.length].
  - split; [reflexivity|]. split; [reflexivity | intros [H _]; discriminate H].
  - destruct (glob _) as [[|m ms]|]; cbn [fst snd app List.length Nat.eqb].
    + split; [reflexivity|]. split; [reflexivity|].
      intros (_ & m & ms & H); discriminate H.
    + split; [reflexivity|]. split; [|reflexivity].
      intros H; exfalso; apply H; split; [reflexivity | exists m, ms; reflexivity].
    + split; [reflexivity|]. split; [reflexivity|].
      intros (_ & m & ms & H); discriminate H.
Qed.

Lemma patternOutcome_universal (config : ExistingConfig) (projectRoot pattern : jsstring) :
  isUniversal pattern = true ->
  ValidatorFacts.patternOutcome isAbsolute pathJoin glob config projectRoot pattern
  = ([], []).
Proof.
  intros Hu; unfold ValidatorFacts.patternOutcome, checkPattern; rewrite Hu; reflexivity.
Qed.

Lemma flat_map_specific {B : Type} (f : jsstring -> list B) (patterns : list jsstring) :
  (forall p, isUniversal p = true -> f p = []) ->
  flat_map f patterns = flat_map f (filter (fun p => negb (isUniversal p)) patterns).
Proof.
  intros Hf; induction patterns as [|p ps IH]; [reflexivity|].
  cbn [flat_map filter]; destruct (isUniversal p) eqn:Hu; cbn [negb flat_map].
  - rewrite (Hf p Hu); exact IH.
  - rewrite IH; reflexivity.
Qed.

(** X16: The pruner and the validator agree on the globs of a config. Both
    hand the same patterns to [glob], in the same order. A config that
    the pruner flags for dead globs gets one issue from
    [validateGlobPatterns] for each of its patterns that is not
    universal; so a config on which [validateGlobPatterns] has nothing to
    report is never flagged for dead globs. *)
Theorem pruner_agrees_with_validator (config : ExistingConfig) (projectRoot : jsstring) :
  snd (checkDeadGlobs isAbsolute pathJoin glob config projectRoot)
    = snd (validateGlobPatternsTraced isAbsolute pathJoin glob config projectRoot)
  /\ (forall target,
        fst (checkDeadGlobs isAbsolute pathJoin glob config projectRoot) = Some target ->
        List.length (validateGlobPatterns isAbsolute pathJoin glob config projectRoot)
          = List.length (specificPatterns config)
        /\ 1 <= List.length (specificPatterns config))
  /\ (validateGlobPatterns isAbsolute pathJoin glob config projectRoot = [] ->
      fst (checkDeadGlobs isAbsolute pathJoin glob config projectRoot) = None).
Proof.
  assert (Hissues :
    validateGlobPatterns isAbsolute pathJoin glob config projectRoot
    = flat_map (fun p => fst (ValidatorFacts.patternOutcome isAbsolute pathJoin glob
                                config projectRoot p))
               (specificPatterns config)).
  { unfold validateGlobPatterns, validateGlobPatternsTraced.
    rewrite ValidatorFacts.fold_checkPattern; cbn [fst app].
    apply flat_map_specific; intros p Hu.
    rewrite patternOutcome_universal by exact Hu; reflexivity. }
  assert (Hresolved :
    snd (validateGlobPatternsTraced isAbsolute pathJoin glob config projectRoot)
    = flat_map (resolvedFor projectRoot) (specificPatterns config)).
  { unfold validateGlobPatternsTraced.
    rewrite ValidatorFacts.fold_checkPattern; cbn [snd app].
    rewrite (flat_map_specific
               (fun p => snd (ValidatorFacts.patternOutcome isAbsolute pathJoin glob
                                config projectRoot p)))
      by (intros p Hu; rewrite patternOutcome_universal by exact Hu; reflexivity).
    unfold specificPatterns.
    induction (extractGlobPatterns config) as [|p ps IH]; [reflexivity|].
    cbn [filter]; destruct (isUniversal p) eqn:Hu; cbn [negb flat_map]; [exact IH|].
    rewrite IH, (proj1 (patternOutcome_specific config projectRoot p Hu)); reflexivity. }
  assert (Hflagged : forall target,
    fst (checkDeadGlobs isAbsolute pathJoin glob config projectRoot) = Some target ->
    List.length (validateGlobPatterns isAbsolute pathJoin glob config projectRoot)
      = List.length (specificPatterns config)
    /\ 1 <= List.length (specificPatterns config)).
  { intros target Ht.
    destruct (flagged_dead config projectRoot target Ht) as [Hne Hdead].
    split; [|destruct (specificPatterns config); [contradiction | cbn; lia]].
    rewrite Hissues.
    assert (Hspec : forall p, In p (specificPatterns config) -> isUniversal p = false).
    { intros p Hp; unfold specificPatterns in Hp; apply filter_In in Hp.
      apply negb_true_iff, Hp. }
    clear Hne Ht Hissues Hresolved.
    induction (specificPatterns config) as [|p ps IH]; [reflexivity|].
    cbn [flat_map]; rewrite length_app, IH.
    - destruct (patternOutcome_specific config projectRoot p
                  (Hspec p (or_introl eq_refl))) as (_ & Hone & _).
      rewrite Hone by (apply Hdead; left; reflexivity); reflexivity.
    - intros q Hq; apply Hdead; right; exact Hq.
    - intros q Hq; apply Hspec; right; exact Hq. }
  split; [|split].
  - rewrite Hresolved, checkDeadGlobs_eq.
    destruct (specificPatterns config); reflexivity.
  - exact Hflagged.
  - intros Hnone.
    destruct (fst (checkDeadGlobs isAbsolute pathJoin glob config projectRoot))
      as [target|] eqn:Ht; [|reflexivity].
    destruct (Hflagged target eq_refl) as [Hlen Hpos].
    rewrite Hnone in Hlen; cbn [List.length] in Hlen; lia.
Qed.

End DeadGlobFacts.

End GlobFacts.

(* ================================================================= *)
(** ** [validateConfigs]: what it counts *)

Module ValidateFacts.

Import Validator Validators.

Section Counting.

Variable kilobytes : N -> jsstring.
Variable thousands : N -> jsstring.
Variable schemaOf : jsstring -> option bool.
Variable isAbsolute : jsstring -> bool.
Variable pathJoin : jsstring -> jsstring -> jsstring.
Variable glob : jsstring -> option (list jsstring).

Abbreviation issuesOf := (Validators.issuesOf kilobytes thousands schemaOf isAbsolute pathJoin glob).
Abbreviation validateConfigs :=
  (Validators.validateConfigs kilobytes thousands schemaOf isAbsolute pathJoin glob).

(** Every issue names the file of the config it was found in. *)
Definition aboutConfig (config : ExistingConfig) (l : list ValidationIssue) : Prop :=
  Forall (fun i => file i = filePath config) l.

Lemma aboutConfig_nil (config : ExistingConfig) : aboutConfig config [].
Proof. constructor. Qed.

Lemma aboutConfig_app (config : ExistingConfig) (l1 l2 : list ValidationIssue) :
  aboutConfig config l1 -> aboutConfig config l2 -> aboutConfig config (l1 ++ l2).
Proof. intros H1 H2; apply Forall_app; split; assumption. Qed.

Lemma aboutConfig_one (config : ExistingConfig) t s m f :
  aboutConfig config [mkIssue t (filePath config) s m f].
Proof. repeat constructor. Qed.

Ltac about :=
  repeat first
    [ apply aboutConfig_nil
    | apply aboutConfig_one
    | apply aboutConfig_app
    | match goal with
      | |- aboutConfig _ (if ?b then _ else _) => destruct b
      | |- aboutConfig _ (match ?o with Some _ => _ | None => _ end) => destruct o
      end ].

Lemma toolValidator_file (config : ExistingConfig) :
  aboutConfig config (toolValidator kilobytes thousands schemaOf config).
Proof.
  unfold toolValidator.
  destruct (Types.tool config).
  - unfold validateClaudeConfig; cbv zeta; about.
  - unfold validateCursorConfig; cbv zeta; about.
  - unfold validateCodexConfig; cbv zeta; about.
  - unfold validateCopilotConfig; cbv zeta; about.
  - unfold validateWindsurfConfig; cbv zeta; about.
  - unfold validateGeminiConfig; cbv zeta; about.
  - unfold validateAmpConfig; cbv zeta; about.
Qed.

Lemma globIssues_file (config : ExistingConfig) (projectRoot : jsstring) :
  aboutConfig config (validateGlobPatterns isAbsolute pathJoin glob config projectRoot).
Proof.
  unfold validateGlobPatterns, validateGlobPatternsTraced.
  rewrite ValidatorFacts.fold_checkPattern; cbn [fst app].
  induction (extractGlobPatterns config) as [|p ps IH]; [constructor|].
  cbn [flat_map]; apply aboutConfig_app; [|exact IH].
  unfold ValidatorFacts.patternOutcome, checkPattern.
  destruct (isUniversal p); [constructor|].
  destruct (isUnsafe isAbsolute p); [repeat constructor|].
  destruct (glob _) as [matches|]; [|repeat constructor].
  destruct (Nat.eqb _ 0); repeat constructor.
Qed.

Lemma issuesOf_file (projectRoot : jsstring) (config : ExistingConfig) :
  aboutConfig config (issuesOf projectRoot config).
Proof.
  unfold Validators.issuesOf; apply aboutConfig_app;
    [apply toolValidator_file | apply globIssues_file].
Qed.

Lemma fold_issues (projectRoot : jsstring) (configs : list ExistingConfig) :
  forall acc,
    fold_left (fun all config => all ++ issuesOf projectRoot config) configs acc
    = acc ++ flat_map (issuesOf projectRoot) configs.
Proof.
  induction configs as [|c cs IH]; intros acc; cbn [fold_left flat_map].
  - symmetry; apply app_nil_r.
  - rewrite IH, <- app_assoc; reflexivity.
Qed.

(** The issues of all configs, in the order of the configs. *)
Definition allIssues (projectRoot : jsstring) (configs : list ExistingConfig)
    : list ValidationIssue :=
  flat_map (issuesOf projectRoot) configs.

(** A config with at least one issue of severity error. *)
Definition hasError (projectRoot : jsstring) (config : ExistingConfig) : bool :=
  existsb isError (issuesOf projectRoot config).

Lemma setOf_incl_length (xs ys : list jsstring) :
  incl xs ys -> NoDup ys -> List.length (Fixer.setOf xs) <= List.length ys.
Proof.
  intros Hincl _.
  apply NoDup_incl_length;
    [apply (FixerFacts.distinct_NoDup JS.eqb JSFacts.eqb_spec)|].
  intros x Hx; apply Hincl.
  apply (proj1 (FixerFacts.distinct_In JS.eqb JSFacts.eqb_spec xs x)), Hx.
Qed.

Lemma setOf_repeat_app (x : jsstring) (n : nat) (l : list jsstring) :
  ~ In x l ->
  Fixer.setOf (repeat x n ++ l) =
    (if 0 <? n then [x] else []) ++ Fixer.setOf l.
Proof.
  intros Hx; unfold Fixer.setOf.
  assert (Hkeep : filter (fun y => negb (JS.eqb y x)) (Fixer.distinct JS.eqb l)
                  = Fixer.distinct JS.eqb l).
  { apply forallb_filter_id, forallb_forall; intros y Hy.
    apply (proj1 (FixerFacts.distinct_In JS.eqb JSFacts.eqb_spec l y)) in Hy.
    destruct (JSFacts.eqb_spec y x) as [-> | _]; [contradiction | reflexivity]. }
  induction n as [|n IH]; [reflexivity|].
  cbn [repeat app Fixer.distinct]; rewrite IH.
  change (0 <? S n) with true; cbn [app].
  destruct n as [|n]; cbn [Nat.ltb Nat.leb app filter].
  - rewrite Hkeep; reflexivity.
  - change (0 <? S n) with true; cbn [app filter].
    rewrite JSFacts.eqb_refl; cbn [negb]; rewrite Hkeep; reflexivity.
Qed.

Lemma error_files (projectRoot : jsstring) (config : ExistingConfig) :
  map file (filter isError (issuesOf projectRoot config))
  = repeat (filePath config)
      (List.length (filter isError (issuesOf projectRoot config))).
Proof.
  pose proof (issuesOf_file projectRoot config) as H; unfold aboutConfig in H.
  induction (issuesOf projectRoot config) as [|i l IH]; [reflexivity|].
  apply Forall_cons_iff in H; destruct H as [Hi Hl].
  cbn [filter]; destruct (isError i); cbn [map List.length repeat];
    [rewrite Hi, (IH Hl); reflexivity | exact (IH Hl)].
Qed.

Lemma error_count (l : list ValidationIssue) :
  (0 <? List.length (filter isError l)) = existsb isError l.
Proof.
  induction l as [|i l IH]; [reflexivity|].
  cbn [filter existsb]; destruct (isError i); [reflexivity | exact IH].
Qed.

Lemma error_file_set (projectRoot : jsstring) (configs : list ExistingConfig) :
  NoDup (map filePath configs) ->
  Fixer.setOf (map file (filter isError (allIssues projectRoot configs)))
  = map filePath (filter (hasError projectRoot) configs).
Proof.
  unfold allIssues.
  induction configs as [|c cs IH]; intros Hnd; [reflexivity|].
  apply NoDup_cons_iff in Hnd; destruct Hnd as [Hc Hnd].
  cbn [flat_map]; rewrite filter_app, map_app, error_files.
  rewrite setOf_repeat_app.
  - rewrite error_count, (IH Hnd).
    cbn [filter]; unfold hasError at 2.
    destruct (existsb isError (issuesOf projectRoot c)); reflexivity.
  - intros Hin; apply Hc.
    apply in_map_iff in Hin; destruct Hin as (i & Hfile & Hi).
    apply filter_In in Hi; destruct Hi as [Hi _].
    apply in_flat_map in Hi; destruct Hi as (c' & Hc' & Hi).
    pose proof (issuesOf_file projectRoot c') as Habout.
    unfold aboutConfig in Habout; rewrite Forall_forall in Habout.
    rewrite <- Hfile, (Habout i Hi); apply in_map, Hc'.
Qed.

Lemma error_files_incl (projectRoot : jsstring) (configs : list ExistingConfig) :
  incl (map file (filter isError (allIssues projectRoot configs)))
       (map filePath configs).
Proof.
  intros f Hf.
  apply in_map_iff in Hf; destruct Hf as (i & <- & Hi).
  apply filter_In in Hi; destruct Hi as [Hi _].
  apply in_flat_map in Hi; destruct Hi as (c & Hc & Hi).
  pose proof (issuesOf_file projectRoot c) as Habout.
  unfold aboutConfig in Habout; rewrite Forall_forall in Habout.
  rewrite (Habout i Hi); apply in_map, Hc.
Qed.

Lemma severity_partition (l : list ValidationIssue) :
  List.length (filter isError l) + List.length (filter isWarning l) = List.length l.
Proof.
  induction l as [|i l IH]; [reflexivity|].
  unfold isError, isWarning in *; cbn [filter].
  destruct (severity i); cbn [List.length]; lia.
Qed.

Lemma filter_complement {A : Type} (p : A -> bool) (l : list A) :
  List.length (filter p l) + List.length (filter (fun x => negb (p x)) l)
  = List.length l.
Proof.
  induction l as [|x l IH]; [reflexivity|].
  cbn [filter]; destruct (p x); cbn [negb List.length]; lia.
Qed.

(** X17: What [validateConfigs] counts. The errors of the result are the
    issues of severity error of all configs and the warnings the ones of
    severity warning, in the order in which they were found, so every
    issue is in exactly one of the two lists. The number of valid configs
    is never negative and never above the number of configs; when no two
    configs have the same path, it is the number of configs without an
    issue of severity error, so warnings alone never make a config
    invalid. *)
Theorem validateConfigs_counts (configs : list ExistingConfig) (projectRoot : jsstring) :
  Validators.issues (validateConfigs configs projectRoot)
    = filter isError (allIssues projectRoot configs)
  /\ Validators.warnings (validateConfigs configs projectRoot)
     = filter isWarning (allIssues projectRoot configs)
  /\ List.length (Validators.issues (validateConfigs configs projectRoot))
     + List.length (Validators.warnings (validateConfigs configs projectRoot))
     = List.length (allIssues projectRoot configs)
  /\ configsFound (validateConfigs configs projectRoot) = List.length configs
  /\ (0 <= configsValid (validateConfigs configs projectRoot)
      <= Z.of_nat (List.length configs))%Z
  /\ (NoDup (map filePath configs) ->
      configsValid (validateConfigs configs projectRoot)
      = Z.of_nat (List.length
                    (filter (fun c => negb (hasError projectRoot c)) configs))).
Proof.
  unfold Validators.validateConfigs; cbv zeta.
  cbn [Validators.issues Validators.warnings configsFound configsValid].
  rewrite fold_issues; cbn [app]; fold (allIssues projectRoot configs).
  split; [reflexivity|]. split; [reflexivity|].
  split; [apply severity_partition|]. split; [reflexivity|].
  split.
  - pose proof (error_files_incl projectRoot configs) as Hincl.
    assert (Hle : List.length
                    (Fixer.setOf (map file (filter isError (allIssues projectRoot configs))))
                  <= List.length (map filePath configs)).
    { apply NoDup_incl_length;
        [apply (FixerFacts.distinct_NoDup JS.eqb JSFacts.eqb_spec)|].
      intros x Hx; apply Hincl.
      apply (proj1 (FixerFacts.distinct_In JS.eqb JSFacts.eqb_spec _ x)), Hx. }
    rewrite length_map in Hle; lia.
  - intros Hnd; rewrite (error_file_set projectRoot configs Hnd), length_map.
    pose proof (filter_complement (hasError projectRoot) configs); lia.
Qed.

End Counting.

End ValidateFacts.

(* ================================================================= *)
(** ** The conflict analyzer as a whole *)

Module AnalyzerFacts.

Import Fixer Analyzer.

(** *** Overlap without repeated triggers *)

Lemma shared_count_le (xs ys : list jsstring) :
  NoDup xs ->
  List.length (filter (fun t => mem t ys) xs)
  <= List.length (filter (fun t => mem t xs) ys).
Proof.
  intros Hx; apply NoDup_incl_length; [apply NoDup_filter, Hx|].
  intros t Ht; apply filter_In in Ht; destruct Ht as [Hin Hmem].
  apply filter_In; split; [apply JSFacts.mem_In, Hmem | apply JSFacts.mem_In, Hin].
Qed.

Lemma sharedTriggers_NoDup (a b : ParsedAgent) :
  NoDup (triggers b) ->
  sharedTriggers a b = filter (fun t => mem t (triggers b)) (triggers a).
Proof.
  intros Hb; unfold sharedTriggers, setOf.
  rewrite (FixerFacts.distinct_of_NoDup JS.eqb JSFacts.eqb_spec _ Hb); reflexivity.
Qed.

Lemma shared_count (a b : ParsedAgent) :
  NoDup (triggers a) -> NoDup (triggers b) ->
  List.length (sharedTriggers a b) = List.length (sharedTriggers b a).
Proof.
  intros Ha Hb; rewrite (sharedTriggers_NoDup a b Hb), (sharedTriggers_NoDup b a Ha).
  apply Nat.le_antisymm; apply shared_count_le; assumption.
Qed.

Lemma overlapPair_symmetric (a b : ParsedAgent) :
  NoDup (triggers a) -> NoDup (triggers b) ->
  (overlapPair a b = [] <-> overlapPair b a = []).
Proof.
  intros Ha Hb; unfold overlapPair.
  rewrite (shared_count a b Ha Hb).
  rewrite (orb_comm (Nat.eqb (List.length (triggers a)) 0)).
  rewrite (Nat.min_comm (setSize (triggers a))).
  destruct (_ || _); [tauto|].
  destruct (_ && _); [|tauto].
  split; discriminate.
Qed.

(** X18: When no record lists a trigger twice, the overlap of two records
    does not depend on their order: both orders count the same number of
    shared triggers, and one order is flagged exactly when the other one
    is. *)
Theorem overlap_symmetric_without_repetition (a b : ParsedAgent) :
  NoDup (triggers a) -> NoDup (triggers b) ->
  List.length (sharedTriggers a b) = List.length (sharedTriggers b a)
  /\ (overlapPair a b = [] <-> overlapPair b a = [])
  /\ (detectOverlaps [a; b] = [] <-> detectOverlaps [b; a] = []).
Proof.
  intros Ha Hb.
  split; [apply shared_count; assumption|].
  split; [apply overlapPair_symmetric; assumption|].
  cbn [detectOverlaps flat_map]; rewrite !app_nil_r.
  apply overlapPair_symmetric; assumption.
Qed.

Lemma overlap_symmetric_without_repetition_witness :
  List.length (sharedTriggers FixerFacts.writer
                 (mkAgent claude (lit "a.md") (lit "A") [] [lit "docs"; lit "api"]))
  = List.length (sharedTriggers
                   (mkAgent claude (lit "a.md") (lit "A") [] [lit "docs"; lit "api"])
                   FixerFacts.writer).
Proof.
  apply overlap_symmetric_without_repetition.
  - repeat constructor; cbn; intros H;
      repeat (destruct H as [H | H]; [discriminate H|]); exact H.
  - repeat constructor; cbn; intros H;
      repeat (destruct H as [H | H]; [discriminate H|]); exact H.
Defined.

Section WholeAnalysis.

Variable toLowerCase : jsstring -> jsstring.

(** *** Vague descriptions *)

(** A description that [detectVagueDescriptions] reports. *)
Definition isVague (agent : ParsedAgent) : bool :=
  (List.length (description agent) <? 30)
  || negb (existsb (fun v => includes (toLowerCase (description agent)) v) ACTION_VERBS).

Lemma checkDescription_cases (agent : ParsedAgent) :
  checkDescription toLowerCase agent =
    if List.length (description agent) <? 30 then [shortIssue agent]
    else if isVague agent then [verblessIssue agent] else [].
Proof.
  unfold checkDescription, isVague; cbv zeta.
  destruct (List.length (description agent) <? 30); [reflexivity|].
  cbn [orb]; reflexivity.
Qed.

(** The issue for a vague description. *)
Definition vagueIssue (agent : ParsedAgent) : FixIssue :=
  if List.length (description agent) <? 30
  then shortIssue agent else verblessIssue agent.

Lemma detectVagueDescriptions_map (agents : list ParsedAgent) :
  detectVagueDescriptions toLowerCase agents = map vagueIssue (filter isVague agents).
Proof.
  unfold detectVagueDescriptions.
  induction agents as [|a l IH]; [reflexivity|].
  cbn [flat_map filter]; rewrite checkDescription_cases, IH.
  destruct (List.length (description a) <? 30) eqn:Hshort.
  - assert (Hv : isVague a = true) by (unfold isVague; rewrite Hshort; reflexivity).
    rewrite Hv; cbn [map app]; unfold vagueIssue at 2; rewrite Hshort; reflexivity.
  - destruct (isVague a); [|reflexivity].
    cbn [map app]; unfold vagueIssue at 2; rewrite Hshort; reflexivity.
Qed.

(** X19: [detectVagueDescriptions] reports every record with a vague
    description once, in the order of the records, and no other record:
    a description is vague when it has less than 30 characters or when no
    action verb occurs in it. A short description is reported as short
    only, whether or not it has an action verb. *)
Theorem detectVagueDescriptions_once (agents : list ParsedAgent) :
  map Fixer.agents (detectVagueDescriptions toLowerCase agents)
    = map (fun a => [file a]) (filter isVague agents)
  /\ detectVagueDescriptions toLowerCase agents
     = map (fun a => if List.length (description a) <? 30
                     then shortIssue a else verblessIssue a)
           (filter isVague agents)
  /\ List.length (detectVagueDescriptions toLowerCase agents) <= List.length agents
  /\ Forall (fun i => type i = vague /\ severity i = warning)
            (detectVagueDescriptions toLowerCase agents).
Proof.
  rewrite detectVagueDescriptions_map.
  split; [|split; [|split]].
  - rewrite map_map; apply map_ext; intros a.
    unfold vagueIssue; destruct (_ <? 30); reflexivity.
  - reflexivity.
  - rewrite length_map; apply filter_length_le.
  - apply Forall_forall; intros i Hi.
    apply in_map_iff in Hi; destruct Hi as (a & <- & _).
    unfold vagueIssue; destruct (_ <? 30); split; reflexivity.
Qed.

(** *** Where the records and the issues come from *)

Lemma parseSection_from (config : ExistingConfig) (section : jsstring)
    (agent : ParsedAgent) :
  In agent (parseSection toLowerCase config section) ->
  tool agent = Types.tool config /\ file agent = filePath config /\ name agent <> [].
Proof.
  unfold parseSection; cbv zeta.
  destruct (truthy (orElse (trim (hd [] (splitLines section))) [])) eqn:Hname;
    cbn [negb]; [|intros []].
  destruct (existsb _ STRUCTURAL_HEADINGS); [intros []|].
  intros [<- | []]; cbn [tool file name].
  repeat split.
  intros E; rewrite E in Hname; discriminate Hname.
Qed.

Lemma agentsOf_from (config : ExistingConfig) (agent : ParsedAgent) :
  In agent (agentsOf toLowerCase config) ->
  isAgentFile config = true
  /\ tool agent = Types.tool config /\ file agent = filePath config
  /\ (name agent <> [] \/ description agent <> []).
Proof.
  unfold agentsOf.
  destruct (isAgentFile config); cbn [negb]; [|intros []].
  destruct (_ || _).
  - unfold parseAgentsFromAgentsMd; cbv zeta; intros H.
    apply in_flat_map in H; destruct H as (section & _ & H).
    destruct (parseSection_from config section agent H) as (Ht & Hf & Hn).
    auto.
  - unfold parseAgentFromFile; cbv zeta.
    destruct (negb (truthy _) && negb (truthy _)) eqn:Hboth; [intros []|].
    intros [<- | []]; cbn [tool file name description].
    repeat split.
    apply andb_false_iff in Hboth; destruct Hboth as [H | H];
      apply negb_false_iff in H; [left | right];
      intros E; rewrite E in H; discriminate H.
Qed.

Lemma pairs_In (l : list ParsedAgent) (a b : ParsedAgent) :
  In (a, b) (FixerFacts.pairs l) -> In a l /\ In b l.
Proof.
  induction l as [|x l IH]; cbn [FixerFacts.pairs]; [intros []|].
  intros H; apply in_app_or in H; destruct H as [H | H].
  - apply in_map_iff in H; destruct H as (y & [= <- <-] & Hy).
    split; [left; reflexivity | right; exact Hy].
  - destruct (IH H); split; right; assumption.
Qed.

(** An issue is a warning about files of the analyzed records. *)
Definition sound (agents : list ParsedAgent) (issue : FixIssue) : Prop :=
  severity issue = warning
  /\ Fixer.agents issue <> []
  /\ forall f, In f (Fixer.agents issue) -> In f (map file agents).

Lemma overlaps_sound (agents : list ParsedAgent) :
  Forall (sound agents) (detectOverlaps agents).
Proof.
  rewrite FixerFacts.detectOverlaps_pairs.
  apply Forall_forall; intros i Hi.
  apply in_flat_map in Hi; destruct Hi as ([a b] & Hab & Hi); cbn [fst snd] in Hi.
  apply pairs_In in Hab; destruct Hab as [Ha Hb].
  destruct (FixerFacts.overlapPair_at_most_one a b) as [H | H];
    rewrite H in Hi; [destruct Hi|].
  destruct Hi as [<- | []].
  split; [reflexivity|]. split; [discriminate|].
  intros f [<- | [<- | []]]; apply in_map; assumption.
Qed.

Lemma vague_sound (agents : list ParsedAgent) :
  Forall (sound agents) (detectVagueDescriptions toLowerCase agents).
Proof.
  apply Forall_forall; intros i Hi.
  unfold detectVagueDescriptions in Hi.
  apply in_flat_map in Hi; destruct Hi as (a & Ha & Hi).
  rewrite checkDescription_cases in Hi.
  destruct (_ <? 30); [|destruct (isVague a)];
    try (destruct Hi as [<- | []]; split; [reflexivity|]; split; [discriminate|];
         intros f [<- | []]; apply in_map, Ha).
  destruct Hi.
Qed.

Lemma duplicates_sound (agents : list ParsedAgent) :
  Forall (sound agents) (detectDuplicates toLowerCase agents).
Proof.
  apply Forall_forall; intros i Hi.
  unfold detectDuplicates in Hi; rewrite FixerFacts.groupByName_grouped in Hi.
  apply in_flat_map in Hi; destruct Hi as ([k group] & Hg & Hi); cbn [snd] in Hi.
  unfold FixerFacts.grouped in Hg.
  apply in_map_iff in Hg; destruct Hg as (k' & Hk & _).
  injection Hk as _ Hgroup; subst group.
  unfold checkGroup in Hi.
  destruct (List.length (FixerFacts.sameName toLowerCase k' agents) <=? 1) eqn:Hlen;
    [destruct Hi|].
  destruct (List.length (toolSet _) <=? 1); [destruct Hi|].
  destruct (1 <? List.length (setOf _)); [|destruct Hi].
  destruct Hi as [<- | []].
  split; [reflexivity|]. split.
  - cbn [Fixer.agents]; intros E; apply map_eq_nil in E; rewrite E in Hlen.
    discriminate Hlen.
  - cbn [Fixer.agents]; intros f Hf.
    apply in_map_iff in Hf; destruct Hf as (a & <- & Ha).
    unfold FixerFacts.sameName in Ha; apply filter_In in Ha.
    apply in_map, Ha.
Qed.

(** X20: What [analyzeAgents] returns. Every record comes from a config that
    is an agent file: it has the tool and the path of that config, and its
    name and its description are not both empty. Every issue is a warning
    that names at least one file, and only files of these records. Configs
    without an agent file give no record and no issue. *)
Theorem analyzeAgents_provenance (configs : list ExistingConfig) :
  Forall (fun agent =>
            exists config,
              In config configs /\ isAgentFile config = true
              /\ tool agent = Types.tool config /\ file agent = filePath config
              /\ (name agent <> [] \/ description agent <> []))
         (Analyzer.agents (analyzeAgents toLowerCase configs))
  /\ Forall (sound (Analyzer.agents (analyzeAgents toLowerCase configs)))
            (Analyzer.issues (analyzeAgents toLowerCase configs))
  /\ (Forall (fun config => isAgentFile config = false) configs ->
      analyzeAgents toLowerCase configs = mkFixResult [] []).
Proof.
  unfold analyzeAgents; cbv zeta; cbn [Analyzer.agents Analyzer.issues].
  split; [|split].
  - apply Forall_forall; intros agent H.
    apply in_flat_map in H; destruct H as (config & Hc & H).
    exists config; split; [exact Hc | apply agentsOf_from, H].
  - apply Forall_app; split; [apply overlaps_sound|].
    apply Forall_app; split; [apply vague_sound | apply duplicates_sound].
  - intros Hnone.
    assert (Hempty : flat_map (agentsOf toLowerCase) configs = []).
    { induction Hnone as [|c cs Hc _ IH]; [reflexivity|].
      cbn [flat_map]; rewrite IH; unfold agentsOf; rewrite Hc; reflexivity. }
    rewrite Hempty; reflexivity.
Qed.

(** *** AGENTS.md without sections *)

Lemma sectionRe_needs_heading (prev : option char) (s : jsstring) :
  startsWith s (lit "##") = false ->
  RegexSplit.matchLength sectionRe prev s = None.
Proof.
  unfold RegexSplit.matchLength, sectionRe; cbn [seqOf rmatch].
  change (lit "##") with [35; 35]%N; unfold isChr; change (N_of_ascii "#") with 35%N.
  intros H; destruct (atBol true prev); [|reflexivity].
  destruct s as [|c1 [|c2 s]]; cbn -[N.eqb] in *; try reflexivity.
  - destruct (N.eqb c1 35); reflexivity.
  - destruct (N.eqb c1 35); [|reflexivity].
    destruct (N.eqb c2 35); [|reflexivity].
    destruct s; discriminate H.
Qed.

Lemma splitFrom_no_heading (s : jsstring) :
  includes s (lit "##") = false ->
  forall prev piece,
    RegexSplit.splitFrom sectionRe prev s piece 0 = [rev piece ++ s].
Proof.
  induction s as [|c s IH]; intros H prev piece.
  - cbn [RegexSplit.splitFrom]; rewrite app_nil_r; reflexivity.
  - cbn [includes] in H; apply orb_false_iff in H; destruct H as [Hstart Hrest].
    cbn [RegexSplit.splitFrom].
    rewrite (sectionRe_needs_heading prev (c :: s) Hstart), (IH Hrest).
    cbn [rev]; rewrite <- app_assoc; reflexivity.
Qed.

(** X21: A shared AGENTS.md in which no two number signs follow each other has
    no heading of the second or third level, and defines no agent: the
    text before the first such heading is never a section. *)
Theorem agents_md_without_sections (config : ExistingConfig) :
  includes (contentOf config) (lit "##") = false ->
  parseAgentsFromAgentsMd toLowerCase config = [].
Proof.
  intros H; unfold parseAgentsFromAgentsMd, RegexSplit.split; cbv zeta.
  rewrite (splitFrom_no_heading _ H); reflexivity.
Qed.

End WholeAnalysis.

Lemma agents_md_without_sections_witness :
  parseAgentsFromAgentsMd (fun s => s)
    (mkConfig codex (lit "AGENTS.md") 40
       (Some (lit "# Project" ++ [LF] ++ lit "Use TypeScript everywhere.")) true [])
  = [].
Proof.
  apply agents_md_without_sections; vm_compute; reflexivity.
Defined.

End AnalyzerFacts.

(* ================================================================= *)
(** ** The files that the adapters write *)

Module AdapterFacts.

Import Windsurf.

Lemma NoDup_append {A : Type} (l1 l2 : list A) :
  NoDup l1 -> NoDup l2 -> (forall x, In x l1 -> In x l2 -> False) ->
  NoDup (l1 ++ l2).
Proof.
  induction l1 as [|x l1 IH]; intros H1 H2 Hd; [exact H2|].
  apply NoDup_cons_iff in H1; destruct H1 as [Hx H1].
  cbn [app]; constructor.
  - intros Hin; apply in_app_or in Hin; destruct Hin as [Hin | Hin];
      [exact (Hx Hin) | exact (Hd x (or_introl eq_refl) Hin)].
  - apply IH; [exact H1 | exact H2|].
    intros y Hy; apply Hd; right; exact Hy.
Qed.

(** A path made of a directory, an id and an extension. *)
Lemma NoDup_wrapped {A : Type} (key : A -> jsstring) (pre suf : jsstring) (l : list A) :
  NoDup (map key l) -> NoDup (map (fun x => pre ++ key x ++ suf) l).
Proof.
  induction l as [|x l IH]; cbn [map]; intros H; [constructor|].
  apply NoDup_cons_iff in H; destruct H as [Hx H].
  constructor; [|exact (IH H)].
  intros Hin; apply Hx.
  apply in_map_iff in Hin; destruct Hin as (y & Hy & Hin).
  apply app_inv_head, app_inv_tail in Hy.
  rewrite <- Hy; apply in_map, Hin.
Qed.

Lemma NoDup_map_firstn {A B : Type} (f : A -> B) (n : nat) (l : list A) :
  NoDup (map f l) -> NoDup (map f (firstn n l)).
Proof.
  revert n; induction l as [|x l IH]; intros [|n] H; cbn [firstn map];
    try constructor.
  - apply NoDup_cons_iff in H; destruct H as [Hx _].
    intros Hin; apply Hx.
    apply in_map_iff in Hin; destruct Hin as (y & <- & Hy).
    apply in_map; rewrite <- (firstn_skipn n l); apply in_or_app; left; exact Hy.
  - apply IH; apply NoDup_cons_iff in H; apply H.
Qed.

Lemma claude_paths (scan : ScanResult) (rec : RecommendationResult) :
  map path (files (ClaudeAdapter.generate scan rec))
  = lit "CLAUDE.md"
      :: map (fun a => lit ".claude/agents/" ++ AgentRecommendation.id a ++ lit ".md")
             (agents rec).
Proof.
  unfold ClaudeAdapter.generate; cbv zeta; cbn [files app map].
  rewrite map_map; reflexivity.
Qed.

Lemma cursor_paths (scan : ScanResult) (rec : RecommendationResult) :
  map path (files (CursorAdapter.generate scan rec))
  = map (fun r => lit ".cursor/rules/" ++ RuleRecommendation.id r ++ lit ".mdc")
        (rules rec)
      ++ (if 0 <? List.length (agents rec) then [lit "AGENTS.md"] else []).
Proof.
  unfold CursorAdapter.generate; cbv zeta; cbn [files].
  destruct (0 <? List.length (agents rec)).
  - rewrite map_app, map_map; reflexivity.
  - rewrite map_map, app_nil_r; reflexivity.
Qed.

Lemma copilot_paths (scan : ScanResult) (rec : RecommendationResult) :
  map path (files (CopilotAdapter.generate scan rec))
  = lit ".github/copilot-instructions.md"
      :: map (fun r => lit ".github/instructions/" ++ RuleRecommendation.id r
                         ++ lit ".instructions.md")
             (filter CopilotAdapter.hasOwnContext (rules rec))
      ++ map (fun a => lit ".github/agents/" ++ AgentRecommendation.id a
                         ++ lit ".agent.md")
             (firstn 5 (agents rec)).
Proof.
  unfold CopilotAdapter.generate; cbv zeta; cbn [files app].
  cbn [map]; rewrite map_app, !map_map; reflexivity.
Qed.

(** X22: The adapters never write two files to the same path when the ids of
    the agents and the ids of the rules are distinct. The Claude adapter
    writes CLAUDE.md and one file per agent; the Cursor adapter one file
    per rule and, when there is an agent, AGENTS.md; the Copilot adapter
    the main instructions, one file per rule that has patterns of its
    own, and one file for each of the first five agents only. *)
Theorem adapters_write_distinct_paths (scan : ScanResult) (rec : RecommendationResult) :
  NoDup (map AgentRecommendation.id (agents rec)) ->
  NoDup (map RuleRecommendation.id (rules rec)) ->
  (NoDup (map path (files (ClaudeAdapter.generate scan rec)))
   /\ List.length (files (ClaudeAdapter.generate scan rec))
      = 1 + List.length (agents rec))
  /\ (NoDup (map path (files (CursorAdapter.generate scan rec)))
      /\ List.length (files (CursorAdapter.generate scan rec))
         = List.length (rules rec) + (if 0 <? List.length (agents rec) then 1 else 0))
  /\ (NoDup (map path (files (CopilotAdapter.generate scan rec)))
      /\ List.length (files (CopilotAdapter.generate scan rec))
         = 1 + List.length (filter CopilotAdapter.hasOwnContext (rules rec))
           + Nat.min 5 (List.length (agents rec))).
Proof.
  intros Ha Hr.
  split; [|split]; (split; [|rewrite <- (length_map path)]).
  - rewrite claude_paths; constructor.
    + intros Hin; apply in_map_iff in Hin; destruct Hin as (a & Hp & _).
      discriminate Hp.
    + apply (NoDup_wrapped AgentRecommendation.id), Ha.
  - rewrite claude_paths; cbn [List.length]; rewrite length_map; reflexivity.
  - rewrite cursor_paths; apply NoDup_append.
    + apply (NoDup_wrapped RuleRecommendation.id), Hr.
    + destruct (0 <? _); repeat constructor; intros [].
    + intros p Hp Hq; apply in_map_iff in Hp; destruct Hp as (r & <- & _).
      destruct (0 <? _); [|destruct Hq].
      destruct Hq as [Hq | []]; discriminate Hq.
  - rewrite cursor_paths, length_app, length_map.
    destruct (0 <? _); reflexivity.
  - rewrite copilot_paths; constructor.
    + intros Hin; apply in_app_or in Hin; destruct Hin as [Hin | Hin];
        apply in_map_iff in Hin; destruct Hin as (x & Hp & _); discriminate Hp.
    + apply NoDup_append.
      * apply (NoDup_wrapped RuleRecommendation.id), RuleFacts.NoDup_map_filter, Hr.
      * apply (NoDup_wrapped AgentRecommendation.id), NoDup_map_firstn, Ha.
      * intros p Hp Hq.
        apply in_map_iff in Hp; destruct Hp as (r & <- & _).
        apply in_map_iff in Hq; destruct Hq as (a & Hq & _).
        discriminate Hq.
  - rewrite copilot_paths; cbn [List.length].
    rewrite length_app, !length_map, length_firstn; lia.
Qed.

(** Six agents and two rules of the catalog. *)
Definition sampleSet : RecommendationResult :=
  mkRecommendationResult
    (WindsurfMore.fiveAgents ++ [WindsurfMore.sampleAgent (lit "f")])
    [RoundTrip.tsRule;
     RuleRecommender.ruleOf RecommenderFacts.tieScan RuleRecommender.gitConventions]
    [] 0 0.

Lemma adapters_write_distinct_paths_witness :
  NoDup (map path (files (CopilotAdapter.generate RecommenderFacts.tieScan sampleSet)))
  /\ List.length (files (CopilotAdapter.generate RecommenderFacts.tieScan sampleSet)) = 7.
Proof.
  destruct (adapters_write_distinct_paths RecommenderFacts.tieScan sampleSet)
    as (_ & _ & Hnd & Hlen).
  - vm_compute; repeat (constructor; [intros H;
      repeat (destruct H as [H | H]; [discriminate H|]); exact H|]); constructor.
  - vm_compute; repeat (constructor; [intros H;
      repeat (destruct H as [H | H]; [discriminate H|]); exact H|]); constructor.
  - split; [exact Hnd | rewrite Hlen; reflexivity].
Defined.


(** *** The sizes that the adapters report *)

Lemma fold_sum_N (f : GeneratedFile -> N) (l : list GeneratedFile) :
  forall acc,
    (fold_left (fun sum x => sum + f x) l acc
     = acc + fold_right (fun x sum => f x + sum) 0 l)%N.
Proof.
  induction l as [|x l IH]; intros acc; cbn [fold_left fold_right]; [lia|].
  rewrite IH; lia.
Qed.

Lemma fold_sum_nat (f : GeneratedFile -> nat) (l : list GeneratedFile) :
  forall acc,
    fold_left (fun sum x => sum + f x) l acc
    = acc + fold_right (fun x sum => f x + sum) 0 l.
Proof.
  induction l as [|x l IH]; intros acc; cbn [fold_left fold_right]; [lia|].
  rewrite IH; lia.
Qed.

(** The characters of all files. *)
Definition totalChars (l : list GeneratedFile) : N :=
  fold_right (fun f sum => (len (content f) + sum)%N) 0%N l.

(** The bytes of all files. *)
Definition totalBytes (l : list GeneratedFile) : nat :=
  fold_right (fun f sum => sizeBytes f + sum) 0 l.

Lemma totalChars_bound (l : list GeneratedFile) (f : GeneratedFile) :
  In f l -> (len (content f) <= totalChars l)%N.
Proof.
  induction l as [|x l IH]; [intros []|].
  cbn [totalChars fold_right]; intros [<- | H]; [lia|].
  specialize (IH H); unfold totalChars in IH; lia.
Qed.

Lemma main_instructions_valid (thousands : N -> jsstring) (scan : ScanResult)
    (rec : RecommendationResult) :
  (len (content (CopilotAdapter.generateMainInstructions scan rec)) <= 30000)%N ->
  Validators.validateCopilotConfig thousands
    (WindsurfMore.written copilot (CopilotAdapter.generateMainInstructions scan rec)) = [].
Proof.
  intros Hlen; apply N.ltb_ge in Hlen.
  unfold Validators.validateCopilotConfig, WindsurfMore.written, contentOf;
    cbn [Types.filePath Types.content].
  unfold Validators.COPILOT_MAX_CONTEXT_SIZE; rewrite Hlen.
  reflexivity.
Qed.

(** X23: The sizes in the outputs of the adapters. The Claude adapter adds up
    the bytes of its files, and reports the sum with the unit tokens; the
    Cursor adapter and the Copilot adapter add up the characters of their
    files. The Copilot adapter warns exactly when this sum is above
    30000; when it does not warn, every file it writes has at most 30000
    characters, and the validator of Copilot has nothing to report about
    the main instructions. *)
Theorem adapters_report_sizes (thousands : N -> jsstring) (scan : ScanResult)
    (rec : RecommendationResult) :
  (totalSize (ClaudeAdapter.generate scan rec)
     = N.of_nat (totalBytes (files (ClaudeAdapter.generate scan rec)))
   /\ sizeUnit (ClaudeAdapter.generate scan rec) = tokens
   /\ warnings (ClaudeAdapter.generate scan rec) = [])
  /\ (totalSize (CursorAdapter.generate scan rec)
        = totalChars (files (CursorAdapter.generate scan rec))
      /\ sizeUnit (CursorAdapter.generate scan rec) = chars
      /\ warnings (CursorAdapter.generate scan rec) = [])
  /\ (totalSize (CopilotAdapter.generate scan rec)
        = totalChars (files (CopilotAdapter.generate scan rec))
      /\ sizeUnit (CopilotAdapter.generate scan rec) = chars
      /\ (warnings (CopilotAdapter.generate scan rec) <> [] <->
          (30000 < totalChars (files (CopilotAdapter.generate scan rec)))%N)
      /\ (warnings (CopilotAdapter.generate scan rec) = [] ->
          Forall (fun f => (len (content f) <= 30000)%N)
                 (files (CopilotAdapter.generate scan rec))
          /\ Validators.validateCopilotConfig thousands
               (WindsurfMore.written copilot
                  (CopilotAdapter.generateMainInstructions scan rec)) = [])).
Proof.
  split; [|split].
  - unfold ClaudeAdapter.generate; cbv zeta; cbn [totalSize sizeUnit warnings files].
    rewrite fold_sum_nat; repeat split.
  - unfold CursorAdapter.generate; cbv zeta; cbn [totalSize sizeUnit warnings files].
    rewrite fold_sum_N; repeat split.
  - assert (Htotal : totalSize (CopilotAdapter.generate scan rec)
                     = totalChars (files (CopilotAdapter.generate scan rec))).
    { unfold CopilotAdapter.generate; cbv zeta; cbn [totalSize files].
      rewrite fold_sum_N; reflexivity. }
    assert (Hwarn : warnings (CopilotAdapter.generate scan rec)
                    = if (30000 <? totalSize (CopilotAdapter.generate scan rec))%N
                      then [lit "Total instruction size exceeds Copilot 30k char limit per file."]
                      else []) by reflexivity.
    split; [exact Htotal|]. split; [reflexivity|].
    rewrite Hwarn, Htotal.
    destruct (N.ltb_spec 30000 (totalChars (files (CopilotAdapter.generate scan rec))))
      as [Hlt | Hle].
    + split; [split; [intros _; exact Hlt | discriminate] | discriminate].
    + split; [split; [intros H; destruct (H eq_refl) | lia]|].
      intros _.
      assert (Hall : Forall (fun f => (len (content f) <= 30000)%N)
                       (files (CopilotAdapter.generate scan rec))).
      { apply Forall_forall; intros f Hf.
        pose proof (totalChars_bound _ f Hf); lia. }
      split; [exact Hall|].
      apply main_instructions_valid.
      rewrite Forall_forall in Hall; apply Hall.
      unfold CopilotAdapter.generate; cbv zeta; cbn [files app]; left; reflexivity.
Qed.

End AdapterFacts.

(* ================================================================= *)
(** ** Size limits *)

Module SizeLimitFacts.

Import Windsurf SizeLimit.

Lemma estimateTokens_le_length (s : jsstring) : estimateTokens s <= List.length s.
Proof.
  unfold estimateTokens, CHARS_PER_TOKEN; change (4 - 1) with 3.
  destruct s as [|c s]; [reflexivity|].
  cbn [List.length].
  pose proof (Nat.div_mod_eq (S (List.length s) + 3) 4) as H.
  pose proof (Nat.mod_upper_bound (S (List.length s) + 3) 4 ltac:(lia)) as H'.
  lia.
Qed.

(** X24: The three units of [checkSizeLimit] are ordered: a content counts at
    most as many tokens as characters and at most as many characters as
    bytes, and at most three bytes for a character. So, for one limit, a
    content that fits in bytes fits in characters, and a content that
    fits in characters fits in tokens; a content that fits a limit fits
    every larger one, and the empty content fits every limit that is not
    negative. *)
Theorem checkSizeLimit_units_ordered (content : jsstring) (limit limit' : Z) :
  (currentSize (checkSizeLimit content limit tokens)
     <= currentSize (checkSizeLimit content limit chars)
     <= currentSize (checkSizeLimit content limit bytes)
   /\ currentSize (checkSizeLimit content limit bytes)
      <= 3 * currentSize (checkSizeLimit content limit chars))
  /\ (fits (checkSizeLimit content limit bytes) = true ->
      fits (checkSizeLimit content limit chars) = true)
  /\ (fits (checkSizeLimit content limit chars) = true ->
      fits (checkSizeLimit content limit tokens) = true)
  /\ (forall unit,
        (limit <= limit')%Z ->
        fits (checkSizeLimit content limit unit) = true ->
        fits (checkSizeLimit content limit' unit) = true)
  /\ (forall unit, fits (checkSizeLimit [] limit unit) = (0 <=? limit)%Z).
Proof.
  unfold checkSizeLimit; cbv zeta; cbn [currentSize fits].
  pose proof (estimateTokens_le_length content) as Ht.
  pose proof (WindsurfMore.byteLength_bounds content) as Hb.
  split; [lia|].
  split; [intros H; apply Z.leb_le in H; apply Z.leb_le; lia|].
  split; [intros H; apply Z.leb_le in H; apply Z.leb_le; lia|].
  split.
  - intros unit Hle H; apply Z.leb_le in H; apply Z.leb_le; lia.
  - intros []; reflexivity.
Qed.

End SizeLimitFacts.

(* ================================================================= *)
(** ** AGENTS.md: what the Cursor adapter writes, read back by the analyzer *)

Module AgentsMdFacts.

Import Windsurf.

(** *** Plain texts *)




(** *** The split in sections *)

Abbreviation splitFrom := (RegexSplit.splitFrom Analyzer.sectionRe).








(** *** The text of the file *)






















(** *** The sections of the file *)






(** *** One section *)







(** *** The bold words of a section *)



Lemma bold_fails_end (A : Type) (k : cont A) (prev : option char)
    (caps : list jsstring) :
  rmatch Fixer.boldRe prev [] caps k = None.
Proof. reflexivity. Qed.






(** *** The whole file *)

Section ReadBack.

Variable toLowerCase : jsstring -> jsstring.











End ReadBack.





End AgentsMdFacts.
